(** * xc task parser: a shallow embedding of [parser/parser.go]

    The Go parser walks a markdown document line by line, keeping the
    current line and one line of lookahead, and collects the tasks found
    under a root heading.  The embedding keeps the shape of the source:
    one record for the [parser] struct, one function per method, explicit
    state passing for the mutations of the receiver.

    Strings are byte strings ([string] of the standard library), as Go
    strings are, holding UTF-8.  The functions of Go's [strings] package
    that the parser calls are modelled in [Module strings].  [Cut],
    [Split], [Trim] with the ASCII cut set, [Count] and [Join] work on
    bytes in Go.  [TrimSpace] and [Fields] know the white space of
    Unicode, and so does the model, by the UTF-8 encodings of its code
    points.  [ToLower] and [EqualFold] know the letters of Unicode; the
    model has the code points outside ASCII that they map to an ASCII
    letter and leaves every other one as it is, which is exact for the
    parser's use of [ToLower] (a look-up under ASCII keys) and for
    [EqualFold] whenever one of the two strings is ASCII.

    The loops of [scan]-driven functions that advance the cursor in every
    round ([parseCodeBlock], [findTaskHeading], [NewParser]) are total
    functions here, bounded by the number of lines left.  [parseTaskBody]
    can loop for ever on the last line of the input, so it and its
    callers [parseTask] and [Parse] take fuel and answer [None] when it
    runs out; results are stated for every sufficient amount of fuel. *)

From Stdlib Require Import String Ascii List ZArith Bool Arith Lia.
Import ListNotations.
Open Scope string_scope.
Open Scope list_scope.

(** ** Go's [strings] package, as far as the parser uses it *)

Module strings.

(** The table [asciiSpace]: tab, line feed, vertical tab, form feed,
    carriage return and space. *)
Definition asciiSpace (c : ascii) : bool :=
  let n := nat_of_ascii c in
  ((9 <=? n)%nat && (n <=? 13)%nat) || (n =? 32)%nat.

(** [unicode.IsSpace] at the head of a UTF-8 string: the number of bytes
    of the white-space code point that [s] starts with, [0] if it starts
    with none.  Beside the six ASCII ones these are U+0085 and U+00A0
    (bytes C2 85, C2 A0), U+1680 (E1 9A 80), U+2000 to U+200A (E2 80 80
    to E2 80 8A), U+2028, U+2029, U+202F (E2 80 A8, A9, AF), U+205F
    (E2 81 9F) and U+3000 (E3 80 80).  A leading byte of UTF-8 never
    occurs inside another code point, so wherever these bytes stand in a
    string, Go decodes them as that code point. *)
Definition spaceWidth (s : string) : nat :=
  match s with
  | EmptyString => 0
  | String c s1 =>
      if asciiSpace c then 1
      else
        let b1 := nat_of_ascii c in
        match s1 with
        | EmptyString => 0
        | String d s2 =>
            let b2 := nat_of_ascii d in
            if (b1 =? 194)%nat then
              if (b2 =? 133)%nat || (b2 =? 160)%nat then 2 else 0
            else
              match s2 with
              | EmptyString => 0
              | String e _ =>
                  let b3 := nat_of_ascii e in
                  if (b1 =? 225)%nat then
                    if (b2 =? 154)%nat && (b3 =? 128)%nat then 3 else 0
                  else if (b1 =? 226)%nat then
                    if (b2 =? 128)%nat
                       && (((128 <=? b3)%nat && (b3 <=? 138)%nat)
                           || (b3 =? 168)%nat || (b3 =? 169)%nat
                           || (b3 =? 175)%nat)
                    then 3
                    else if (b2 =? 129)%nat && (b3 =? 159)%nat then 3
                    else 0
                  else if (b1 =? 227)%nat then
                    if (b2 =? 128)%nat && (b3 =? 128)%nat then 3 else 0
                  else 0
              end
        end
  end.

(** [s[n:]] and [s[:len(s)-n]] for [n] within the string. *)
Fixpoint skip (n : nat) (s : string) : string :=
  match n, s with
  | S n', String _ s' => skip n' s'
  | _, _ => s
  end.

Definition dropLast (n : nat) (s : string) : string :=
  substring 0 (String.length s - n) s.

(** The white-space code point that [s] ends with, as a number of bytes:
    the last one, two or three bytes are the encoding of one. *)
Definition spaceWidthAtEnd (s : string) : nat :=
  let l := String.length s in
  if (1 <=? l)%nat && (spaceWidth (skip (l - 1) s) =? 1)%nat then 1
  else if (2 <=? l)%nat && (spaceWidth (skip (l - 2) s) =? 2)%nat then 2
  else if (3 <=? l)%nat && (spaceWidth (skip (l - 3) s) =? 3)%nat then 3
  else 0.

(** Trimming white space takes a code point off one end in every round,
    so the length of the string bounds the rounds. *)
Fixpoint trimLeftSpace (rounds : nat) (s : string) : string :=
  match rounds with
  | O => s
  | S n =>
      match spaceWidth s with
      | O => s
      | w => trimLeftSpace n (skip w s)
      end
  end.

Fixpoint trimRightSpace (rounds : nat) (s : string) : string :=
  match rounds with
  | O => s
  | S n =>
      match spaceWidthAtEnd s with
      | O => s
      | w => trimRightSpace n (dropLast w s)
      end
  end.

Fixpoint TrimLeftFunc (f : ascii -> bool) (s : string) : string :=
  match s with
  | EmptyString => EmptyString
  | String c s' => if f c then TrimLeftFunc f s' else s
  end.

Fixpoint TrimRightFunc (f : ascii -> bool) (s : string) : string :=
  match s with
  | EmptyString => EmptyString
  | String c s' =>
      match TrimRightFunc f s' with
      | EmptyString => if f c then EmptyString else String c EmptyString
      | r => String c r
      end
  end.

Definition TrimFunc (f : ascii -> bool) (s : string) : string :=
  TrimRightFunc f (TrimLeftFunc f s).

Definition TrimSpace (s : string) : string :=
  let t := trimLeftSpace (String.length s) s in
  trimRightSpace (String.length t) t.

Fixpoint ContainsByte (s : string) (c : ascii) : bool :=
  match s with
  | EmptyString => false
  | String d s' => Ascii.eqb d c || ContainsByte s' c
  end.

Definition Trim (s cutset : string) : string :=
  TrimFunc (ContainsByte cutset) s.

(** [Fields]: the maximal runs of bytes between white-space code
    points, [tok] being the run read so far.  Every round takes at least
    one byte. *)
Fixpoint fieldsFrom (rounds : nat) (tok s : string) : list string :=
  match rounds, s with
  | S n, String c s' =>
      match spaceWidth s with
      | O => fieldsFrom n (tok ++ String c EmptyString) s'
      | w =>
          match tok with
          | EmptyString => fieldsFrom n EmptyString (skip w s)
          | _ => tok :: fieldsFrom n EmptyString (skip w s)
          end
      end
  | _, _ => match tok with EmptyString => [] | _ => [tok] end
  end.

Definition Fields (s : string) : list string :=
  fieldsFrom (String.length s) EmptyString s.

(** [Count s sep], [Cut s sep] and [Split s sep] for a one-byte [sep]. *)
Fixpoint Count (s : string) (sep : ascii) : nat :=
  match s with
  | EmptyString => 0
  | String c s' => (if Ascii.eqb c sep then 1 else 0) + Count s' sep
  end.

Definition Join (elems : list string) (sep : string) : string :=
  String.concat sep elems.

Fixpoint Cut (s : string) (sep : ascii) : string * string * bool :=
  match s with
  | EmptyString => (EmptyString, EmptyString, false)
  | String c s' =>
      if Ascii.eqb c sep then (EmptyString, s', true)
      else let '(before, after, found) := Cut s' sep in
           (String c before, after, found)
  end.

Fixpoint Split (s : string) (sep : ascii) : list string :=
  match s with
  | EmptyString => [EmptyString]
  | String c s' =>
      if Ascii.eqb c sep then EmptyString :: Split s' sep
      else match Split s' sep with
           | t :: ts => String c t :: ts
           | [] => [String c EmptyString]
           end
  end.

Definition toLowerByte (c : ascii) : ascii :=
  let n := nat_of_ascii c in
  if (65 <=? n)%nat && (n <=? 90)%nat then ascii_of_nat (n + 32) else c.

(** [ToLower].  Two code points outside ASCII have an ASCII letter as
    their lower case: U+0130 (bytes C4 B0) gives [i] and U+212A
    (E2 84 AA) gives [k].  Every other code point outside ASCII has its
    lower case outside ASCII, and Go writes U+FFFD for a byte that is not
    UTF-8; the model leaves those bytes as they are.  So the result
    equals a given ASCII string exactly when Go's result does, which is
    all [parseAttribute] asks of it. *)
Fixpoint ToLower (s : string) : string :=
  match s with
  | EmptyString => EmptyString
  | String c s1 =>
      match s1 with
      | EmptyString => String (toLowerByte c) EmptyString
      | String d s2 =>
          if Ascii.eqb c "196" && Ascii.eqb d "176"
          then String "i" (ToLower s2)
          else
            match s2 with
            | EmptyString => String (toLowerByte c) (ToLower s1)
            | String e s3 =>
                if Ascii.eqb c "226" && Ascii.eqb d "132" && Ascii.eqb e "170"
                then String "k" (ToLower s3)
                else String (toLowerByte c) (ToLower s1)
            end
      end
  end.

(** [EqualFold] compares under simple case folding.  [foldKey] folds
    what folds into ASCII: the capital letters, U+212A (E2 84 AA) with
    [k] and U+017F (C5 BF) with [s]; every other code point outside ASCII
    stays as it is.  Equal keys mean equal under folding in Go, and when
    one of the two strings is ASCII the converse holds as well; two
    strings that both leave ASCII can also be equal in Go through a
    folding of other letters. *)
Fixpoint foldKey (s : string) : string :=
  match s with
  | EmptyString => EmptyString
  | String c s1 =>
      match s1 with
      | EmptyString => String (toLowerByte c) EmptyString
      | String d s2 =>
          if Ascii.eqb c "197" && Ascii.eqb d "191"
          then String "s" (foldKey s2)
          else
            match s2 with
            | EmptyString => String (toLowerByte c) (foldKey s1)
            | String e s3 =>
                if Ascii.eqb c "226" && Ascii.eqb d "132" && Ascii.eqb e "170"
                then String "k" (foldKey s3)
                else String (toLowerByte c) (foldKey s1)
            end
      end
  end.

Definition EqualFold (s t : string) : bool :=
  String.eqb (foldKey s) (foldKey t).

End strings.

(** [len(s)] of a Go string, an [int]; a line never reaches 2^63 bytes,
    so no wrap-around arises. *)
Definition len (s : string) : Z := Z.of_nat (String.length s).

Definition LF : ascii := "010"%char.
Definition CR : ascii := "013"%char.
Definition newline : string := String LF EmptyString.

(** ** [bufio.Scanner] with the default line splitter

    The scanner hands out the lines of its input one by one; when they
    are used up [Scan] reports [false], and [Err] tells whether that was
    the end of the input ([None]) or a failure of the reader. *)

Record Scanner : Type := mkScanner {
  pending : list string;
  failure : option string
}.

Definition Scan (sc : Scanner) : option (string * Scanner) :=
  match pending sc with
  | [] => None
  | text :: rest => Some (text, mkScanner rest (failure sc))
  end.

Definition Err (sc : Scanner) : option string :=
  match pending sc with
  | [] => failure sc
  | _ => None
  end.

(** [bufio.ScanLines]: lines end at a line feed, one trailing carriage
    return is dropped, and a last line without line feed is delivered if
    it is not empty.  [rawLines] are the lines before the carriage
    return is dropped. *)
Definition dropCR (s : string) : string :=
  match String.length s with
  | O => s
  | S n => if Ascii.eqb (match get n s with Some c => c | None => LF end) CR
           then substring 0 n s else s
  end.

Fixpoint scanLinesFrom (line s : string) : list string :=
  match s with
  | EmptyString =>
      match line with EmptyString => [] | _ => [line] end
  | String c s' =>
      if Ascii.eqb c LF then line :: scanLinesFrom EmptyString s'
      else scanLinesFrom (line ++ String c EmptyString) s'
  end.

Definition rawLines (doc : string) : list string :=
  scanLinesFrom EmptyString doc.

Definition ScanLines (doc : string) : list string :=
  map dropCR (rawLines doc).

(** [bufio.MaxScanTokenSize]: the scanner's buffer holds 64 KiB, and a
    line has to fit in it together with its line feed.  At the first
    line that does not, the scanner stops with [bufio.ErrTooLong]; the
    lines before it have been delivered. *)
Definition MaxScanTokenSize : Z := 65536.

Definition ErrTooLong : string := "bufio.Scanner: token too long".

Fixpoint fitting (raw : list string) : list string * option string :=
  match raw with
  | [] => ([], None)
  | l :: rest =>
      if (MaxScanTokenSize <=? len l)%Z then ([], Some ErrTooLong)
      else let '(ls, e) := fitting rest in (dropCR l :: ls, e)
  end.

(** [bufio.NewScanner(strings.NewReader(doc))]: the reader itself
    cannot fail. *)
Definition NewScanner (doc : string) : Scanner :=
  let '(ls, e) := fitting (rawLines doc) in mkScanner ls e.

(** ** Data model *)

(** Modelled from the spec: [models.Task] and [models.Tasks], declared in
    the [models] package; the fields are those of the spec's data model,
    which are the ones [parser.go] reads and writes. *)
Record Task : Type := mkTask {
  Name : string;
  Description : list string;
  Script : string;
  Env : list string;
  Dir : string;
  DependsOn : list string;
  Inputs : list string
}.

Definition Tasks : Type := list Task.

(** [models.Task{}] *)
Definition emptyTask : Task :=
  mkTask EmptyString [] EmptyString [] EmptyString [] [].

Definition set_Name (v : string) (t : Task) : Task :=
  mkTask v (Description t) (Script t) (Env t) (Dir t) (DependsOn t) (Inputs t).
Definition set_Description (v : list string) (t : Task) : Task :=
  mkTask (Name t) v (Script t) (Env t) (Dir t) (DependsOn t) (Inputs t).
Definition set_Script (v : string) (t : Task) : Task :=
  mkTask (Name t) (Description t) v (Env t) (Dir t) (DependsOn t) (Inputs t).
Definition set_Env (v : list string) (t : Task) : Task :=
  mkTask (Name t) (Description t) (Script t) v (Dir t) (DependsOn t) (Inputs t).
Definition set_Dir (v : string) (t : Task) : Task :=
  mkTask (Name t) (Description t) (Script t) (Env t) v (DependsOn t) (Inputs t).
Definition set_DependsOn (v : list string) (t : Task) : Task :=
  mkTask (Name t) (Description t) (Script t) (Env t) (Dir t) v (Inputs t).
Definition set_Inputs (v : list string) (t : Task) : Task :=
  mkTask (Name t) (Description t) (Script t) (Env t) (Dir t) (DependsOn t) v.

(** The errors the parser builds, one constructor per [errors.New] or
    [fmt.Errorf] of the source. *)
Inductive error : Type :=
| ErrNoTasksHeading
| ErrDirectoryTwice (name : string)
| ErrBlockExists (name : string)
| ErrBlockNotEnded (name : string)
| ErrReadFile (cause : option string)
| ErrNoCommands (name : string).

Definition Error (e : error) : string :=
  match e with
  | ErrNoTasksHeading => "no xc block found"
  | ErrDirectoryTwice name => "directory appears more than once for " ++ name
  | ErrBlockExists name => "command block already exists for task " ++ name
  | ErrBlockNotEnded name => "command block in task " ++ name ++ " was not ended"
  | ErrReadFile (Some cause) => "failed to read file: " ++ cause
  | ErrReadFile None => "failed to read file: %!w(<nil>)"
  | ErrNoCommands name => "task " ++ name ++ " has no commands or required tasks"
  end.

Definition trimValues : string := "_*` ".

Record parser : Type := mkParser {
  scanner : Scanner;
  tasks : Tasks;
  currTask : Task;
  rootHeadingLevel : Z;
  nextLine : string;
  currentLine : string;
  reachedEnd : bool
}.

Definition set_scanner (v : Scanner) (p : parser) : parser :=
  mkParser v (tasks p) (currTask p) (rootHeadingLevel p) (nextLine p)
           (currentLine p) (reachedEnd p).
Definition set_tasks (v : Tasks) (p : parser) : parser :=
  mkParser (scanner p) v (currTask p) (rootHeadingLevel p) (nextLine p)
           (currentLine p) (reachedEnd p).
Definition set_currTask (v : Task) (p : parser) : parser :=
  mkParser (scanner p) (tasks p) v (rootHeadingLevel p) (nextLine p)
           (currentLine p) (reachedEnd p).
Definition set_rootHeadingLevel (v : Z) (p : parser) : parser :=
  mkParser (scanner p) (tasks p) (currTask p) v (nextLine p)
           (currentLine p) (reachedEnd p).
Definition set_nextLine (v : string) (p : parser) : parser :=
  mkParser (scanner p) (tasks p) (currTask p) (rootHeadingLevel p) v
           (currentLine p) (reachedEnd p).
Definition set_currentLine (v : string) (p : parser) : parser :=
  mkParser (scanner p) (tasks p) (currTask p) (rootHeadingLevel p)
           (nextLine p) v (reachedEnd p).
Definition set_reachedEnd (v : bool) (p : parser) : parser :=
  mkParser (scanner p) (tasks p) (currTask p) (rootHeadingLevel p)
           (nextLine p) (currentLine p) v.

(** ** The line cursor *)

(** [func (p *parser) scan() bool]: the answer and the parser after the
    call. When the scanner has no further line the parser only notes the
    end: the last line becomes current, [nextLine] keeps its value, and
    the call still answers [true]. *)
Definition scan (p : parser) : bool * parser :=
  if reachedEnd p then (false, p)
  else
    let p := set_currentLine (nextLine p) p in
    match Scan (scanner p) with
    | None => (true, set_reachedEnd true p)
    | Some (text, sc) => (true, set_nextLine text (set_scanner sc p))
    end.

(** The number of times [scan] can still answer [true]. *)
Definition budget (p : parser) : nat :=
  if reachedEnd p then 0 else S (List.length (pending (scanner p))).

(** ** Headings *)

(** [for i := range input] visits the bytes in order and stops at the
    first one that differs from the (ASCII) [matcher]. *)
Fixpoint allBytes (input : string) (matcher : ascii) : bool :=
  match input with
  | EmptyString => true
  | String c s' => if Ascii.eqb c matcher then allBytes s' matcher else false
  end.

(** [func stringOnlyContains(input string, matcher rune) bool] *)
Definition stringOnlyContains (input : string) (matcher : ascii) : bool :=
  if (len input =? 0)%Z then false else allBytes input matcher.

(** The three results [(ok, level, text)] of the heading recognisers. *)
Definition headingResult : Type := (bool * Z * string)%type.

(** [func (p *parser) parseAltHeading(advance bool) (ok bool, level int, text string)] *)
Definition parseAltHeading (advance : bool) (p : parser) : headingResult * parser :=
  let t := strings.TrimSpace (currentLine p) in
  let n := strings.TrimSpace (nextLine p) in
  let r : headingResult := (false, 0%Z, EmptyString) in
  let r : headingResult := if stringOnlyContains n "-" then (true, 2%Z, t) else r in
  let r : headingResult := if stringOnlyContains n "=" then (true, 1%Z, t) else r in
  let ok := fst (fst r) in
  if negb advance || negb ok then (r, p)
  else
    let p := snd (scan p) in
    let p := snd (scan p) in
    (r, p).

(** [func (p *parser) parseHeading(advance bool) (ok bool, level int, text string)] *)
Definition parseHeading (advance : bool) (p : parser) : headingResult * parser :=
  let '((ok, level, text), p) := parseAltHeading advance p in
  if ok then ((ok, level, text), p)
  else
    let t := strings.TrimSpace (currentLine p) in
    let s := strings.Fields t in
    match s with
    | s0 :: _ :: _ =>
        if (len s0 <? 1)%Z
           || negb (Z.of_nat (strings.Count s0 "#") =? len s0)%Z
        then ((ok, level, text), p)
        else
          let r : headingResult := (true, len s0, strings.Join (tl s) " ") in
          if negb advance then (r, p)
          else (r, snd (scan p))
    | _ => ((ok, level, text), p)
    end.

(** ** Attributes *)

Inductive AttributeType : Type :=
| AttributeTypeEnv
| AttributeTypeDir
| AttributeTypeReq
| AttributeTypeInp.

(** [var attMap = map[string]AttributeType{...}], a fixed table with
    distinct keys, and its lookup [attMap[k]]. *)
Definition attMap : list (string * AttributeType) :=
  [ ("req", AttributeTypeReq);
    ("requires", AttributeTypeReq);
    ("env", AttributeTypeEnv);
    ("environment", AttributeTypeEnv);
    ("dir", AttributeTypeDir);
    ("directory", AttributeTypeDir);
    ("inputs", AttributeTypeInp) ].

Fixpoint lookup (m : list (string * AttributeType)) (k : string)
  : option AttributeType :=
  match m with
  | [] => None
  | (k', v) :: m' => if String.eqb k' k then Some v else lookup m' k
  end.

(** [for _, v := range vs { field = append(field, strings.Trim(v, trimValues)) }] *)
Definition appendTrimmed (field vs : list string) : list string :=
  field ++ map (fun v => strings.Trim v trimValues) vs.

(** [func (p *parser) parseAttribute() (bool, error)] *)
Definition parseAttribute (p : parser) : (bool * option error) * parser :=
  let '(a, rest, found) := strings.Cut (currentLine p) ":" in
  if negb found then ((false, None), p)
  else
    match lookup attMap (strings.ToLower (strings.Trim a trimValues)) with
    | None => ((false, None), p)
    | Some ty =>
        let t := currTask p in
        let r : option error * parser :=
          match ty with
          | AttributeTypeInp =>
              let vs := strings.Split rest "," in
              (None, set_currTask (set_Inputs (appendTrimmed (Inputs t) vs) t) p)
          | AttributeTypeReq =>
              let vs := strings.Split rest "," in
              (None, set_currTask (set_DependsOn (appendTrimmed (DependsOn t) vs) t) p)
          | AttributeTypeEnv =>
              let vs := strings.Split rest "," in
              (None, set_currTask (set_Env (appendTrimmed (Env t) vs) t) p)
          | AttributeTypeDir =>
              if negb (String.eqb (Dir t) EmptyString)
              then (Some (ErrDirectoryTwice (Name t)), p)
              else
                let s := strings.Trim rest trimValues in
                (None, set_currTask (set_Dir s t) p)
          end in
        match r with
        | (Some e, p) => ((false, Some e), p)
        | (None, p) => ((true, None), snd (scan p))
        end
    end.

(** ** Code blocks *)

(** [len(t) >= 3 && t[:3] == "```"] *)
Definition isFence (t : string) : bool :=
  (3 <=? len t)%Z && String.eqb (substring 0 3 t) "```".

(** The loop [for p.scan() { ... }] of [parseCodeBlock]; the answer is
    [ended].  [n] bounds the number of rounds; [S (budget p)] rounds are
    always enough (lemma [codeBlockLoop_enough]). *)
Fixpoint codeBlockLoop (n : nat) (p : parser) : bool * parser :=
  match n with
  | O => (false, p)
  | S n' =>
      let '(more, p) := scan p in
      if negb more then (false, p)
      else if isFence (currentLine p) then (true, p)
      else if negb (String.eqb (strings.TrimSpace (currentLine p)) EmptyString)
      then
        let t := currTask p in
        codeBlockLoop n'
          (set_currTask (set_Script (Script t ++ currentLine p ++ newline) t) p)
      else codeBlockLoop n' p
  end.

(** [func (p *parser) parseCodeBlock() error] *)
Definition parseCodeBlock (p : parser) : option error * parser :=
  let t := currentLine p in
  if negb (isFence t) then (None, p)
  else if (0 <? len (Script (currTask p)))%Z
  then (Some (ErrBlockExists (Name (currTask p))), p)
  else
    let '(ended, p) := codeBlockLoop (S (budget p)) p in
    if negb ended then (Some (ErrBlockNotEnded (Name (currTask p))), p)
    else (None, snd (scan p)).

(** ** Tasks *)

(** The loop of [findTaskHeading]; the results are [(heading, done, err)].
    [S (budget p)] rounds are always enough (lemma
    [findTaskHeadingLoop_enough]). *)
Fixpoint findTaskHeadingLoop (n : nat) (p : parser)
  : (string * bool * option error) * parser :=
  match n with
  | O => ((EmptyString, false, Some (ErrReadFile (Err (scanner p)))), p)
  | S n' =>
      let '((tok, level, text), p) := parseHeading true p in
      if negb tok || (rootHeadingLevel p + 1 <? level)%Z then
        let '(more, p) := scan p in
        if negb more
        then ((EmptyString, false, Some (ErrReadFile (Err (scanner p)))), p)
        else findTaskHeadingLoop n' p
      else if (level <=? rootHeadingLevel p)%Z
      then ((EmptyString, true, None), p)
      else ((strings.Trim text trimValues, false, None), p)
  end.

(** [func (p *parser) findTaskHeading() (heading string, done bool, err error)] *)
Definition findTaskHeading (p : parser)
  : (string * bool * option error) * parser :=
  findTaskHeadingLoop (S (budget p)) p.

(** One round of the loop of [parseTaskBody]: either the loop goes on, or
    the function returns [(ok, err)]. *)
Inductive bodyRound : Type :=
| Continue (p : parser)
| Return (r : bool * option error) (p : parser).

Definition taskBodyRound (p : parser) : bodyRound :=
  let '((ok, err), p) := parseAttribute p in
  if ok then Continue p
  else
    match err with
    | Some e => Return (false, Some e) p
    | None =>
        let '(err, p) := parseCodeBlock p in
        match err with
        | Some e => Return (false, Some e) p
        | None =>
            let '((tok, level, _), p) := parseHeading false p in
            if tok && (level <=? rootHeadingLevel p)%Z
            then Return (false, None) p
            else if tok && (level =? rootHeadingLevel p + 1)%Z
            then Return (true, None) p
            else
              let p :=
                if negb (String.eqb (strings.TrimSpace (currentLine p)) EmptyString)
                then
                  let t := currTask p in
                  set_currTask
                    (set_Description
                       (Description t ++ [strings.Trim (currentLine p) trimValues]) t) p
                else p in
              let '(more, p) := scan p in
              if negb more then Return (false, None) p
              else Continue p
        end
    end.

(** [func (p *parser) parseTaskBody() (bool, error)]. The function need
    not return (lemma [parseTaskBody_last_line_attribute]): [None] is a
    run that is still looping after [fuel] rounds. *)
Fixpoint parseTaskBody (fuel : nat) (p : parser)
  : option ((bool * option error) * parser) :=
  match fuel with
  | O => None
  | S fuel' =>
      match taskBodyRound p with
      | Continue p => parseTaskBody fuel' p
      | Return r p => Some (r, p)
      end
  end.

(** [func (p *parser) parseTask() (ok bool, err error)] *)
Definition parseTask (fuel : nat) (p : parser)
  : option ((bool * option error) * parser) :=
  let p := set_currTask emptyTask p in
  let '((heading, done, err), p) := findTaskHeading p in
  match err with
  | Some e => Some ((false, Some e), p)
  | None =>
      if done then Some ((false, None), p)
      else
        let p := set_currTask (set_Name heading (currTask p)) p in
        match parseTaskBody fuel p with
        | None => None
        | Some ((ok, Some e), p) => Some ((ok, Some e), p)
        | Some ((ok, None), p) =>
            if (len (Script (currTask p)) <? 1)%Z
               && (Z.of_nat (List.length (DependsOn (currTask p))) <? 1)%Z
            then Some ((ok, Some (ErrNoCommands (Name (currTask p)))), p)
            else Some ((ok, None), set_tasks (tasks p ++ [currTask p]) p)
        end
  end.

(** The loop of [Parse]: [n] bounds the number of tasks read, [fuel] the
    rounds of each task body. *)
Fixpoint parseLoop (n fuel : nat) (p : parser)
  : option (option error * parser) :=
  match n with
  | O => None
  | S n' =>
      match parseTask fuel p with
      | None => None
      | Some ((ok, err), p) =>
          match err with
          | Some e => Some (Some e, p)
          | None => if negb ok then Some (None, p) else parseLoop n' fuel p
          end
      end
  end.

(** [func (p *parser) Parse() (tasks models.Tasks, err error)] *)
Definition Parse (fuel : nat) (p : parser) : option (Tasks * option error) :=
  match parseLoop fuel fuel p with
  | None => None
  | Some (err, p) => Some (tasks p, err)
  end.

(** The zero value of the [parser] struct around a scanner. *)
Definition newParserState (sc : Scanner) : parser :=
  mkParser sc [] emptyTask 0%Z EmptyString EmptyString false.

(** The loop [for p.scan() { ... }] of [NewParser]. [S (budget p)] rounds
    are always enough (lemma [newParserLoop_enough]). *)
Fixpoint newParserLoop (n : nat) (heading : string) (p : parser)
  : parser * option error :=
  match n with
  | O => (p, Some ErrNoTasksHeading)
  | S n' =>
      let '(more, p) := scan p in
      if negb more then (p, Some ErrNoTasksHeading)
      else
        let '((ok, level, text), p) := parseHeading true p in
        if negb ok
           || negb (strings.EqualFold (strings.TrimSpace text)
                                      (strings.TrimSpace heading))
        then newParserLoop n' heading p
        else (set_rootHeadingLevel level p, None)
  end.

(** [func NewParser(r io.Reader, heading string) (p parser, err error)],
    with the scanner over [r] in the place of [r]. *)
Definition NewParser (r : Scanner) (heading : string) : parser * option error :=
  let p := newParserState r in
  newParserLoop (S (budget p)) heading p.

(** [NewParser] followed by [Parse], as a caller runs them: the error of
    [NewParser] ends the run with no task list. *)
Definition parseDocument (fuel : nat) (r : Scanner) (heading : string)
  : option (Tasks * option error) :=
  match NewParser r heading with
  | (_, Some e) => Some ([], Some e)
  | (p, None) => Parse fuel p
  end.

(** ** Notions used to state the properties *)

(** A task as the validation of [parseTask] wants it. *)
Definition hasWork (t : Task) : Prop :=
  Script t <> EmptyString \/ DependsOn t <> [].

(** The parser after [k] tasks were read and appended, each by a call of
    [parseTask] that answered [(true, nil)]. *)
Fixpoint afterTasks (k fuel : nat) (p : parser) : option parser :=
  match k with
  | O => Some p
  | S k' =>
      match parseTask fuel p with
      | Some ((true, None), p) => afterTasks k' fuel p
      | _ => None
      end
  end.

(** The parser at the start of a task body, as [parseTask] sets it up
    from the result of [findTaskHeading]. *)
Definition bodyStart (heading : string) (p : parser) : parser :=
  set_currTask (set_Name heading (currTask p)) p.

(** The parser after [n] rounds of the loop of [parseTaskBody], none of
    which returned. *)
Fixpoint bodyRounds (n : nat) (p : parser) : option parser :=
  match n with
  | O => Some p
  | S n' =>
      match taskBodyRound p with
      | Continue p => bodyRounds n' p
      | Return _ _ => None
      end
  end.

(** What a task body never touches once it is set: the finished tasks,
    the root level and the task's name always; the task's directory and
    script from the moment they are not empty. *)
Definition bodyKeeps (p q : parser) : Prop :=
  tasks q = tasks p
  /\ rootHeadingLevel q = rootHeadingLevel p
  /\ Name (currTask q) = Name (currTask p)
  /\ (Dir (currTask p) <> EmptyString -> Dir (currTask q) = Dir (currTask p))
  /\ (Script (currTask p) <> EmptyString ->
      Script (currTask q) = Script (currTask p)).

(** The attribute a line is recognised as by [parseAttribute], if any,
    and its right-hand side. *)
Definition attributeOf (line : string) : option AttributeType :=
  let '(a, _, found) := strings.Cut line ":" in
  if found then lookup attMap (strings.ToLower (strings.Trim a trimValues))
  else None.

Definition attributeValue (line : string) : string :=
  let '(_, rest, _) := strings.Cut line ":" in rest.

Definition isDirLine (line : string) : bool :=
  match attributeOf line with
  | Some AttributeTypeDir => true
  | _ => false
  end.

(** [parseAttribute] on a line recognised as the attribute [ty] with the
    right-hand side [rest]: what becomes of the task. *)
Definition appendValues (ty : AttributeType) (rest : string) (t : Task) : Task :=
  let vs := strings.Split rest "," in
  match ty with
  | AttributeTypeInp => set_Inputs (appendTrimmed (Inputs t) vs) t
  | AttributeTypeReq => set_DependsOn (appendTrimmed (DependsOn t) vs) t
  | AttributeTypeEnv => set_Env (appendTrimmed (Env t) vs) t
  | AttributeTypeDir => set_Dir (strings.Trim rest trimValues) t
  end.

(** The list field of a task that a list-valued attribute appends to. *)
Definition listField (ty : AttributeType) (t : Task) : list string :=
  match ty with
  | AttributeTypeEnv => Env t
  | AttributeTypeReq => DependsOn t
  | AttributeTypeInp => Inputs t
  | AttributeTypeDir => []
  end.

(** [strings.TrimSpace(line) == ""] *)
Definition isBlank (line : string) : bool :=
  String.eqb (strings.TrimSpace line) EmptyString.

(** The text made of the lines [ls], each followed by a line feed. *)
Fixpoint lines (ls : list string) : string :=
  match ls with
  | [] => EmptyString
  | l :: ls' => l ++ newline ++ lines ls'
  end.

(** The lines [ls], each followed by the byte [t]. *)
Fixpoint eachFollowedBy (t : ascii) (ls : list string) : string :=
  match ls with
  | [] => EmptyString
  | l :: ls' => (l ++ String t (eachFollowedBy t ls'))%string
  end.

(** The script a fenced block with the lines [body] stands for: its
    non-blank lines, in their order, each followed by a line feed. *)
Definition scriptOf (body : list string) : string :=
  lines (filter (fun l => negb (isBlank l)) body).

(** A line that makes the line before it an underline heading. *)
Definition isRule (line : string) : bool :=
  stringOnlyContains (strings.TrimSpace line) "-"
  || stringOnlyContains (strings.TrimSpace line) "=".

(** *** Example parsers and documents *)

(** A parser whose cursor is on a line opening a fenced block of five
    lines, two of them blank. *)
Definition atFiveLineBlock : parser :=
  mkParser
    (mkScanner ["  "; "make test"; EmptyString; "  make install"; "```"; "after"]
               None)
    [] (set_Name "build" emptyTask) 1 "make" "```sh" false.

(** A parser whose cursor is on the attribute line [req: a,,b]. *)
Definition atReqLine : parser :=
  mkParser (mkScanner [] None) [] (set_Name "build" emptyTask) 1
           EmptyString "req: a,,b" false.

(** The parser, in a section whose root heading has level 1, with its
    cursor on the marker heading [## build], which the line [x] follows. *)
Definition atMarkerHeading
  (rest : list string) (fail : option string) (ts : Tasks) (t : Task)
  (x : string) : parser :=
  mkParser (mkScanner rest fail) ts t 1 x "## build" false.

(** The same parser with the underline heading [build] over the line
    [rule] in the place of the marker heading. *)
Definition atUnderlineHeading
  (rest : list string) (fail : option string) (ts : Tasks) (t : Task)
  (rule x : string) : parser :=
  mkParser (mkScanner (x :: rest) fail) ts t 1 rule "build" false.

(** The lines of a document whose first task, right under the root
    heading [# Tasks], is opened by the marker heading, and of the same
    document with the underline heading. *)
Definition linesWithMarker (x : string) (rest : list string) : list string :=
  "# Tasks" :: "## build" :: x :: rest.

Definition linesWithUnderline (rule x : string) (rest : list string)
  : list string :=
  "# Tasks" :: "build" :: rule :: x :: rest.

(** The worked example of the specification and the task it describes,
    up to the description. *)
Definition docBuild : string :=
  lines ["# Tasks"; "## build"; "req: test"; EmptyString; "```"; "echo hi"; "```"].

Definition taskBuild (description : list string) : Task :=
  mkTask "build" description (lines ["echo hi"]) [] EmptyString ["test"] [].

(** A complete task [a] followed by a task [b] without script or
    requirement. *)
Definition docSecondTaskEmpty : string :=
  lines ["# Tasks"; "## a"; "req: x"; "## b"; "foo"].

(** A task heading whose text is trimmed away entirely. *)
Definition docNamelessTask : string :=
  lines ["# Tasks"; "## __"; "req: x"; EmptyString].

(** A section without any task heading. *)
Definition docNoTasks : string :=
  lines ["# Tasks"; "hello"].

(** Two [dir:] lines, the first without a value; and two with a value. *)
Definition docEmptyDirFirst : string :=
  lines ["# Tasks"; "## build"; "dir:"; "dir: x"; "req: y"; EmptyString].

Definition docDirTwice : string :=
  lines ["# Tasks"; "## build"; "dir: x"; "some text"; "dir: x"; "req: y";
         EmptyString].

(** Two fenced blocks, the first empty; and two with a line each. *)
Definition docEmptyBlockFirst : string :=
  lines ["# Tasks"; "## build"; "```"; "```"; "text"; "```"; "echo"; "```";
         EmptyString].

Definition docBlockTwice : string :=
  lines ["# Tasks"; "## build"; "```"; "echo"; "```"; "text"; "```"; "echo";
         "```"; EmptyString].

(** A heading deeper than a task heading right before a task heading;
    and a plain line in its place. *)
Definition docDeepHeadingFirst : string :=
  lines ["# Tasks"; "### deep"; "## build"; "req: x"; EmptyString].

Definition docPlainLineFirst : string :=
  lines ["# Tasks"; "deep"; "## build"; "req: x"; EmptyString].

(** A task heading followed by a run of [-], in the two forms of the
    heading. *)
Definition docMarkerThenRule : string :=
  lines ["# Tasks"; "## build"; "---"; "req: x"; EmptyString].

Definition docUnderlineThenRule : string :=
  lines ["# Tasks"; "build"; "--------"; "---"; "req: x"; EmptyString].

(** ** Notions used to state the further properties *)

(** [k] calls of [scan] in a row. *)
Fixpoint scans (k : nat) (p : parser) : parser :=
  match k with
  | O => p
  | S k' => scans k' (snd (scan p))
  end.

(** The string of [n] bytes [c]. *)
Fixpoint run (n : nat) (c : ascii) : string :=
  match n with
  | O => EmptyString
  | S n' => String c (run n' c)
  end.

(** Every byte of [s] passes the test [f]. *)
Fixpoint allOf (f : ascii -> bool) (s : string) : bool :=
  match s with
  | EmptyString => true
  | String c s' => f c && allOf f s'
  end.

(** A string made of the characters that [strings.Trim] removes around
    names and values. *)
Definition isDecoration (s : string) : bool :=
  allOf (strings.ContainsByte trimValues) s.

(** A string of ASCII bytes only. *)
Definition isASCII (s : string) : bool :=
  allOf (fun c => (nat_of_ascii c <? 128)%nat) s.

(** A lower-case letter of the ASCII range. *)
Definition isLower (c : ascii) : bool :=
  let n := nat_of_ascii c in (97 <=? n)%nat && (n <=? 122)%nat.

(** The cursor of [q] stands on the line [current], with the lines
    [rest] still to come (none: the end is reached). *)
Definition cursorAt (q : parser) (current : string) (rest : list string) : Prop :=
  currentLine q = current
  /\ match rest with
     | [] => reachedEnd q = true
     | l :: rest' =>
         reachedEnd q = false /\ nextLine q = l /\ pending (scanner q) = rest'
     end.

(** Two tasks that differ in their script at most. *)
Definition sameButScript (t t' : Task) : Prop :=
  Name t' = Name t /\ Description t' = Description t /\ Env t' = Env t
  /\ Dir t' = Dir t /\ DependsOn t' = DependsOn t /\ Inputs t' = Inputs t.

(** What [parseHeading] makes of the line [current] before the line
    [next]. *)
Definition headingAt (current next : string) : headingResult :=
  fst (parseHeading false
         (mkParser (mkScanner [] None) [] emptyTask 0 next current false)).

(** A parser whose cursor is on a fence, with a block of one line, an
    attribute line right after the closing fence, and one more line. *)
Definition atBlockBeforeAttribute : parser :=
  mkParser (mkScanner ["```"; "req: x"; "more"] None) []
           (set_Name "build" emptyTask) 1 "echo" "```" false.

(** Documents that end with an attribute line of their only task. *)
Definition docEndsWithRequirement : string :=
  lines ["# Tasks"; "## build"; "req: test"].

Definition docEndsWithDirectory : string :=
  lines ["# Tasks"; "## build"; "req: test"; "dir: ./src"].

(** A line that cannot make [NewParser] stop at the target [heading]:
    it is no rule under another line, and it is no marker heading whose
    text is the target up to case and surrounding spaces. *)
Definition noRootHeading (heading line : string) : bool :=
  negb (isRule line)
  && (let '(ok, _, text) := headingAt line EmptyString in
      negb (ok && strings.EqualFold (strings.TrimSpace text)
                                    (strings.TrimSpace heading))).

(** A string that [strings.Trim] with the decoration set leaves as it is:
    it neither starts nor ends with [_], [*], a backtick or a space. *)
Definition isTrimmed (s : string) : Prop := strings.Trim s trimValues = s.

(** A task whose name, directory and list entries are all trimmed. *)
Definition tidy (t : Task) : Prop :=
  isTrimmed (Name t) /\ isTrimmed (Dir t)
  /\ Forall isTrimmed (Description t) /\ Forall isTrimmed (Env t)
  /\ Forall isTrimmed (DependsOn t) /\ Forall isTrimmed (Inputs t).

(** The last line of the input, as seen from the cursor. *)
Definition lastLine (p : parser) : string :=
  last (pending (scanner p)) (nextLine p).

(** The input does not end with an attribute line; and a parser at the
    end of the input stands on its last line with nothing left to read. *)
Definition endsPlainly (p : parser) : Prop :=
  attributeOf (lastLine p) = None
  /\ (reachedEnd p = true ->
      currentLine p = nextLine p /\ pending (scanner p) = []).

(** From [p] to [q] the cursor has not gone back and the end of the input
    is as plain as before; and if the script or the requirements of the
    task in progress changed, the cursor has advanced. *)
Definition moves (p q : parser) : Prop :=
  budget q <= budget p
  /\ (endsPlainly p -> endsPlainly q)
  /\ (endsPlainly p ->
      budget q < budget p
      \/ (Script (currTask q) = Script (currTask p)
          /\ DependsOn (currTask q) = DependsOn (currTask p))).

(** A line that is neither a rule under another line nor a marker
    heading. *)
Definition plainLine (line : string) : bool :=
  negb (isRule line) && negb (fst (fst (headingAt line EmptyString))).

(** A fresh parser on its way through the input: the cursor on
    [current], then [next] and the lines [rest] to come. *)
Definition onTheWay (fail : option string) (current next : string)
  (rest : list string) : parser :=
  mkParser (mkScanner rest fail) [] emptyTask 0%Z next current false.

(** Some code points outside ASCII, in UTF-8: the no-break space U+00A0,
    the ideographic space U+3000, the capital I with dot U+0130, the
    Kelvin sign U+212A and the long s U+017F. *)
Definition noBreakSpace : string := String "194" (String "160" EmptyString).
Definition ideographicSpace : string :=
  String "227" (String "128" (String "128" EmptyString)).
Definition dottedI : string := String "196" (String "176" EmptyString).
Definition kelvinSign : string :=
  String "226" (String "132" (String "170" EmptyString)).
Definition longS : string := String "197" (String "191" EmptyString).

(** * Properties *)

(** ** White space and letters outside ASCII *)

Lemma skip_length (n : nat) (s : string) :
  String.length (strings.skip n s) = String.length s - n.
Proof.
  revert s. induction n as [|n IH]; intros [|c s]; simpl; auto.
Qed.

Lemma spaceWidth_bound (s : string) : strings.spaceWidth s <= String.length s.
Proof.
  destruct s as [|c [|d [|e s]]]; unfold strings.spaceWidth;
    cbn [String.length];
    repeat match goal with
           | |- context [if ?b then _ else _] => destruct b
           end; lia.
Qed.

(** The rounds given to the trimming loops are enough: what is left has
    no white space at the end that was trimmed. *)
Lemma trimLeftSpace_done (n : nat) (s : string) :
  String.length s <= n ->
  strings.spaceWidth (strings.trimLeftSpace n s) = 0.
Proof.
  revert s. induction n as [|n IH]; intros s L.
  - destruct s; [reflexivity|simpl in L; lia].
  - cbn [strings.trimLeftSpace].
    destruct (strings.spaceWidth s) as [|w] eqn:W; [exact W|].
    apply IH. rewrite skip_length. pose proof (spaceWidth_bound s). lia.
Qed.

Lemma substring_length (k : nat) (s : string) :
  String.length (substring 0 k s) = Nat.min k (String.length s).
Proof.
  revert s. induction k as [|k IH]; intros [|c s]; simpl; auto.
Qed.

Lemma spaceWidthAtEnd_bound (s : string) :
  strings.spaceWidthAtEnd s <= String.length s.
Proof.
  unfold strings.spaceWidthAtEnd. cbv zeta.
  destruct (1 <=? String.length s)%nat eqn:L1;
    destruct (2 <=? String.length s)%nat eqn:L2;
    destruct (3 <=? String.length s)%nat eqn:L3;
    cbn [andb];
    repeat match goal with
           | |- context [if ?b then _ else _] => destruct b
           end;
    try apply Nat.leb_le in L1; try apply Nat.leb_le in L2;
    try apply Nat.leb_le in L3; lia.
Qed.

Lemma trimRightSpace_done (n : nat) (s : string) :
  String.length s <= n ->
  strings.spaceWidthAtEnd (strings.trimRightSpace n s) = 0.
Proof.
  revert s. induction n as [|n IH]; intros s L.
  - destruct s; [reflexivity|simpl in L; lia].
  - cbn [strings.trimRightSpace].
    destruct (strings.spaceWidthAtEnd s) as [|w] eqn:W; [exact W|].
    apply IH. unfold strings.dropLast. rewrite substring_length.
    pose proof (spaceWidthAtEnd_bound s). lia.
Qed.

Lemma spaceWidth_prefix (k : nat) (t : string) :
  strings.spaceWidth t = 0 -> strings.spaceWidth (substring 0 k t) = 0.
Proof.
  destruct t as [|c [|d [|e t]]]; destruct k as [|[|[|k]]];
    unfold strings.spaceWidth; cbn [substring];
    repeat match goal with
           | |- context [if ?b then _ else _] => destruct b
           end; try reflexivity; try discriminate.
Qed.

Lemma trimRightSpace_head (n : nat) (s : string) :
  strings.spaceWidth s = 0 ->
  strings.spaceWidth (strings.trimRightSpace n s) = 0.
Proof.
  revert s. induction n as [|n IH]; intros s H; cbn [strings.trimRightSpace];
    [exact H|].
  destruct (strings.spaceWidthAtEnd s); [exact H|].
  apply IH. now apply spaceWidth_prefix.
Qed.

(** What [strings.TrimSpace] returns neither starts nor ends with white
    space. *)
Lemma TrimSpace_trimmed_left (s : string) :
  strings.spaceWidth (strings.TrimSpace s) = 0.
Proof.
  unfold strings.TrimSpace. apply trimRightSpace_head.
  now apply trimLeftSpace_done.
Qed.

Lemma TrimSpace_trimmed_right (s : string) :
  strings.spaceWidthAtEnd (strings.TrimSpace s) = 0.
Proof. unfold strings.TrimSpace. now apply trimRightSpace_done. Qed.

(** The rounds given to [Fields] are enough: more of them change
    nothing. *)
Lemma fieldsFrom_enough (n m : nat) (tok s : string) :
  String.length s <= n -> String.length s <= m ->
  strings.fieldsFrom n tok s = strings.fieldsFrom m tok s.
Proof.
  revert m tok s. induction n as [|n IH]; intros m tok s Ln Lm.
  - destruct s; [|simpl in Ln; lia]. destruct m; reflexivity.
  - destruct s as [|c s]; [destruct m; reflexivity|].
    destruct m as [|m]; [simpl in Lm; lia|].
    cbn [strings.fieldsFrom].
    pose proof (skip_length (strings.spaceWidth (String c s)) (String c s)) as K.
    destruct (strings.spaceWidth (String c s)) as [|w].
    + apply IH; simpl in *; lia.
    + destruct tok; [|f_equal]; apply IH; simpl in *; lia.
Qed.

(** The no-break space and the ideographic space are white space for
    [TrimSpace] and [Fields]; the zero-width space U+200B is not. *)
Example TrimSpace_beyond_ASCII :
  strings.TrimSpace (noBreakSpace ++ " ---" ++ ideographicSpace ++ noBreakSpace)
  = "---"
  /\ isRule (noBreakSpace ++ "---") = true
  /\ isBlank (ideographicSpace ++ noBreakSpace) = true
  /\ isBlank (String "226" (String "128" (String "139" EmptyString))) = false.
Proof. vm_compute. auto. Qed.

Example Fields_beyond_ASCII :
  strings.Fields ("##" ++ noBreakSpace ++ "build" ++ ideographicSpace ++ "all ")
  = ["##"; "build"; "all"]
  /\ headingAt ("#" ++ noBreakSpace ++ "Intro") EmptyString = (true, 1%Z, "Intro").
Proof. vm_compute. auto. Qed.

(** The capital I with dot lower-cases to [i], so a name written with it
    is an attribute name; the Kelvin sign and the long s fold with [k]
    and [s]. *)
Example letters_beyond_ASCII :
  attributeOf ("D" ++ dottedI ++ "R: src") = Some AttributeTypeDir
  /\ attributeOf (dottedI ++ "NPUTS: a") = Some AttributeTypeInp
  /\ strings.EqualFold ("Tas" ++ kelvinSign ++ longS) "tasks" = true
  /\ strings.EqualFold ("tas" ++ dottedI) "tasi" = false.
Proof. vm_compute. auto. Qed.

(** A line of 64 KiB or more does not fit the scanner's buffer: the
    lines before it are delivered, then the scanner fails. *)
Lemma fitting_too_long (pre : list string) (l : string) (rest : list string) :
  Forall (fun a => (len a < MaxScanTokenSize)%Z) pre ->
  (MaxScanTokenSize <= len l)%Z ->
  fitting (pre ++ l :: rest) = (map dropCR pre, Some ErrTooLong).
Proof.
  intros F L. induction F as [|a pre Fa F IH]; cbn [app fitting map].
  - apply Z.leb_le in L. now rewrite L.
  - replace (MaxScanTokenSize <=? len a)%Z with false
      by (symmetry; apply Z.leb_gt; exact Fa).
    now rewrite IH.
Qed.

Lemma fitting_all (ls : list string) :
  Forall (fun a => (len a < MaxScanTokenSize)%Z) ls ->
  fitting ls = (map dropCR ls, None).
Proof.
  intro F. induction F as [|a ls Fa F IH]; cbn [fitting map]; [reflexivity|].
  replace (MaxScanTokenSize <=? len a)%Z with false
    by (symmetry; apply Z.leb_gt; exact Fa).
  now rewrite IH.
Qed.

(** ** The cursor: what [scan] leaves alone, and how often it can advance *)

Lemma scan_kept (p : parser) :
  tasks (snd (scan p)) = tasks p
  /\ currTask (snd (scan p)) = currTask p
  /\ rootHeadingLevel (snd (scan p)) = rootHeadingLevel p.
Proof.
  unfold scan. destruct (reachedEnd p); simpl; auto.
  destruct (Scan (scanner p)) as [[text sc]|]; simpl; auto.
Qed.

Lemma scan_budget (p : parser) :
  budget p = (if fst (scan p) then 1 else 0) + budget (snd (scan p)).
Proof.
  destruct p as [[pend fail] ts t root next cur [|]]; unfold scan, budget, Scan;
    simpl; [reflexivity|].
  destruct pend; reflexivity.
Qed.

Lemma budget_set_currTask (t : Task) (p : parser) :
  budget (set_currTask t p) = budget p.
Proof. reflexivity. Qed.

(** What a [scan] that advances does to the cursor. *)
Lemma scan_advances (p : parser) :
  reachedEnd p = false ->
  fst (scan p) = true
  /\ currentLine (snd (scan p)) = nextLine p
  /\ (reachedEnd (snd (scan p)) = false ->
      pending (scanner p)
      = nextLine (snd (scan p)) :: pending (scanner (snd (scan p)))).
Proof.
  destruct p as [[pend fail] ts t root next cur e]. simpl. intros ->.
  unfold scan, Scan. simpl. destruct pend; simpl; auto.
  repeat split; auto. discriminate.
Qed.

Lemma scan_at_end (p : parser) : reachedEnd p = true -> scan p = (false, p).
Proof. unfold scan. now intros ->. Qed.

(** Destructs a [scan p] of the goal into its two results, with the
    three facts above in the context. *)
Ltac scan_cases p more q :=
  let K := fresh "Hkept" in
  let B := fresh "Hbudget" in
  pose proof (scan_kept p) as K;
  pose proof (scan_budget p) as B;
  destruct (scan p) as [more q]; simpl fst in *; simpl snd in *;
  destruct K as (? & ? & ?).

(** ** The heading recognisers *)

Lemma parseAltHeading_kept (advance : bool) (p : parser) :
  let q := snd (parseAltHeading advance p) in
  tasks q = tasks p /\ currTask q = currTask p
  /\ rootHeadingLevel q = rootHeadingLevel p /\ budget q <= budget p.
Proof.
  unfold parseAltHeading.
  destruct (negb advance || negb _); simpl; [auto|].
  pose proof (scan_kept p) as (? & ? & ?).
  pose proof (scan_kept (snd (scan p))) as (? & ? & ?).
  pose proof (scan_budget p). pose proof (scan_budget (snd (scan p))).
  repeat split; try congruence; lia.
Qed.

Lemma parseAltHeading_peek (p : parser) :
  snd (parseAltHeading false p) = p.
Proof. reflexivity. Qed.

Lemma parseHeading_kept (advance : bool) (p : parser) :
  let q := snd (parseHeading advance p) in
  tasks q = tasks p /\ currTask q = currTask p
  /\ rootHeadingLevel q = rootHeadingLevel p /\ budget q <= budget p.
Proof.
  unfold parseHeading.
  pose proof (parseAltHeading_kept advance p) as H.
  destruct (parseAltHeading advance p) as [[[ok level] text] q]; simpl in H.
  destruct ok; simpl; [exact H|].
  destruct (strings.Fields _) as [|s0 [|s1 s]]; simpl; try exact H.
  destruct (_ || _); simpl; [exact H|].
  destruct advance; simpl; [|exact H].
  pose proof (scan_kept q) as (? & ? & ?). pose proof (scan_budget q).
  destruct H as (? & ? & ? & ?). repeat split; try congruence; lia.
Qed.

Lemma parseHeading_peek (p : parser) : snd (parseHeading false p) = p.
Proof.
  unfold parseHeading. rewrite (surjective_pairing (parseAltHeading false p)).
  rewrite parseAltHeading_peek.
  destruct (fst (parseAltHeading false p)) as [[ok level] text].
  destruct ok; simpl; [reflexivity|].
  destruct (strings.Fields _) as [|s0 [|s1 s]]; simpl; try reflexivity.
  destruct (_ || _); reflexivity.
Qed.

(** The advancing mode recognises what the peek mode recognises, and
    then moves the cursor: two lines for an underline heading, one for a
    marker heading, none if the line is not a heading. *)
Lemma parseHeading_advance (p : parser) :
  parseHeading true p
  = (fst (parseHeading false p),
     if fst (fst (fst (parseHeading false p)))
     then if isRule (nextLine p) then snd (scan (snd (scan p)))
          else snd (scan p)
     else p).
Proof.
  unfold parseHeading, parseAltHeading, isRule.
  destruct (stringOnlyContains (strings.TrimSpace (nextLine p)) "-"),
           (stringOnlyContains (strings.TrimSpace (nextLine p)) "=");
    cbn [fst snd negb orb andb]; try reflexivity.
  destruct (strings.Fields _) as [|s0 [|s1 s]]; try reflexivity.
  destruct (_ || _); reflexivity.
Qed.

(** Destructs a [parseHeading advance p] of the goal. *)
Ltac heading_cases advance p tok level text q :=
  let K := fresh "Hkept" in
  pose proof (parseHeading_kept advance p) as K;
  destruct (parseHeading advance p) as [[[tok level] text] q];
  simpl in K; destruct K as (? & ? & ? & ?).

(** ** Loops that always end

    The three loops that advance the cursor in every round are given
    [S (budget p)] rounds; no larger number changes their result. *)

Lemma codeBlockLoop_enough (n m : nat) (p : parser) :
  budget p < n -> budget p < m -> codeBlockLoop n p = codeBlockLoop m p.
Proof.
  revert m p. induction n as [|n IH]; intros m p Hn Hm; [lia|].
  destruct m as [|m]; [lia|]. simpl.
  scan_cases p more q. destruct more; simpl; [|reflexivity].
  destruct (isFence (currentLine q)); [reflexivity|].
  destruct (negb _); apply IH; rewrite ?budget_set_currTask; lia.
Qed.

Lemma findTaskHeadingLoop_enough (n m : nat) (p : parser) :
  budget p < n -> budget p < m ->
  findTaskHeadingLoop n p = findTaskHeadingLoop m p.
Proof.
  revert m p. induction n as [|n IH]; intros m p Hn Hm; [lia|].
  destruct m as [|m]; [lia|]. simpl.
  heading_cases true p tok level text q.
  destruct (negb tok || _); [|reflexivity].
  scan_cases q more q'. destruct more; simpl; [|reflexivity].
  apply IH; lia.
Qed.

Lemma newParserLoop_enough (n m : nat) (heading : string) (p : parser) :
  budget p < n -> budget p < m ->
  newParserLoop n heading p = newParserLoop m heading p.
Proof.
  revert m p. induction n as [|n IH]; intros m p Hn Hm; [lia|].
  destruct m as [|m]; [lia|]. simpl.
  scan_cases p more q. destruct more; simpl; [|reflexivity].
  heading_cases true q ok level text q'.
  destruct (negb ok || _); [|reflexivity].
  apply IH; lia.
Qed.

(** ** Attributes *)

(** [parseAttribute] by the attribute its line is recognised as. *)
Lemma parseAttribute_cases (p : parser) :
  parseAttribute p =
  match attributeOf (currentLine p) with
  | None => ((false, None), p)
  | Some ty =>
      let t := currTask p in
      match ty with
      | AttributeTypeDir =>
          if negb (String.eqb (Dir t) EmptyString)
          then ((false, Some (ErrDirectoryTwice (Name t))), p)
          else ((true, None),
                snd (scan (set_currTask
                             (appendValues ty (attributeValue (currentLine p)) t) p)))
      | _ => ((true, None),
              snd (scan (set_currTask
                           (appendValues ty (attributeValue (currentLine p)) t) p)))
      end
  end.
Proof.
  unfold parseAttribute, attributeOf, attributeValue.
  destruct (strings.Cut (currentLine p) ":") as [[a rest] found].
  destruct found; cbn [negb]; [|reflexivity].
  destruct (lookup attMap (strings.ToLower (strings.Trim a trimValues)))
    as [ty|]; [|reflexivity].
  destruct ty; cbn [appendValues]; try reflexivity.
  destruct (negb _); reflexivity.
Qed.

Lemma bodyKeeps_refl (p : parser) : bodyKeeps p p.
Proof. unfold bodyKeeps; auto. Qed.

Lemma bodyKeeps_trans (p q r : parser) :
  bodyKeeps p q -> bodyKeeps q r -> bodyKeeps p r.
Proof.
  unfold bodyKeeps. intros (T1 & R1 & N1 & D1 & S1) (T2 & R2 & N2 & D2 & S2).
  repeat split; try congruence.
  - intro H. rewrite <- (D1 H). apply D2. rewrite (D1 H). exact H.
  - intro H. rewrite <- (S1 H). apply S2. rewrite (S1 H). exact H.
Qed.

Lemma bodyKeeps_scan (p : parser) : bodyKeeps p (snd (scan p)).
Proof.
  destruct (scan_kept p) as (T & C & R). unfold bodyKeeps.
  rewrite T, C, R. auto.
Qed.

Lemma bodyKeeps_parseHeading (advance : bool) (p : parser) :
  bodyKeeps p (snd (parseHeading advance p)).
Proof.
  destruct (parseHeading_kept advance p) as (T & C & R & _). unfold bodyKeeps.
  rewrite T, C, R. auto.
Qed.

Lemma eqb_empty_false (s : string) :
  negb (String.eqb s EmptyString) = false -> s = EmptyString.
Proof.
  intro H. apply negb_false_iff in H. now apply String.eqb_eq.
Qed.

Lemma bodyKeeps_parseAttribute (p : parser) :
  bodyKeeps p (snd (parseAttribute p)).
Proof.
  rewrite parseAttribute_cases.
  destruct (attributeOf (currentLine p)) as [ty|]; [|apply bodyKeeps_refl].
  destruct ty; simpl;
    try (eapply bodyKeeps_trans; [|apply bodyKeeps_scan];
         unfold bodyKeeps; simpl; auto).
  destruct (negb _) eqn:E; simpl; [apply bodyKeeps_refl|].
  apply eqb_empty_false in E.
  eapply bodyKeeps_trans; [|apply bodyKeeps_scan].
  unfold bodyKeeps; simpl. repeat split; auto. intro H; contradiction.
Qed.

(** ** Code blocks *)

Lemma codeBlockLoop_kept (n : nat) (p : parser) :
  let q := snd (codeBlockLoop n p) in
  tasks q = tasks p /\ rootHeadingLevel q = rootHeadingLevel p
  /\ Name (currTask q) = Name (currTask p)
  /\ Dir (currTask q) = Dir (currTask p).
Proof.
  revert p. induction n as [|n IH]; intro p; simpl; [auto|].
  scan_cases p more q. destruct more; simpl; [|repeat split; congruence].
  destruct (isFence (currentLine q)); simpl; [repeat split; congruence|].
  destruct (negb _).
  - destruct (IH (set_currTask
                    (set_Script (Script (currTask q) ++ currentLine q ++ newline)
                                (currTask q)) q)) as (T & R & N & D).
    simpl in *. repeat split; congruence.
  - destruct (IH q) as (T & R & N & D). repeat split; congruence.
Qed.

Lemma len_pos (s : string) : (0 <? len s)%Z = false -> s = EmptyString.
Proof.
  unfold len. destruct s; simpl; [reflexivity|]. intro H.
  apply Z.ltb_ge in H. lia.
Qed.

Lemma bodyKeeps_parseCodeBlock (p : parser) :
  bodyKeeps p (snd (parseCodeBlock p)).
Proof.
  unfold parseCodeBlock.
  destruct (negb (isFence (currentLine p))); [apply bodyKeeps_refl|].
  destruct (0 <? len (Script (currTask p)))%Z eqn:E; [apply bodyKeeps_refl|].
  apply len_pos in E.
  pose proof (codeBlockLoop_kept (S (budget p)) p) as K.
  destruct (codeBlockLoop (S (budget p)) p) as [ended q]. simpl in K.
  destruct K as (T & R & N & D).
  assert (bodyKeeps p q) as B.
  { unfold bodyKeeps. repeat split; congruence. }
  destruct (negb ended); simpl; [exact B|].
  eapply bodyKeeps_trans; [exact B|apply bodyKeeps_scan].
Qed.

(** ** Task bodies *)

Lemma bodyKeeps_taskBodyRound (p : parser) :
  match taskBodyRound p with
  | Continue q => bodyKeeps p q
  | Return _ q => bodyKeeps p q
  end.
Proof.
  unfold taskBodyRound.
  pose proof (bodyKeeps_parseAttribute p) as KA.
  destruct (parseAttribute p) as [[ok err] p1]; simpl in KA.
  destruct ok; [exact KA|]. destruct err; [exact KA|].
  pose proof (bodyKeeps_parseCodeBlock p1) as KC.
  destruct (parseCodeBlock p1) as [err p2]; simpl in KC.
  pose proof (bodyKeeps_trans _ _ _ KA KC) as K2.
  destruct err; [exact K2|].
  pose proof (bodyKeeps_parseHeading false p2) as KH.
  destruct (parseHeading false p2) as [[[tok level] text] p3]; simpl in KH.
  pose proof (bodyKeeps_trans _ _ _ K2 KH) as K3.
  destruct (tok && _); [exact K3|]. destruct (tok && _); [exact K3|].
  match goal with |- context [scan ?x] =>
    assert (bodyKeeps p3 x) as KD; [|pose proof (bodyKeeps_scan x) as KS;
                                     destruct (scan x) as [more p4]] end.
  { destruct (negb _); [|apply bodyKeeps_refl]. unfold bodyKeeps; simpl; auto. }
  simpl in KS.
  pose proof (bodyKeeps_trans _ _ _ K3 (bodyKeeps_trans _ _ _ KD KS)).
  destruct (negb more); assumption.
Qed.

Lemma bodyKeeps_bodyRounds (n : nat) (p q : parser) :
  bodyRounds n p = Some q -> bodyKeeps p q.
Proof.
  revert p. induction n as [|n IH]; simpl; intros p H.
  - injection H as <-. apply bodyKeeps_refl.
  - pose proof (bodyKeeps_taskBodyRound p) as K.
    destruct (taskBodyRound p) as [p1|r p1]; [|discriminate].
    eapply bodyKeeps_trans; [exact K|apply IH, H].
Qed.

Lemma bodyKeeps_parseTaskBody (fuel : nat) (p q : parser) r :
  parseTaskBody fuel p = Some (r, q) -> bodyKeeps p q.
Proof.
  revert p. induction fuel as [|fuel IH]; simpl; intros p H; [discriminate|].
  pose proof (bodyKeeps_taskBodyRound p) as K.
  destruct (taskBodyRound p) as [p1|r1 p1].
  - eapply bodyKeeps_trans; [exact K|apply IH, H].
  - injection H as <- <-. exact K.
Qed.

(** Running [n] rounds first and the rest afterwards is running them all. *)
Lemma parseTaskBody_rounds (n fuel : nat) (p q : parser) :
  bodyRounds n p = Some q ->
  parseTaskBody (n + fuel) p = parseTaskBody fuel q.
Proof.
  revert p. induction n as [|n IH]; simpl; intros p H.
  - now injection H as <-.
  - destruct (taskBodyRound p) as [p1|r p1]; [|discriminate]. apply IH, H.
Qed.

(** [parseTaskBody] does not return when the last line of the input is a
    list-valued attribute: [parseAttribute] answers [true] although its
    [scan] did not advance, and the loop reads the same line again. *)
Lemma parseTaskBody_last_line_attribute (fuel : nat) (p : parser)
  (ty : AttributeType) :
  reachedEnd p = true ->
  attributeOf (currentLine p) = Some ty ->
  ty <> AttributeTypeDir ->
  parseTaskBody fuel p = None.
Proof.
  revert p. induction fuel as [|fuel IH]; intros p End A NotDir; [reflexivity|].
  cbn [parseTaskBody]. unfold taskBodyRound.
  rewrite parseAttribute_cases, A.
  destruct ty; try contradiction; cbn [fst snd];
    rewrite scan_at_end by exact End; cbn [snd];
    (apply IH; [exact End|exact A|exact NotDir]).
Qed.

(** ** More fuel does not change a result *)

Lemma parseTaskBody_mono (fuel fuel' : nat) (p : parser) r :
  parseTaskBody fuel p = Some r -> fuel <= fuel' ->
  parseTaskBody fuel' p = Some r.
Proof.
  revert fuel' p. induction fuel as [|fuel IH]; simpl; intros fuel' p H L;
    [discriminate|].
  destruct fuel' as [|fuel']; [lia|]. simpl.
  destruct (taskBodyRound p) as [p1|r1 p1]; [|exact H].
  apply IH; [exact H|lia].
Qed.

Lemma parseTask_mono (fuel fuel' : nat) (p : parser) r :
  parseTask fuel p = Some r -> fuel <= fuel' -> parseTask fuel' p = Some r.
Proof.
  unfold parseTask. intros H L.
  destruct (findTaskHeading _) as [[[heading done] err] p1].
  destruct err; [exact H|]. destruct done; [exact H|].
  destruct (parseTaskBody fuel _) as [rb|] eqn:E; [|discriminate].
  rewrite (parseTaskBody_mono _ _ _ _ E L). exact H.
Qed.

Lemma parseLoop_mono (n n' fuel fuel' : nat) (p : parser) r :
  parseLoop n fuel p = Some r -> n <= n' -> fuel <= fuel' ->
  parseLoop n' fuel' p = Some r.
Proof.
  revert n' p. induction n as [|n IH]; simpl; intros n' p H Ln Lf;
    [discriminate|].
  destruct n' as [|n']; [lia|]. simpl.
  destruct (parseTask fuel p) as [rt|] eqn:E; [|discriminate].
  rewrite (parseTask_mono _ _ _ _ E Lf).
  destruct rt as [[ok err] p1]. destruct err; [exact H|].
  destruct (negb ok); [exact H|]. apply IH; [exact H|lia|exact Lf].
Qed.

Lemma Parse_mono (fuel fuel' : nat) (p : parser) r :
  Parse fuel p = Some r -> fuel <= fuel' -> Parse fuel' p = Some r.
Proof.
  unfold Parse. intros H L.
  destruct (parseLoop fuel fuel p) as [[err q]|] eqn:E; [|discriminate].
  now rewrite (parseLoop_mono _ _ _ _ _ _ E L L).
Qed.

Lemma parseDocument_mono (fuel fuel' : nat) (r : Scanner) (heading : string) res :
  parseDocument fuel r heading = Some res -> fuel <= fuel' ->
  parseDocument fuel' r heading = Some res.
Proof.
  unfold parseDocument. destruct (NewParser r heading) as [p [e|]]; [auto|].
  apply Parse_mono.
Qed.

(** ** Tasks *)

Lemma findTaskHeadingLoop_kept (n : nat) (p : parser) :
  let q := snd (findTaskHeadingLoop n p) in
  tasks q = tasks p /\ currTask q = currTask p
  /\ rootHeadingLevel q = rootHeadingLevel p.
Proof.
  revert p. induction n as [|n IH]; intro p; simpl; [auto|].
  heading_cases true p tok level text q.
  destruct (negb tok || _); [|destruct (level <=? _)%Z; simpl; auto].
  scan_cases q more q'. destruct more; simpl; [|repeat split; congruence].
  destruct (IH q') as (T & C & R). repeat split; congruence.
Qed.

Lemma findTaskHeading_kept (p : parser) :
  let q := snd (findTaskHeading p) in
  tasks q = tasks p /\ currTask q = currTask p
  /\ rootHeadingLevel q = rootHeadingLevel p.
Proof. apply findTaskHeadingLoop_kept. Qed.

(** The validation of [parseTask], read as a proposition. *)
Lemma validation_hasWork (t : Task) :
  (len (Script t) <? 1)%Z && (Z.of_nat (List.length (DependsOn t)) <? 1)%Z = false
  <-> hasWork t.
Proof.
  unfold hasWork, len. rewrite andb_false_iff, !Z.ltb_ge.
  destruct (Script t) as [|c s], (DependsOn t) as [|d ds]; simpl String.length;
    simpl List.length; split; intro H.
  all: try (left; discriminate); try (right; discriminate); try lia.
  destruct H; congruence.
Qed.

(** A call of [parseTask] either leaves the finished tasks as they are,
    or appends the task it read, which then passed the validation. *)
Lemma parseTask_tasks (fuel : nat) (p q : parser) (ok : bool) (err : option error) :
  parseTask fuel p = Some ((ok, err), q) ->
  (tasks q = tasks p /\ (err <> None \/ ok = false))
  \/ (err = None /\ tasks q = tasks p ++ [currTask q] /\ hasWork (currTask q)).
Proof.
  unfold parseTask.
  pose proof (findTaskHeading_kept (set_currTask emptyTask p)) as K.
  destruct (findTaskHeading _) as [[[heading done] e] p1]. simpl in K.
  destruct K as (T & _ & _).
  destruct e as [e|].
  { intro H; injection H as <- <- <-. left. split; [exact T|left; discriminate]. }
  destruct done.
  { intro H; injection H as <- <- <-. left. auto. }
  destruct (parseTaskBody fuel _) as [[[okb eb] p2]|] eqn:E; [|discriminate].
  apply bodyKeeps_parseTaskBody in E. destruct E as (T2 & _). simpl in T2.
  destruct eb as [e|].
  { intro H; injection H as <- <- <-. left.
    split; [congruence|left; discriminate]. }
  destruct (_ && _) eqn:V.
  { intro H; injection H as <- <- <-. left.
    split; [congruence|left; discriminate]. }
  intro H; injection H as <- <- <-. right. simpl.
  repeat split; [congruence|apply validation_hasWork, V].
Qed.

Lemma parseTask_appends (fuel : nat) (p q : parser) :
  parseTask fuel p = Some ((true, None), q) ->
  tasks q = tasks p ++ [currTask q] /\ hasWork (currTask q).
Proof.
  intro H. apply parseTask_tasks in H.
  destruct H as [(_ & [H|H])|(_ & H)]; [congruence|discriminate|exact H].
Qed.

Lemma parseTask_error_tasks (fuel : nat) (p q : parser) (ok : bool) (e : error) :
  parseTask fuel p = Some ((ok, Some e), q) -> tasks q = tasks p.
Proof.
  intro H. apply parseTask_tasks in H.
  destruct H as [(H & _)|(H & _)]; [exact H|discriminate].
Qed.

Lemma afterTasks_tasks (k fuel : nat) (p q : parser) :
  afterTasks k fuel p = Some q ->
  exists done, tasks q = tasks p ++ done /\ List.length done = k
               /\ Forall hasWork done.
Proof.
  revert p. induction k as [|k IH]; simpl; intros p H.
  - injection H as <-. exists []. now rewrite app_nil_r.
  - destruct (parseTask fuel p) as [[[[|] [e|]] p1]|] eqn:E; try discriminate.
    apply parseTask_appends in E. destruct E as (T & W).
    destruct (IH _ H) as (done & T' & L & F).
    exists (currTask p1 :: done). rewrite T', T, <- app_assoc. simpl.
    repeat split; [now rewrite L|now constructor].
Qed.

Lemma parseLoop_afterTasks (k n fuel : nat) (p q : parser) :
  afterTasks k fuel p = Some q ->
  parseLoop (k + n) fuel p = parseLoop n fuel q.
Proof.
  revert p. induction k as [|k IH]; simpl; intros p H.
  - now injection H as <-.
  - destruct (parseTask fuel p) as [[[[|] [e|]] p1]|]; try discriminate.
    simpl. apply IH, H.
Qed.

(** After [k] complete tasks, a call of [parseTask] that fails makes
    [Parse] return its error, with the tasks completed before. *)
Lemma Parse_aborts_at_task
  (fuel k : nat) (ps p0 q : parser) (ok : bool) (e : error) :
  afterTasks k fuel ps = Some p0 ->
  parseTask fuel p0 = Some ((ok, Some e), q) ->
  k < fuel ->
  Parse fuel ps = Some (tasks p0, Some e).
Proof.
  intros A T Lk.
  unfold Parse. replace fuel with (k + S (fuel - S k)) at 1 by lia.
  rewrite (parseLoop_afterTasks _ _ _ _ _ A). cbn [parseLoop]. rewrite T.
  now rewrite (parseTask_error_tasks _ _ _ _ _ T).
Qed.

(** A run of [Parse] that ends in an error went through some complete
    tasks and then met the call of [parseTask] that failed. *)
Lemma parseLoop_error (n fuel : nat) (p q' : parser) (e : error) :
  parseLoop n fuel p = Some (Some e, q') ->
  exists k q ok, afterTasks k fuel p = Some q
                 /\ parseTask fuel q = Some ((ok, Some e), q').
Proof.
  revert p. induction n as [|n IH]; simpl; intros p H; [discriminate|].
  destruct (parseTask fuel p) as [[[ok err] p1]|] eqn:E; [|discriminate].
  destruct err as [e1|].
  - injection H as <- <-. exists 0, p, ok. simpl. auto.
  - destruct ok; simpl in H; [|discriminate].
    destruct (IH _ H) as (k & q & ok & A & T).
    exists (S k), q, ok. simpl. rewrite E. auto.
Qed.

(** A run of [Parse] that ends without error went through some complete
    tasks and then met the call of [parseTask] that ended the loop. *)
Lemma parseLoop_success (n fuel : nat) (p q' : parser) :
  parseLoop n fuel p = Some (None, q') ->
  exists k q, afterTasks k fuel p = Some q
              /\ parseTask fuel q = Some ((false, None), q').
Proof.
  revert p. induction n as [|n IH]; simpl; intros p H; [discriminate|].
  destruct (parseTask fuel p) as [[[ok err] p1]|] eqn:E; [|discriminate].
  destruct err as [e1|]; [discriminate|].
  destruct ok; simpl in H.
  - destruct (IH _ H) as (k & q & A & T).
    exists (S k), q. simpl. rewrite E. auto.
  - injection H as <-. exists 0, p. simpl. auto.
Qed.

Lemma parseLoop_tasks (n fuel : nat) (p q : parser) (err : option error) :
  parseLoop n fuel p = Some (err, q) ->
  exists done, tasks q = tasks p ++ done /\ Forall hasWork done.
Proof.
  revert p. induction n as [|n IH]; simpl; intros p H; [discriminate|].
  destruct (parseTask fuel p) as [[[ok e] p1]|] eqn:E; [|discriminate].
  apply parseTask_tasks in E.
  assert (exists d, tasks p1 = tasks p ++ d /\ Forall hasWork d) as (d & T & F).
  { destruct E as [(T & _)|(_ & T & W)].
    - exists []. now rewrite app_nil_r.
    - exists [currTask p1]. auto. }
  destruct e as [e|]; [|destruct ok; simpl in H].
  - injection H as <- <-. eauto.
  - destruct (IH _ H) as (d' & T' & F'). exists (d ++ d').
    rewrite T', T, app_assoc. split; [reflexivity|]. apply Forall_app; auto.
  - injection H as <- <-. eauto.
Qed.

(** ** [NewParser] *)

Lemma newParserLoop_tasks (n : nat) (heading : string) (p : parser) :
  tasks (fst (newParserLoop n heading p)) = tasks p.
Proof.
  revert p. induction n as [|n IH]; intro p; simpl; [reflexivity|].
  scan_cases p more q. destruct more; simpl; [|congruence].
  heading_cases true q ok level text q'.
  destruct (negb ok || _); simpl; [rewrite IH|]; congruence.
Qed.

Lemma NewParser_tasks (r : Scanner) (heading : string) :
  tasks (fst (NewParser r heading)) = [].
Proof. unfold NewParser. now rewrite newParserLoop_tasks. Qed.

(** Evaluates a run on a closed document with [n] units of fuel and
    lifts the result to every larger amount. *)
Ltac run_with n :=
  intros; apply (parseDocument_mono n); [vm_compute; reflexivity|lia].

(** ** The worked example of the specification *)

(** C1. The document ["# Tasks\n## build\nreq: test\n\n```\necho hi\n```\n"]
    with target heading ["Tasks"] parses, with any fuel from 3 on, without
    error into exactly one task named ["build"] with [DependsOn = ["test"]]
    and [Script = "echo hi\n"]; its [Description] however is not empty but
    holds one empty string: the closing fence is the last line, the
    [scan] that ends [parseCodeBlock] cannot leave it, and [parseTaskBody]
    appends the fence, trimmed of its backticks, to the description. With
    one more (empty) line after the closing fence the description is
    empty. *)
Theorem C1_build_document :
  (forall k, parseDocument (3 + k) (NewScanner docBuild) "Tasks"
             = Some ([taskBuild [EmptyString]], None))
  /\ (forall k, parseDocument (3 + k) (NewScanner (docBuild ++ newline)) "Tasks"
                = Some ([taskBuild []], None)).
Proof. split; run_with 3. Qed.

(** ** All or nothing *)

(** C2, as the claim states it, fails: in a document whose first task is
    complete and whose second task has neither script nor requirement,
    [Parse] returns the error together with the first task. *)
Lemma C2_partial_list_counterexample :
  exists ts e,
    parseDocument 2 (NewScanner docSecondTaskEmpty) "Tasks" = Some (ts, Some e)
    /\ ts <> [].
Proof.
  eexists _, _. split; [vm_compute; reflexivity|discriminate].
Qed.

(** C2, amended. The caller receives either the full ordered task list
    with no error, or one error together with the tasks completed before
    the failure and nothing else. In the first case [k] tasks were read
    by complete calls of [parseTask] and a last call ended the run; the
    list is the list after that call. In the second case either
    [NewParser] failed and the list is empty, or [k] tasks were read by
    complete calls of [parseTask], the next call failed with the error,
    and the returned list is the list as that call found it, of length
    [k]. *)
Theorem C2_error_returns_completed_tasks
  (fuel : nat) (r : Scanner) (heading : string) (ts : Tasks)
  (err : option error) :
  parseDocument fuel r heading = Some (ts, err) ->
  match err with
  | None =>
      exists p k q q',
        NewParser r heading = (p, None)
        /\ afterTasks k fuel p = Some q
        /\ parseTask fuel q = Some ((false, None), q')
        /\ ts = tasks q'
  | Some e =>
      (snd (NewParser r heading) = Some e /\ ts = [])
      \/ (exists p k q ok q',
            NewParser r heading = (p, None)
            /\ afterTasks k fuel p = Some q
            /\ parseTask fuel q = Some ((ok, Some e), q')
            /\ ts = tasks q /\ List.length ts = k)
  end.
Proof.
  unfold parseDocument, Parse.
  pose proof (NewParser_tasks r heading) as T0.
  destruct (NewParser r heading) as [p [e0|]]; simpl in *.
  { intro H; injection H as <- <-. left. auto. }
  destruct (parseLoop fuel fuel p) as [[e pf]|] eqn:E; [|discriminate].
  intro H; injection H as <- <-. destruct e as [e|].
  - right. destruct (parseLoop_error _ _ _ _ _ E) as (k & q & ok & A & T).
    exists p, k, q, ok, pf. repeat split; auto.
    + eapply parseTask_error_tasks, T.
    + rewrite (parseTask_error_tasks _ _ _ _ _ T).
      destruct (afterTasks_tasks _ _ _ _ A) as (done & -> & L & _).
      now rewrite T0.
  - destruct (parseLoop_success _ _ _ _ E) as (k & q & A & T).
    exists p, k, q, pf. auto.
Qed.

Lemma C2_error_returns_completed_tasks_witness :
  (snd (NewParser (NewScanner docSecondTaskEmpty) "Tasks")
   = Some (ErrNoCommands "b")
   /\ [mkTask "a" [] EmptyString [] EmptyString ["x"] []] = [])
  \/ (exists p k q ok q',
        NewParser (NewScanner docSecondTaskEmpty) "Tasks" = (p, None)
        /\ afterTasks k 2 p = Some q
        /\ parseTask 2 q = Some ((ok, Some (ErrNoCommands "b")), q')
        /\ [mkTask "a" [] EmptyString [] EmptyString ["x"] []] = tasks q
        /\ List.length [mkTask "a" [] EmptyString [] EmptyString ["x"] []] = k).
Proof.
  apply (C2_error_returns_completed_tasks 2 (NewScanner docSecondTaskEmpty)
           "Tasks" [mkTask "a" [] EmptyString [] EmptyString ["x"] []]
           (Some (ErrNoCommands "b"))).
  vm_compute. reflexivity.
Defined.

(** ** The invariant of finished tasks *)

(** C3, as the claim states it, fails for the name: a heading whose text
    consists of trimmed characters only opens a task with the empty name,
    which is validated and returned like any other. *)
Lemma C3_empty_name_counterexample :
  exists t,
    parseDocument 2 (NewScanner docNamelessTask) "Tasks" = Some ([t], None)
    /\ Name t = EmptyString.
Proof. eexists. split; vm_compute; reflexivity. Qed.

(** C3, amended. Every task of a returned list has a non-empty [Script]
    or a non-empty [DependsOn] (its [Name] may be empty); and a task that
    has neither when its body ends is not dropped: [parseTask] does not
    append it but fails with the validation error naming it, and [Parse]
    returns that error, whatever follows in the document. *)
Theorem C3_returned_tasks_have_work :
  (forall fuel r heading ts err,
      parseDocument fuel r heading = Some (ts, err) -> Forall hasWork ts)
  /\ (forall fuel k ps p heading p1 ok q,
        afterTasks k fuel ps = Some p ->
        k < fuel ->
        findTaskHeading (set_currTask emptyTask p) = ((heading, false, None), p1) ->
        parseTaskBody fuel (bodyStart heading p1) = Some ((ok, None), q) ->
        ~ hasWork (currTask q) ->
        parseTask fuel p = Some ((ok, Some (ErrNoCommands heading)), q)
        /\ Parse fuel ps = Some (tasks p, Some (ErrNoCommands heading))).
Proof.
  split.
  - intros fuel r heading ts err. unfold parseDocument, Parse.
    pose proof (NewParser_tasks r heading) as T0.
    destruct (NewParser r heading) as [p [e0|]]; simpl in *.
    { intro H; injection H as <- <-. constructor. }
    destruct (parseLoop fuel fuel p) as [[e pf]|] eqn:E; [|discriminate].
    intro H; injection H as <- <-.
    destruct (parseLoop_tasks _ _ _ _ _ E) as (done & -> & F).
    now rewrite T0.
  - intros fuel k ps p heading p1 ok q A Lk F B W.
    assert (parseTask fuel p = Some ((ok, Some (ErrNoCommands heading)), q)) as T.
    { unfold parseTask. rewrite F. unfold bodyStart in B. rewrite B.
      destruct (_ && _) eqn:V.
      - apply bodyKeeps_parseTaskBody in B. destruct B as (_ & _ & N & _).
        simpl in N. now rewrite N.
      - apply validation_hasWork in V. contradiction. }
    split; [exact T|]. exact (Parse_aborts_at_task _ _ _ _ _ _ _ A T Lk).
Qed.

Lemma C3_returned_tasks_have_work_witness :
  Forall hasWork [taskBuild [EmptyString]]
  /\ exists p,
       Parse 2 (fst (NewParser (NewScanner docSecondTaskEmpty) "Tasks"))
       = Some (tasks p, Some (ErrNoCommands "b")).
Proof.
  split.
  - apply (proj1 C3_returned_tasks_have_work 3 (NewScanner docBuild) "Tasks"
             [taskBuild [EmptyString]] None).
    vm_compute. reflexivity.
  - eexists.
    eapply (proj2 C3_returned_tasks_have_work 2 1 _ _ "b" _ false).
    + vm_compute. reflexivity.
    + lia.
    + vm_compute. reflexivity.
    + vm_compute. reflexivity.
    + vm_compute. intros [H|H]; apply H; reflexivity.
Defined.

(** ** The end of the input during the search for a task heading *)

(** At the end of the input, on a line that is no heading,
    [findTaskHeading] returns the read-failure error around whatever the
    scanner reports, be it a failure or none. *)
Lemma findTaskHeading_at_end (p : parser) :
  reachedEnd p = true ->
  fst (fst (fst (parseHeading false p))) = false ->
  findTaskHeading p
  = ((EmptyString, false, Some (ErrReadFile (Err (scanner p)))), p).
Proof.
  intros End No. unfold findTaskHeading, budget. rewrite End.
  cbn [findTaskHeadingLoop]. rewrite parseHeading_advance, No.
  destruct (fst (parseHeading false p)) as [[tok level] text].
  simpl in No. subst tok. cbn [negb orb]. now rewrite (scan_at_end _ End).
Qed.

(** A marker heading deeper than a task heading costs the search two
    steps: [parseHeading] moves the cursor to the next line, the [scan] of
    the skip moves it on, and the search goes on from the line after. *)
Lemma findTaskHeading_skips_line_after_deep_heading
  (n : nat) (p : parser) (level : Z) (text : string) :
  fst (parseHeading false p) = (true, level, text) ->
  (rootHeadingLevel p + 1 < level)%Z ->
  isRule (nextLine p) = false ->
  findTaskHeadingLoop (S n) p
  = let q := snd (scan (snd (scan p))) in
    if fst (scan (snd (scan p))) then findTaskHeadingLoop n q
    else ((EmptyString, false, Some (ErrReadFile (Err (scanner q)))), q).
Proof.
  intros H Deep NoRule. cbn [findTaskHeadingLoop].
  rewrite parseHeading_advance, H, NoRule. cbn [fst negb orb].
  destruct (scan_kept p) as (_ & _ & ->).
  apply Z.ltb_lt in Deep. rewrite Deep.
  destruct (scan (snd (scan p))) as [more q]. destruct more; reflexivity.
Qed.

(** ** Read failures *)

(** C4. In the document ["# Tasks\nhello\n"] the section holds no task
    heading. The input ends normally (the scanner reports no failure),
    and [Parse] nevertheless returns the wrapped read-failure error, with
    no cause inside: [findTaskHeading] builds it whenever [scan] answers
    [false], which it does at every end of input. *)
Theorem C4_read_failure_at_normal_end :
  Err (NewScanner docNoTasks) = None
  /\ failure (NewScanner docNoTasks) = None
  /\ (forall k, parseDocument (1 + k) (NewScanner docNoTasks) "Tasks"
                = Some ([], Some (ErrReadFile None)))
  /\ Error (ErrReadFile None) = "failed to read file: %!w(<nil>)".
Proof.
  split; [reflexivity|]. split; [reflexivity|]. split; [run_with 1|reflexivity].
Qed.

(** ** Skipping during the search for a task heading *)

(** C7. In ["# Tasks\n### deep\n## build\nreq: x\n\n"] the heading
    [### deep] lies deeper than a task heading. [findTaskHeading] has
    [parseHeading] consume it and then calls [scan] once more, so the
    cursor passes over [## build] without looking at it: no task is
    opened and the run ends in the read-failure error. With the plain
    line [deep] in the place of the heading, one step is taken and
    [build] is found. *)
Theorem C7_line_after_deep_heading_skipped :
  (forall k, parseDocument (1 + k) (NewScanner docDeepHeadingFirst) "Tasks"
             = Some ([], Some (ErrReadFile None)))
  /\ (forall k, parseDocument (2 + k) (NewScanner docPlainLineFirst) "Tasks"
                = Some ([mkTask "build" [] EmptyString [] EmptyString ["x"] []],
                        None)).
Proof. split; [run_with 1|run_with 2]. Qed.

(** ** Errors inside a task body abort the run *)

Lemma bodyRounds_app (m n : nat) (p q r : parser) :
  bodyRounds m p = Some q -> bodyRounds n q = Some r ->
  bodyRounds (m + n) p = Some r.
Proof.
  revert p. induction m as [|m IH]; simpl; intros p H1 H2.
  - now injection H1 as ->.
  - destruct (taskBodyRound p) as [p1|? ?]; [|discriminate]. now apply IH.
Qed.

(** After [k] complete tasks, a task heading and [m] rounds of the body,
    a round that returns an error makes [Parse] return that error,
    with the tasks completed before. *)
Lemma Parse_aborts_in_body
  (fuel k m : nat) (ps p0 p1 q q' : parser) (heading : string)
  (ok : bool) (e : error) :
  afterTasks k fuel ps = Some p0 ->
  findTaskHeading (set_currTask emptyTask p0) = ((heading, false, None), p1) ->
  bodyRounds m (bodyStart heading p1) = Some q ->
  taskBodyRound q = Return (ok, Some e) q' ->
  k < fuel -> m < fuel ->
  Parse fuel ps = Some (tasks p0, Some e).
Proof.
  intros A F R E Lk Lm.
  assert (parseTaskBody fuel (bodyStart heading p1) = Some ((ok, Some e), q')) as B.
  { replace fuel with (m + S (fuel - S m)) by lia.
    rewrite (parseTaskBody_rounds _ _ _ _ R). simpl. now rewrite E. }
  apply (Parse_aborts_at_task fuel k ps p0 q' ok e A); [|exact Lk].
  unfold parseTask. rewrite F. unfold bodyStart in B. now rewrite B.
Qed.

(** ** A second directory *)

Lemma taskBodyRound_dir_line (p : parser) :
  isDirLine (currentLine p) = true ->
  taskBodyRound p =
  if negb (String.eqb (Dir (currTask p)) EmptyString)
  then Return (false, Some (ErrDirectoryTwice (Name (currTask p)))) p
  else Continue
         (snd (scan (set_currTask
                       (set_Dir (strings.Trim (attributeValue (currentLine p))
                                              trimValues) (currTask p)) p))).
Proof.
  unfold isDirLine, taskBodyRound. rewrite parseAttribute_cases.
  destruct (attributeOf (currentLine p)) as [[| | |]|]; try discriminate.
  intros _. cbn [appendValues]. destruct (negb _); reflexivity.
Qed.

(** C5, as the claim states it, fails: when the first [dir:] line has an
    empty value, the directory stays empty, the second [dir:] line is
    taken for the first assignment, and the run succeeds. *)
Lemma C5_empty_first_directory_counterexample :
  exists t,
    parseDocument 4 (NewScanner docEmptyDirFirst) "Tasks" = Some ([t], None)
    /\ Dir t = "x".
Proof. eexists. split; vm_compute; reflexivity. Qed.

(** C5, amended. In a task body, after a recognised [dir:]/[directory:]
    line whose value, trimmed, is not empty, every later recognised
    [dir:]/[directory:] line that the body loop comes to (whatever its
    value, the same one included) aborts the whole parse: [Parse] returns
    the duplicate-directory error naming the task. *)
Theorem C5_second_directory_rejected
  (fuel k m n : nat) (ps p0 p1 p q : parser) (heading : string) :
  afterTasks k fuel ps = Some p0 ->
  findTaskHeading (set_currTask emptyTask p0) = ((heading, false, None), p1) ->
  bodyRounds m (bodyStart heading p1) = Some p ->
  isDirLine (currentLine p) = true ->
  strings.Trim (attributeValue (currentLine p)) trimValues <> EmptyString ->
  bodyRounds (S n) p = Some q ->
  isDirLine (currentLine q) = true ->
  k < fuel -> m + S n < fuel ->
  Parse fuel ps = Some (tasks p0, Some (ErrDirectoryTwice heading)).
Proof.
  intros A F R1 D1 V R2 D2 Lk Lm.
  pose proof (bodyKeeps_bodyRounds _ _ _ R1) as (_ & _ & N1 & _).
  pose proof (bodyRounds_app _ _ _ _ _ R1 R2) as R.
  simpl in R2. rewrite (taskBodyRound_dir_line _ D1) in R2.
  destruct (negb _); [discriminate|].
  apply bodyKeeps_bodyRounds in R2. destruct R2 as (_ & _ & N2 & K & _).
  destruct (scan_kept (set_currTask
              (set_Dir (strings.Trim (attributeValue (currentLine p)) trimValues)
                       (currTask p)) p)) as (_ & C & _).
  rewrite C in N2, K. simpl in N2, K. specialize (K V).
  eapply Parse_aborts_in_body with (m := m + S n) (q := q); eauto.
  rewrite (taskBodyRound_dir_line _ D2).
  replace (Dir (currTask q) =? EmptyString)%string with false.
  - simpl. now rewrite N2, N1.
  - symmetry. apply String.eqb_neq. now rewrite K.
Qed.

Lemma C5_second_directory_rejected_witness :
  Parse 3 (fst (NewParser (NewScanner docDirTwice) "Tasks"))
  = Some (tasks (fst (NewParser (NewScanner docDirTwice) "Tasks")),
          Some (ErrDirectoryTwice "build")).
Proof.
  eapply (C5_second_directory_rejected 3 0 0 1).
  - reflexivity.
  - vm_compute. reflexivity.
  - reflexivity.
  - vm_compute. reflexivity.
  - vm_compute. discriminate.
  - vm_compute. reflexivity.
  - vm_compute. reflexivity.
  - lia.
  - lia.
Defined.

(** ** A second code block *)

Lemma taskBodyRound_second_fence (p : parser) :
  attributeOf (currentLine p) = None ->
  isFence (currentLine p) = true ->
  Script (currTask p) <> EmptyString ->
  taskBodyRound p = Return (false, Some (ErrBlockExists (Name (currTask p)))) p.
Proof.
  intros A Fe S. unfold taskBodyRound. rewrite parseAttribute_cases, A.
  unfold parseCodeBlock. rewrite Fe. cbn [negb].
  destruct (0 <? len (Script (currTask p)))%Z eqn:E; [reflexivity|].
  apply len_pos in E. contradiction.
Qed.

(** C6, as the claim states it, fails: a first fenced block with no
    non-blank line leaves the script empty, and a second fenced block in
    the same task is then parsed without error. *)
Lemma C6_empty_first_block_counterexample :
  exists t,
    parseDocument 2 (NewScanner docEmptyBlockFirst) "Tasks" = Some ([t], None)
    /\ Script t = lines ["echo"].
Proof. eexists. split; vm_compute; reflexivity. Qed.

(** C6, amended. In a task body, after a round that parsed a fenced block
    and left the task's [Script] non-empty (the block held a non-blank
    line), every later line opening a fenced block that the body loop
    comes to (a line starting with the fence that is not taken for an
    attribute) aborts the whole parse: [Parse] returns the
    duplicate-code-block error naming the task. *)
Theorem C6_second_code_block_rejected
  (fuel k m n : nat) (ps p0 p1 p p' q : parser) (heading : string) :
  afterTasks k fuel ps = Some p0 ->
  findTaskHeading (set_currTask emptyTask p0) = ((heading, false, None), p1) ->
  bodyRounds m (bodyStart heading p1) = Some p ->
  attributeOf (currentLine p) = None ->
  isFence (currentLine p) = true ->
  taskBodyRound p = Continue p' ->
  Script (currTask p') <> EmptyString ->
  bodyRounds n p' = Some q ->
  attributeOf (currentLine q) = None ->
  isFence (currentLine q) = true ->
  k < fuel -> m + S n < fuel ->
  Parse fuel ps = Some (tasks p0, Some (ErrBlockExists heading)).
Proof.
  intros A F R1 _ _ E HS R2 Aq Fq Lk Lm.
  assert (bodyRounds (S n) p = Some q) as R2' by (simpl; now rewrite E).
  pose proof (bodyRounds_app _ _ _ _ _ R1 R2') as R.
  pose proof (bodyKeeps_bodyRounds _ _ _ R) as (_ & _ & N & _).
  pose proof (bodyKeeps_bodyRounds _ _ _ R2) as (_ & _ & _ & _ & K).
  specialize (K HS).
  eapply Parse_aborts_in_body with (m := m + S n) (q := q); eauto.
  rewrite (taskBodyRound_second_fence q Aq Fq) by (now rewrite K).
  now rewrite N.
Qed.

Lemma C6_second_code_block_rejected_witness :
  Parse 3 (fst (NewParser (NewScanner docBlockTwice) "Tasks"))
  = Some (tasks (fst (NewParser (NewScanner docBlockTwice) "Tasks")),
          Some (ErrBlockExists "build")).
Proof.
  eapply (C6_second_code_block_rejected 3 0 0 0).
  - reflexivity.
  - vm_compute. reflexivity.
  - reflexivity.
  - vm_compute. reflexivity.
  - vm_compute. reflexivity.
  - vm_compute. reflexivity.
  - vm_compute. discriminate.
  - vm_compute. reflexivity.
  - vm_compute. reflexivity.
  - vm_compute. reflexivity.
  - lia.
  - lia.
Defined.

(** ** The script of a fenced block *)

Lemma append_empty_r (s : string) : (s ++ EmptyString)%string = s.
Proof. induction s as [|c s IH]; simpl; [reflexivity|now rewrite IH]. Qed.

Lemma append_assoc (s t u : string) :
  ((s ++ t) ++ u)%string = (s ++ t ++ u)%string.
Proof. induction s as [|c s IH]; simpl; [reflexivity|now rewrite IH]. Qed.

Lemma scriptOf_cons (l : string) (body : list string) :
  scriptOf (l :: body)
  = if isBlank l then scriptOf body
    else (l ++ newline ++ scriptOf body)%string.
Proof. unfold scriptOf. simpl. destruct (isBlank l); reflexivity. Qed.

(** A loop of [parseCodeBlock] that ended at a fence went through the
    lines before that fence and collected the non-blank ones. *)
Lemma codeBlockLoop_ended (n : nat) (p q : parser) :
  codeBlockLoop n p = (true, q) ->
  reachedEnd p = false
  /\ exists body closing rest,
       nextLine p :: pending (scanner p) = body ++ closing :: rest
       /\ Forall (fun l => isFence l = false) body
       /\ isFence closing = true
       /\ Script (currTask q) = (Script (currTask p) ++ scriptOf body)%string.
Proof.
  revert p. induction n as [|n IH]; intros p H; simpl in H; [discriminate|].
  destruct (reachedEnd p) eqn:End.
  { rewrite (scan_at_end _ End) in H. discriminate. }
  split; [reflexivity|].
  destruct (scan_advances _ End) as (M & Cur & Pend).
  destruct (scan_kept p) as (_ & CT & _).
  destruct (scan p) as [more p1]; simpl in *. subst more. simpl in H.
  destruct (isFence (currentLine p1)) eqn:Fe.
  - injection H as <-. exists [], (nextLine p), (pending (scanner p)).
    rewrite <- Cur, CT. unfold scriptOf. simpl. rewrite append_empty_r. auto.
  - match type of H with
    | (if ?b then codeBlockLoop n _ else _) = _ =>
        assert (exists p2', codeBlockLoop n p2' = (true, q)
                  /\ nextLine p2' = nextLine p1
                  /\ scanner p2' = scanner p1
                  /\ reachedEnd p2' = reachedEnd p1
                  /\ Script (currTask p2')
                     = (Script (currTask p)
                        ++ (if b then currentLine p1 ++ newline
                            else EmptyString))%string)
          as (p2 & L & N2 & S2 & E2 & Sc)
    end.
    { destruct (negb _); eexists; (split; [exact H|]); simpl;
        repeat split; rewrite ?CT, ?append_empty_r; reflexivity. }
    destruct (IH _ L) as (End2 & body & closing & rest & D & F & Fc & Scq).
    rewrite E2 in End2. specialize (Pend End2).
    exists (nextLine p :: body), closing, rest.
    rewrite Pend. simpl. rewrite <- N2, <- S2, D.
    repeat split; auto.
    + constructor; [now rewrite <- Cur|exact F].
    + rewrite Scq, Sc, scriptOf_cons, append_assoc, <- Cur. unfold isBlank.
      destruct (String.eqb _ _); simpl; [reflexivity|].
      now rewrite append_assoc.
Qed.

Lemma lines_eachFollowedBy (ls : list string) :
  lines ls = eachFollowedBy "010" ls.
Proof. induction ls as [|l ls IH]; simpl; [reflexivity|]. now rewrite IH. Qed.

(** C8. Whenever [parseCodeBlock] captures a fenced block (the current
    line opens it and no error is returned), the lines after the opening
    fence are the lines [body] of the block, none of them a fence,
    followed by the closing fence, and the task's [Script] is made of the
    non-blank lines of [body], verbatim and in their order, each followed
    by a line feed (the byte 10); the blank lines, those that
    [strings.TrimSpace] empties, are left out. *)
Theorem C8_script_is_nonblank_lines (p q : parser) :
  isFence (currentLine p) = true ->
  parseCodeBlock p = (None, q) ->
  exists body closing rest,
    nextLine p :: pending (scanner p) = body ++ closing :: rest
    /\ Forall (fun l => isFence l = false) body
    /\ isFence closing = true
    /\ Script (currTask q)
       = eachFollowedBy "010" (filter (fun l => negb (isBlank l)) body).
Proof.
  intros Fe. unfold parseCodeBlock. rewrite Fe. cbn [negb].
  destruct (0 <? len (Script (currTask p)))%Z eqn:E; [discriminate|].
  apply len_pos in E.
  destruct (codeBlockLoop (S (budget p)) p) as [ended p1] eqn:L.
  destruct ended; simpl; [|discriminate].
  intro H; injection H as <-.
  destruct (codeBlockLoop_ended _ _ _ L) as
    (_ & body & closing & rest & D & F & Fc & Sc).
  exists body, closing, rest. destruct (scan_kept p1) as (_ & -> & _).
  rewrite Sc, E. unfold scriptOf. rewrite lines_eachFollowedBy. auto.
Qed.

Lemma C8_script_is_nonblank_lines_witness :
  exists body closing rest,
    ["make"; "  "; "make test"; EmptyString; "  make install"; "```"; "after"]
    = body ++ closing :: rest
    /\ Forall (fun l => isFence l = false) body
    /\ isFence closing = true
    /\ eachFollowedBy "010" ["make"; "make test"; "  make install"]
       = eachFollowedBy "010" (filter (fun l => negb (isBlank l)) body).
Proof.
  apply (C8_script_is_nonblank_lines atFiveLineBlock
           (snd (parseCodeBlock atFiveLineBlock))).
  - vm_compute. reflexivity.
  - vm_compute. reflexivity.
Defined.

(** ** The values of a list attribute *)

Lemma Split_not_nil (s : string) (sep : ascii) : strings.Split s sep <> [].
Proof.
  destruct s as [|c s]; simpl; [discriminate|].
  destruct (Ascii.eqb c sep); [discriminate|].
  destruct (strings.Split s sep); discriminate.
Qed.

(** One token more than there are separators. *)
Lemma Split_length (s : string) (sep : ascii) :
  List.length (strings.Split s sep) = S (strings.Count s sep).
Proof.
  induction s as [|c s IH]; simpl; [reflexivity|].
  destruct (Ascii.eqb c sep); simpl; [now rewrite IH|].
  destruct (strings.Split s sep); simpl in *; [discriminate|exact IH].
Qed.

(** The tokens, joined by the separator again, are the string. *)
Lemma Split_Join (s : string) (sep : ascii) :
  strings.Join (strings.Split s sep) (String sep EmptyString) = s.
Proof.
  unfold strings.Join. induction s as [|c s IH]; simpl; [reflexivity|].
  pose proof (Split_not_nil s sep) as NN.
  destruct (Ascii.eqb c sep) eqn:E.
  - apply Ascii.eqb_eq in E. subst c.
    destruct (strings.Split s sep) as [|t ts]; [contradiction|].
    simpl in *. now rewrite IH.
  - destruct (strings.Split s sep) as [|t ts]; [contradiction|].
    simpl in *. destruct ts; simpl in *; now rewrite <- IH.
Qed.

(** No token holds a separator. *)
Lemma Split_tokens (s : string) (sep : ascii) :
  Forall (fun t => strings.Count t sep = 0) (strings.Split s sep).
Proof.
  induction s as [|c s IH]; simpl; [now constructor|].
  destruct (Ascii.eqb c sep) eqn:E; [now constructor|].
  destruct (strings.Split s sep) as [|t ts]; [now constructor; simpl; rewrite ?E|].
  inversion IH; subst. constructor; [simpl; now rewrite E|assumption].
Qed.

(** C10. On a line recognised as a list-valued attribute ([req],
    [requires], [env], [environment], [inputs]), [parseAttribute]
    succeeds and appends to the attribute's list field one entry per
    comma-separated token of the right-hand side, in order, each token
    trimmed: as many entries as there are commas plus one, where the
    tokens are the comma-free pieces between the commas (joined by commas
    they give the right-hand side back).  No token is dropped: where a token is
    empty (between two commas, before the first, after the last, or the
    whole right-hand side) the entry at its place is the empty string. *)
Theorem C10_empty_tokens_are_kept (p : parser) (ty : AttributeType) :
  attributeOf (currentLine p) = Some ty ->
  ty <> AttributeTypeDir ->
  let rest := attributeValue (currentLine p) in
  let tokens := strings.Split rest "," in
  let q := snd (parseAttribute p) in
  fst (parseAttribute p) = (true, None)
  /\ listField ty (currTask q)
     = listField ty (currTask p)
       ++ map (fun v => strings.Trim v trimValues) tokens
  /\ List.length tokens = S (strings.Count rest ",")
  /\ strings.Join tokens "," = rest
  /\ Forall (fun token => strings.Count token "," = 0) tokens
  /\ (forall i, nth_error tokens i = Some EmptyString ->
                nth_error (listField ty (currTask q))
                          (List.length (listField ty (currTask p)) + i)
                = Some EmptyString).
Proof.
  intros A NotDir rest tokens q.
  assert (fst (parseAttribute p) = (true, None)
          /\ listField ty (currTask q)
             = listField ty (currTask p)
               ++ map (fun v => strings.Trim v trimValues) tokens) as [Ok App].
  { subst q. rewrite parseAttribute_cases, A.
    destruct ty; try contradiction; cbn [fst snd];
      (split; [reflexivity|]);
      match goal with |- context [scan ?x] =>
        destruct (scan_kept x) as (_ & -> & _) end;
      reflexivity. }
  repeat split; auto.
  - apply Split_length.
  - apply (Split_Join rest ",").
  - apply Split_tokens.
  - intros i Hi. rewrite App, nth_error_app2 by lia.
    replace (_ + i - _) with i by lia.
    rewrite nth_error_map, Hi. reflexivity.
Qed.

Lemma C10_empty_tokens_are_kept_witness :
  fst (parseAttribute atReqLine) = (true, None)
  /\ DependsOn (currTask (snd (parseAttribute atReqLine)))
     = [] ++ map (fun v => strings.Trim v trimValues) ["a"; EmptyString; "b"]
  /\ 3 = S (strings.Count " a,,b" ",")
  /\ strings.Join [" a"; EmptyString; "b"] "," = " a,,b"
  /\ Forall (fun token => strings.Count token "," = 0) [" a"; EmptyString; "b"]
  /\ (forall i, nth_error [" a"; EmptyString; "b"] i = Some EmptyString ->
                nth_error (DependsOn (currTask (snd (parseAttribute atReqLine))))
                          (0 + i)
                = Some EmptyString).
Proof.
  apply (C10_empty_tokens_are_kept atReqLine AttributeTypeReq).
  - vm_compute. reflexivity.
  - discriminate.
Defined.

(** ** Marker headings and underline headings *)

Lemma parseAltHeading_no_rule (advance : bool) (p : parser) :
  isRule (nextLine p) = false ->
  parseAltHeading advance p = ((false, 0%Z, EmptyString), p).
Proof.
  unfold isRule, parseAltHeading. intro H. apply orb_false_iff in H.
  destruct H as [-> ->]. cbn [fst negb]. now rewrite orb_true_r.
Qed.

Lemma allBytes_dash_not_equals (s : string) :
  stringOnlyContains s "-" = true -> stringOnlyContains s "=" = false.
Proof.
  unfold stringOnlyContains. destruct s as [|c s]; [discriminate|].
  destruct (len (String c s) =? 0)%Z; [discriminate|]. simpl.
  destruct (Ascii.eqb c "-") eqn:E; [|discriminate].
  apply Ascii.eqb_eq in E. subst c. reflexivity.
Qed.

Lemma parseAltHeading_dash_rule (advance : bool) (p : parser) :
  stringOnlyContains (strings.TrimSpace (nextLine p)) "-" = true ->
  parseAltHeading advance p
  = ((true, 2%Z, strings.TrimSpace (currentLine p)),
     if advance then snd (scan (snd (scan p))) else p).
Proof.
  unfold parseAltHeading. intro H.
  rewrite (allBytes_dash_not_equals _ H), H. cbn [fst negb].
  destruct advance; reflexivity.
Qed.

Lemma parseHeading_marker
  (advance : bool) (rest : list string) (fail : option string) (ts : Tasks)
  (t : Task) (x : string) :
  isRule x = false ->
  parseHeading advance (atMarkerHeading rest fail ts t x)
  = ((true, 2%Z, "build"),
     if advance then snd (scan (atMarkerHeading rest fail ts t x))
     else atMarkerHeading rest fail ts t x).
Proof.
  intro H. unfold parseHeading.
  rewrite (parseAltHeading_no_rule advance (atMarkerHeading rest fail ts t x) H).
  destruct advance; reflexivity.
Qed.

Lemma parseHeading_underline
  (advance : bool) (rest : list string) (fail : option string) (ts : Tasks)
  (t : Task) (rule x : string) :
  stringOnlyContains (strings.TrimSpace rule) "-" = true ->
  parseHeading advance (atUnderlineHeading rest fail ts t rule x)
  = ((true, 2%Z, "build"),
     if advance
     then snd (scan (snd (scan (atUnderlineHeading rest fail ts t rule x))))
     else atUnderlineHeading rest fail ts t rule x).
Proof.
  intro H. unfold parseHeading.
  rewrite (parseAltHeading_dash_rule advance
             (atUnderlineHeading rest fail ts t rule x) H).
  reflexivity.
Qed.

(** Past the heading the two parsers are one and the same. *)
Lemma after_heading_same
  (rest : list string) (fail : option string) (ts : Tasks) (t : Task)
  (rule x : string) :
  snd (scan (snd (scan (atUnderlineHeading rest fail ts t rule x))))
  = snd (scan (atMarkerHeading rest fail ts t x)).
Proof. destruct rest; reflexivity. Qed.

(** C9, as the claim states it, fails: when the line after the heading is
    itself a run of [-], the marker line [## build] is read as the text
    of an underline heading and the task is named [## build], while under
    the underline heading the run becomes a description line of the task
    [build]. *)
Lemma C9_rule_after_heading_counterexample :
  exists tA tB,
    parseDocument 3 (NewScanner docMarkerThenRule) "Tasks" = Some ([tA], None)
    /\ parseDocument 3 (NewScanner docUnderlineThenRule) "Tasks"
       = Some ([tB], None)
    /\ tA <> tB.
Proof.
  eexists _, _. split; [vm_compute; reflexivity|].
  split; [vm_compute; reflexivity|]. discriminate.
Qed.

(** With the cursor on the heading and no rule after it, the two forms
    of the heading are read alike and leave the same parser behind. *)
Lemma headings_agree_at_cursor
  (rest : list string) (fail : option string) (ts : Tasks) (t : Task)
  (rule x : string) :
  stringOnlyContains (strings.TrimSpace rule) "-" = true ->
  isRule x = false ->
  let A := atMarkerHeading rest fail ts t x in
  let B := atUnderlineHeading rest fail ts t rule x in
  parseHeading false A = ((true, 2%Z, "build"), A)
  /\ parseHeading false B = ((true, 2%Z, "build"), B)
  /\ taskBodyRound A = Return (true, None) A
  /\ taskBodyRound B = Return (true, None) B
  /\ fst (findTaskHeading A) = ("build", false, None)
  /\ findTaskHeading A = findTaskHeading B
  /\ (forall fuel, parseTask fuel A = parseTask fuel B)
  /\ (forall fuel, Parse fuel A = Parse fuel B).
Proof.
  intros Hrule Hx A B.
  assert (forall t', findTaskHeading (atMarkerHeading rest fail ts t' x)
                     = (("build", false, None),
                        snd (scan (atMarkerHeading rest fail ts t' x)))) as FA.
  { intro t'. unfold findTaskHeading. cbn [findTaskHeadingLoop budget reachedEnd
      atMarkerHeading]. fold (atMarkerHeading rest fail ts t' x).
    rewrite (parseHeading_marker true _ _ _ _ _ Hx).
    destruct (scan_kept (atMarkerHeading rest fail ts t' x)) as (_ & _ & ->).
    reflexivity. }
  assert (forall t', findTaskHeading (atUnderlineHeading rest fail ts t' rule x)
                     = findTaskHeading (atMarkerHeading rest fail ts t' x)) as FB.
  { intro t'. rewrite FA. unfold findTaskHeading.
    cbn [findTaskHeadingLoop budget reachedEnd atUnderlineHeading].
    fold (atUnderlineHeading rest fail ts t' rule x).
    rewrite (parseHeading_underline true _ _ _ _ _ _ Hrule), after_heading_same.
    destruct (scan_kept (atMarkerHeading rest fail ts t' x)) as (_ & _ & ->).
    reflexivity. }
  assert (forall fuel, parseTask fuel A = parseTask fuel B) as PT.
  { intro fuel. unfold parseTask, A, B.
    change (set_currTask emptyTask (atMarkerHeading rest fail ts t x))
      with (atMarkerHeading rest fail ts emptyTask x).
    change (set_currTask emptyTask (atUnderlineHeading rest fail ts t rule x))
      with (atUnderlineHeading rest fail ts emptyTask rule x).
    now rewrite FB. }
  split; [apply (parseHeading_marker false), Hx|].
  split; [apply (parseHeading_underline false), Hrule|].
  split.
  { unfold taskBodyRound.
    change (parseAttribute A) with ((false, @None error), A).
    cbv beta iota.
    change (parseCodeBlock A) with (@None error, A).
    cbv beta iota. unfold A. now rewrite (parseHeading_marker false _ _ _ _ _ Hx). }
  split.
  { unfold taskBodyRound.
    change (parseAttribute B) with ((false, @None error), B).
    cbv beta iota.
    change (parseCodeBlock B) with (@None error, B).
    cbv beta iota. unfold B.
    now rewrite (parseHeading_underline false _ _ _ _ _ _ Hrule). }
  split; [unfold A; now rewrite FA|].
  split; [unfold A, B; now rewrite FB|].
  split; [exact PT|].
  intro fuel. unfold Parse.
  destruct fuel as [|n]; [reflexivity|]. cbn [parseLoop]. now rewrite PT.
Qed.

(** [NewParser] on the two documents stops with the cursor on the task
    heading. *)
Lemma NewParser_linesWithMarker
  (rest : list string) (fail : option string) (x : string) :
  NewParser (mkScanner (linesWithMarker x rest) fail) "Tasks"
  = (atMarkerHeading rest fail [] emptyTask x, None).
Proof. vm_compute. reflexivity. Qed.

Lemma NewParser_linesWithUnderline
  (rest : list string) (fail : option string) (rule x : string) :
  NewParser (mkScanner (linesWithUnderline rule x rest) fail) "Tasks"
  = (atUnderlineHeading rest fail [] emptyTask rule x, None).
Proof. vm_compute. reflexivity. Qed.

(** C9, amended. Let a line follow the task heading that is not a run of
    [-] or of [=] (after trimming white space). Then the marker heading
    [## build] and the underline heading [build] over a run of [-] are
    interchangeable. With the cursor on the heading: both are recognised
    as the level-2 heading [build], in peek mode without moving the
    cursor; the body of a preceding task ends at both the same way; and
    [findTaskHeading] returns the same name and leaves the same parser,
    so that [parseTask] and [Parse] give the same tasks and the same
    error from there on, with any fuel. And for the first task of a
    document under the root heading [# Tasks]: the two documents, equal
    but for the form of the heading, parse to the same result, whatever
    the lines after the heading are. *)
Theorem C9_marker_and_underline_heading_agree
  (rest : list string) (fail : option string) (ts : Tasks) (t : Task)
  (rule x : string) :
  stringOnlyContains (strings.TrimSpace rule) "-" = true ->
  isRule x = false ->
  let A := atMarkerHeading rest fail ts t x in
  let B := atUnderlineHeading rest fail ts t rule x in
  (parseHeading false A = ((true, 2%Z, "build"), A)
   /\ parseHeading false B = ((true, 2%Z, "build"), B)
   /\ taskBodyRound A = Return (true, None) A
   /\ taskBodyRound B = Return (true, None) B
   /\ fst (findTaskHeading A) = ("build", false, None)
   /\ findTaskHeading A = findTaskHeading B
   /\ (forall fuel, parseTask fuel A = parseTask fuel B)
   /\ (forall fuel, Parse fuel A = Parse fuel B))
  /\ (forall fuel,
        parseDocument fuel (mkScanner (linesWithMarker x rest) fail) "Tasks"
        = parseDocument fuel (mkScanner (linesWithUnderline rule x rest) fail)
                        "Tasks").
Proof.
  intros Hrule Hx A B. split.
  - apply headings_agree_at_cursor; assumption.
  - intro fuel. unfold parseDocument.
    rewrite NewParser_linesWithMarker, NewParser_linesWithUnderline.
    apply (headings_agree_at_cursor rest fail [] emptyTask rule x Hrule Hx).
Qed.

Lemma C9_marker_and_underline_heading_agree_witness :
  parseDocument 2 (mkScanner (linesWithMarker "req: x" [EmptyString]) None) "Tasks"
  = parseDocument 2
      (mkScanner (linesWithUnderline "--------" "req: x" [EmptyString]) None)
      "Tasks".
Proof.
  apply (C9_marker_and_underline_heading_agree
           [EmptyString] None [] emptyTask "--------" "req: x").
  - vm_compute. reflexivity.
  - vm_compute. reflexivity.
Defined.

(** * Further properties of the parser *)

(** ** The cursor walks the lines *)

Lemma scan_answer (p : parser) : fst (scan p) = negb (reachedEnd p).
Proof.
  unfold scan. destruct (reachedEnd p); [reflexivity|].
  simpl. destruct (Scan (scanner p)) as [[text sc]|]; reflexivity.
Qed.

Lemma budget_zero (p : parser) : budget p = 0 <-> reachedEnd p = true.
Proof. unfold budget. destruct (reachedEnd p); split; congruence. Qed.

Lemma budget_scans (k : nat) (p : parser) : budget (scans k p) = budget p - k.
Proof.
  revert p. induction k as [|k IH]; intro p; simpl; [lia|].
  rewrite IH. pose proof (scan_budget p) as B. rewrite scan_answer in B.
  destruct (reachedEnd p) eqn:E; simpl in B; [|lia].
  apply budget_zero in E. lia.
Qed.

Lemma scans_at_end (k : nat) (p : parser) : reachedEnd p = true -> scans k p = p.
Proof.
  induction k as [|k IH]; intro E; simpl; [reflexivity|].
  rewrite (scan_at_end _ E). simpl. exact (IH E).
Qed.

Lemma scans_add (j k : nat) (p : parser) : scans (j + k) p = scans k (scans j p).
Proof. revert p. induction j as [|j IH]; intro p; simpl; auto. Qed.

Lemma scan_more_pending (p : parser) :
  reachedEnd p = false -> pending (scanner p) <> [] ->
  reachedEnd (snd (scan p)) = false.
Proof.
  destruct p as [[pend fail] ts t root next cur e]. simpl. intros -> NN.
  unfold scan, Scan. simpl. destruct pend; [contradiction|reflexivity].
Qed.

Lemma scans_current (i : nat) (p : parser) (l : string) :
  reachedEnd p = false ->
  nth_error (nextLine p :: pending (scanner p)) i = Some l ->
  currentLine (scans (S i) p) = l.
Proof.
  revert p. induction i as [|i IH]; intros p E H.
  - simpl in *. injection H as <-. now destruct (scan_advances _ E) as (_ & -> & _).
  - change (scans (S (S i)) p) with (scans (S i) (snd (scan p))).
    simpl in H. assert (pending (scanner p) <> []) as NN.
    { intro Z. rewrite Z in H. destruct i; discriminate. }
    pose proof (scan_more_pending _ E NN) as E1.
    destruct (scan_advances _ E) as (_ & _ & P). specialize (P E1).
    apply IH; [exact E1|]. now rewrite <- P.
Qed.

(** X1. From a parser that has not reached the end, the lines still to
    come (the lookahead line, then the lines the scanner holds) become
    the current line one after the other, each after one more [scan];
    [scan] answers [true] once for each line the scanner holds and once
    more, for the last line, and [false] from then on, when further
    calls change nothing. *)
Theorem scan_walks_the_lines (p : parser) :
  reachedEnd p = false ->
  (forall i l, nth_error (nextLine p :: pending (scanner p)) i = Some l ->
               currentLine (scans (S i) p) = l)
  /\ (forall k, fst (scan (scans k p))
                = (k <=? List.length (pending (scanner p)))%nat)
  /\ (forall k, List.length (pending (scanner p)) < k ->
                scans k p = scans (S (List.length (pending (scanner p)))) p).
Proof.
  intro E. split; [intros i l; now apply scans_current|]. split.
  - intro k. rewrite scan_answer.
    pose proof (budget_scans k p) as B. unfold budget at 2 in B. rewrite E in B.
    destruct (reachedEnd (scans k p)) eqn:Ek.
    + apply budget_zero in Ek. simpl. symmetry. apply Nat.leb_gt. lia.
    + simpl. symmetry. apply Nat.leb_le.
      destruct (Nat.le_gt_cases k (List.length (pending (scanner p))));
        [assumption|].
      assert (budget (scans k p) = 0) as Z by lia.
      apply budget_zero in Z. congruence.
  - intros k L.
    replace k with (S (List.length (pending (scanner p)))
                    + (k - S (List.length (pending (scanner p))))) by lia.
    rewrite scans_add. apply scans_at_end, budget_zero.
    rewrite budget_scans. unfold budget. rewrite E. lia.
Qed.

Lemma scan_walks_the_lines_witness :
  (forall i l, nth_error [EmptyString; "# Tasks"; "## build"] i = Some l ->
               currentLine
                 (scans (S i) (newParserState (mkScanner ["# Tasks"; "## build"] None)))
               = l)
  /\ (forall k, fst (scan (scans k (newParserState
                                      (mkScanner ["# Tasks"; "## build"] None))))
                = (k <=? 2)%nat)
  /\ (forall k, 2 < k ->
                scans k (newParserState (mkScanner ["# Tasks"; "## build"] None))
                = scans 3 (newParserState (mkScanner ["# Tasks"; "## build"] None))).
Proof.
  apply (scan_walks_the_lines
           (newParserState (mkScanner ["# Tasks"; "## build"] None))).
  reflexivity.
Defined.

(** ** Runs of one character *)

(** X2. [stringOnlyContains] answers [true] exactly for the non-empty
    runs of the matcher: the empty string is refused, and so is every
    string with another byte in it. *)
Theorem stringOnlyContains_runs (input : string) (matcher : ascii) :
  stringOnlyContains input matcher = true
  <-> exists n, input = run (S n) matcher.
Proof.
  unfold stringOnlyContains, len.
  destruct input as [|c s]; simpl.
  { split; [discriminate|]. intros (n & H). discriminate. }
  assert (forall s, allBytes s matcher = true <-> exists n, s = run n matcher) as A.
  { clear. induction s as [|c s IH]; simpl.
    - split; [exists 0; reflexivity|reflexivity].
    - destruct (Ascii.eqb c matcher) eqn:E.
      + apply Ascii.eqb_eq in E. subst c. rewrite IH. split.
        * intros (n & ->). exists (S n). reflexivity.
        * intros ([|n] & H); [discriminate|]. injection H as ->. eauto.
      + split; [discriminate|]. intros ([|n] & H); [discriminate|].
        injection H as -> _. now rewrite Ascii.eqb_refl in E. }
  destruct (Ascii.eqb c matcher) eqn:E.
  - apply Ascii.eqb_eq in E. subst c. rewrite A. split.
    + intros (n & ->). exists n. reflexivity.
    + intros (n & H). injection H as ->. eauto.
  - split; [discriminate|]. intros (n & H). injection H as -> _.
    now rewrite Ascii.eqb_refl in E.
Qed.

Lemma stringOnlyContains_runs_witness :
  stringOnlyContains "----" "-" = true.
Proof.
  apply (proj2 (stringOnlyContains_runs "----" "-")).
  exists 3. reflexivity.
Defined.

(** ** Headings *)

Lemma parseAltHeading_equals_rule (advance : bool) (p : parser) :
  stringOnlyContains (strings.TrimSpace (nextLine p)) "=" = true ->
  parseAltHeading advance p
  = ((true, 1%Z, strings.TrimSpace (currentLine p)),
     if advance then snd (scan (snd (scan p))) else p).
Proof.
  unfold parseAltHeading. intros ->. cbn [fst negb].
  destruct advance; reflexivity.
Qed.

(** A recognised heading has a level of at least one. *)
Lemma parseHeading_level (advance : bool) (p : parser) (level : Z) (text : string) :
  fst (parseHeading advance p) = (true, level, text) -> (1 <= level)%Z.
Proof.
  unfold parseHeading, parseAltHeading.
  destruct (stringOnlyContains (strings.TrimSpace (nextLine p)) "-"),
           (stringOnlyContains (strings.TrimSpace (nextLine p)) "=");
    cbn [fst snd negb orb andb];
    try (destruct (negb advance || false); cbn [fst];
         intro H; injection H as <- _; lia).
  rewrite orb_true_r.
  destruct (strings.Fields _) as [|s0 [|s1 s]]; cbn [fst]; try discriminate.
  destruct (len s0 <? 1)%Z eqn:L; cbn [orb fst]; [discriminate|].
  destruct (negb _); cbn [fst]; [discriminate|].
  apply Z.ltb_ge in L. destruct (negb advance); cbn [fst];
    intro H; injection H as <- _; exact L.
Qed.

(** X4. The two modes of [parseHeading] recognise the same headings, with
    the same level (at least 1) and text. The peek mode leaves the parser
    as it is; the advancing mode moves the cursor past what was
    recognised and nothing else: two lines for an underline heading, one
    for a marker heading, none if the line is no heading. *)
Theorem parseHeading_modes_agree (p : parser) :
  snd (parseHeading false p) = p
  /\ fst (parseHeading true p) = fst (parseHeading false p)
  /\ snd (parseHeading true p)
     = (if fst (fst (fst (parseHeading false p)))
        then if isRule (nextLine p) then scans 2 p else scans 1 p
        else p)
  /\ (forall level text,
        fst (parseHeading false p) = (true, level, text) -> (1 <= level)%Z).
Proof.
  split; [apply parseHeading_peek|]. rewrite parseHeading_advance.
  repeat split. apply parseHeading_level.
Qed.

Lemma parseHeading_modes_agree_witness :
  fst (parseHeading false
         (mkParser (mkScanner [] None) [] emptyTask 1 "text" "### deep" false))
  = (true, 3%Z, "deep")
  /\ (1 <= 3)%Z.
Proof.
  split; [vm_compute; reflexivity|].
  refine (proj2 (proj2 (proj2 (parseHeading_modes_agree
            (mkParser (mkScanner [] None) [] emptyTask 1 "text" "### deep" false))))
            3%Z "deep" _).
  vm_compute. reflexivity.
Defined.

(** ** Attribute names *)

Lemma TrimLeftFunc_all (f : ascii -> bool) (d s : string) :
  allOf f d = true ->
  strings.TrimLeftFunc f (d ++ s) = strings.TrimLeftFunc f s.
Proof.
  induction d as [|c d IH]; simpl; [reflexivity|].
  intro H. apply andb_true_iff in H. destruct H as [-> H]. auto.
Qed.

Lemma TrimRightFunc_all (f : ascii -> bool) (d : string) :
  allOf f d = true -> strings.TrimRightFunc f d = EmptyString.
Proof.
  induction d as [|c d IH]; simpl; [reflexivity|].
  intro H. apply andb_true_iff in H. destruct H as [-> H]. now rewrite IH.
Qed.

Lemma TrimRightFunc_kept (f : ascii -> bool) (s d : string) :
  allOf (fun c => negb (f c)) s = true -> allOf f d = true ->
  strings.TrimRightFunc f (s ++ d) = s.
Proof.
  intros Hs Hd. induction s as [|c s IH]; simpl.
  - now apply TrimRightFunc_all.
  - simpl in Hs. apply andb_true_iff in Hs. destruct Hs as [Hc Hs].
    rewrite (IH Hs). apply negb_true_iff in Hc. rewrite Hc.
    destruct s; reflexivity.
Qed.

(** Trimming takes the decoration off both ends and leaves the rest. *)
Lemma TrimFunc_decorated (f : ascii -> bool) (d1 s d2 : string) :
  allOf f d1 = true -> allOf f d2 = true ->
  allOf (fun c => negb (f c)) s = true ->
  strings.TrimFunc f (d1 ++ s ++ d2) = s.
Proof.
  intros H1 H2 Hs. unfold strings.TrimFunc. rewrite (TrimLeftFunc_all _ _ _ H1).
  destruct s as [|c s].
  - simpl. replace (strings.TrimLeftFunc f d2) with EmptyString; [reflexivity|].
    clear -H2. induction d2 as [|c d IH]; simpl; [reflexivity|].
    simpl in H2. apply andb_true_iff in H2. destruct H2 as [-> H2]. auto.
  - pose proof Hs as Hs'. simpl in Hs'. apply andb_true_iff in Hs'.
    destruct Hs' as [Hc _]. apply negb_true_iff in Hc.
    change ((String c s ++ d2)%string) with (String c (s ++ d2)).
    cbn [strings.TrimLeftFunc]. rewrite Hc.
    change (String c (s ++ d2)) with ((String c s ++ d2)%string).
    now apply TrimRightFunc_kept.
Qed.

Lemma Cut_at_first_separator (a rest : string) (sep : ascii) :
  allOf (fun c => negb (Ascii.eqb c sep)) a = true ->
  strings.Cut (a ++ String sep rest) sep = (a, rest, true).
Proof.
  induction a as [|c a IH]; simpl.
  - intros _. now rewrite Ascii.eqb_refl.
  - intro H. apply andb_true_iff in H. destruct H as [Hc H].
    apply negb_true_iff in Hc. now rewrite Hc, (IH H).
Qed.

(** A byte that lower-cases to a letter is a letter: neither a character
    of the decoration nor the colon. *)
Lemma toLowerByte_letter (c : ascii) :
  isLower (strings.toLowerByte c) = true ->
  strings.ContainsByte trimValues c = false /\ Ascii.eqb c ":" = false.
Proof.
  destruct c as [[|] [|] [|] [|] [|] [|] [|] [|]]; vm_compute;
    intro H; try discriminate H; split; reflexivity.
Qed.

Lemma ToLower_letters_bounded (n : nat) (name : string) :
  (String.length name <= n)%nat ->
  allOf isLower (strings.ToLower name) = true ->
  allOf (fun c => negb (strings.ContainsByte trimValues c)) name = true
  /\ allOf (fun c => negb (Ascii.eqb c ":")) name = true.
Proof.
  revert name. induction n as [|n IH]; intros name Len.
  - destruct name; [auto|simpl in Len; lia].
  - destruct name as [|c [|d s2]]; [auto| |].
    + cbn [strings.ToLower allOf]. intro H. apply andb_true_iff in H.
      destruct H as [Hc _]. destruct (toLowerByte_letter c Hc) as [-> ->]. auto.
    + assert (forall t, allOf isLower (String (strings.toLowerByte c) t) = true ->
                isLower (strings.toLowerByte c) = true /\ allOf isLower t = true)
        as Byte.
      { intros t H. cbn [allOf] in H. now apply andb_true_iff in H. }
      assert (allOf isLower (strings.ToLower (String d s2)) = true ->
              isLower (strings.toLowerByte c) = true ->
              allOf (fun c => negb (strings.ContainsByte trimValues c))
                    (String c (String d s2)) = true
              /\ allOf (fun c => negb (Ascii.eqb c ":")) (String c (String d s2)) = true)
        as Step.
      { intros H Hc. destruct (toLowerByte_letter c Hc) as [Hd Hcol].
        destruct (IH (String d s2)) as [A B]; [simpl in *; lia|exact H|].
        split.
        - change (negb (strings.ContainsByte trimValues c)
                  && allOf (fun c => negb (strings.ContainsByte trimValues c))
                       (String d s2) = true).
          now rewrite Hd, A.
        - change (negb (Ascii.eqb c ":")
                  && allOf (fun c => negb (Ascii.eqb c ":")) (String d s2) = true).
          now rewrite Hcol, B. }
      change (strings.ToLower (String c (String d s2)))
        with (if Ascii.eqb c "196" && Ascii.eqb d "176"
              then String "i" (strings.ToLower s2)
              else match s2 with
                   | EmptyString =>
                       String (strings.toLowerByte c) (strings.ToLower (String d s2))
                   | String e s3 =>
                       if Ascii.eqb c "226" && Ascii.eqb d "132" && Ascii.eqb e "170"
                       then String "k" (strings.ToLower s3)
                       else String (strings.toLowerByte c)
                                   (strings.ToLower (String d s2))
                   end).
      destruct (Ascii.eqb c "196" && Ascii.eqb d "176") eqn:DotI.
      * apply andb_true_iff in DotI. destruct DotI as [Ec Ed].
        apply Ascii.eqb_eq in Ec, Ed. subst c d.
        cbn [allOf]. intro H. apply andb_true_iff in H. destruct H as [_ H].
        destruct (IH s2) as [A B]; [simpl in *; lia|exact H|].
        cbn [allOf]. rewrite A, B. split; reflexivity.
      * destruct s2 as [|e s3].
        -- intro H. apply Byte in H. destruct H as [Hc H]. now apply Step.
        -- destruct (Ascii.eqb c "226" && Ascii.eqb d "132" && Ascii.eqb e "170")
             eqn:Kelvin.
           ++ apply andb_true_iff in Kelvin. destruct Kelvin as [Kelvin Ee].
              apply andb_true_iff in Kelvin. destruct Kelvin as [Ec Ed].
              apply Ascii.eqb_eq in Ec, Ed, Ee. subst c d e.
              cbn [allOf]. intro H. apply andb_true_iff in H. destruct H as [_ H].
              destruct (IH s3) as [A B]; [simpl in *; lia|exact H|].
              cbn [allOf]. rewrite A, B. split; reflexivity.
           ++ intro H. apply Byte in H. destruct H as [Hc H]. now apply Step.
Qed.

Lemma ToLower_letters (name : string) :
  allOf isLower (strings.ToLower name) = true ->
  allOf (fun c => negb (strings.ContainsByte trimValues c)) name = true
  /\ allOf (fun c => negb (Ascii.eqb c ":")) name = true.
Proof. exact (ToLower_letters_bounded (String.length name) name (le_n _)). Qed.

Lemma attMap_keys_lower (k : string) (ty : AttributeType) :
  lookup attMap k = Some ty -> allOf isLower k = true.
Proof.
  unfold attMap. cbn [lookup].
  repeat match goal with
         | |- context [String.eqb ?key k] =>
             destruct (String.eqb_spec key k); [subst k; reflexivity|]
         end.
  discriminate.
Qed.

Lemma allOf_app (f : ascii -> bool) (s t : string) :
  allOf f (s ++ t) = allOf f s && allOf f t.
Proof.
  induction s as [|c s IH]; simpl; [reflexivity|]. now rewrite IH, andb_assoc.
Qed.

Lemma decoration_no_colon (d : string) :
  isDecoration d = true -> allOf (fun c => negb (Ascii.eqb c ":")) d = true.
Proof.
  unfold isDecoration. induction d as [|c d IH]; cbn [allOf]; [reflexivity|].
  intro H. apply andb_true_iff in H. destruct H as [Hc H]. rewrite (IH H).
  rewrite andb_true_r. destruct (Ascii.eqb_spec c ":"); [subst c; discriminate Hc|].
  reflexivity.
Qed.

(** The name of an attribute, in any mix of cases and with decoration
    around it, is recognised. *)
Lemma attributeOf_decorated
  (name k d1 d2 rest : string) (ty : AttributeType) :
  lookup attMap k = Some ty ->
  strings.ToLower name = k ->
  isDecoration d1 = true -> isDecoration d2 = true ->
  attributeOf (d1 ++ name ++ d2 ++ String ":" rest) = Some ty
  /\ attributeValue (d1 ++ name ++ d2 ++ String ":" rest) = rest.
Proof.
  intros L Low D1 D2.
  pose proof (attMap_keys_lower _ _ L) as K. rewrite <- Low in K.
  destruct (ToLower_letters _ K) as [NoDeco NoColon].
  assert (strings.Cut (d1 ++ name ++ d2 ++ String ":" rest) ":"
          = ((d1 ++ name ++ d2)%string, rest, true)) as C.
  { rewrite <- (append_assoc name d2), <- (append_assoc d1).
    apply Cut_at_first_separator.
    now rewrite !allOf_app, NoColon, !decoration_no_colon. }
  unfold attributeOf, attributeValue. rewrite C. split; [|reflexivity].
  unfold strings.Trim. rewrite (TrimFunc_decorated _ d1 name d2 D1 D2 NoDeco).
  now rewrite Low.
Qed.

(** X5. [parseAttribute] recognises an attribute name whatever the case
    of its letters and whatever decoration ([_], [*], backtick, space)
    stands around it, before the first colon: the line is taken for the
    attribute of that name, with all that follows the first colon as its
    right-hand side. A list-valued attribute appends its values and
    advances the cursor; so does the directory when none is set yet. *)
Theorem attribute_name_any_case_and_decoration
  (p : parser) (name k d1 d2 rest : string) (ty : AttributeType) :
  lookup attMap k = Some ty ->
  strings.ToLower name = k ->
  isDecoration d1 = true -> isDecoration d2 = true ->
  currentLine p = (d1 ++ name ++ d2 ++ String ":" rest)%string ->
  ty <> AttributeTypeDir \/ Dir (currTask p) = EmptyString ->
  parseAttribute p
  = ((true, None),
     snd (scan (set_currTask (appendValues ty rest (currTask p)) p))).
Proof.
  intros L Low D1 D2 Cur Free.
  destruct (attributeOf_decorated name k d1 d2 rest ty L Low D1 D2) as [A V].
  rewrite parseAttribute_cases, Cur, A, V. cbv zeta.
  destruct ty; try reflexivity.
  destruct Free as [N|E]; [contradiction|]. now rewrite E.
Qed.

Lemma attribute_name_any_case_and_decoration_witness :
  DependsOn
    (currTask
       (snd (parseAttribute
               (mkParser (mkScanner [] None) [] emptyTask 1 EmptyString
                         "**Requires:** a, b" false))))
  = ["a"; "b"].
Proof.
  rewrite (attribute_name_any_case_and_decoration
             (mkParser (mkScanner [] None) [] emptyTask 1 EmptyString
                       "**Requires:** a, b" false)
             "Requires" "requires" "**" EmptyString "** a, b" AttributeTypeReq).
  - vm_compute. reflexivity.
  - vm_compute. reflexivity.
  - vm_compute. reflexivity.
  - vm_compute. reflexivity.
  - vm_compute. reflexivity.
  - vm_compute. reflexivity.
  - left. discriminate.
Defined.

(** ** Fenced blocks, from the opening fence on *)

Lemma cursorAt_start (p : parser) (rest : list string) :
  reachedEnd p = false ->
  nextLine p :: pending (scanner p) = rest ->
  cursorAt p (currentLine p) rest.
Proof. intros E <-. unfold cursorAt. auto. Qed.

Lemma cursorAt_scan (q : parser) (current l : string) (rest : list string) :
  cursorAt q current (l :: rest) ->
  fst (scan q) = true /\ cursorAt (snd (scan q)) l rest
  /\ currTask (snd (scan q)) = currTask q.
Proof.
  destruct q as [[pend fail] ts t root next cur e]. unfold cursorAt. simpl.
  intros (_ & -> & -> & ->). unfold scan, Scan. simpl.
  destruct rest; simpl; repeat split; reflexivity.
Qed.

Lemma cursorAt_end (q : parser) (current : string) :
  cursorAt q current [] -> scan q = (false, q).
Proof. intros (_ & E). now apply scan_at_end. Qed.

Lemma sameButScript_refl (t : Task) : sameButScript t t.
Proof. unfold sameButScript. repeat split. Qed.

(** The loop of [parseCodeBlock] before a block that is closed: it stops
    on the closing fence with the non-blank lines of the block
    collected. *)
Lemma codeBlockLoop_closed
  (body : list string) (closing : string) (rest : list string)
  (n : nat) (p : parser) (current : string) :
  cursorAt p current (body ++ closing :: rest) ->
  Forall (fun l => isFence l = false) body ->
  isFence closing = true ->
  List.length body < n ->
  exists q, codeBlockLoop n p = (true, q)
            /\ cursorAt q closing rest
            /\ Script (currTask q) = (Script (currTask p) ++ scriptOf body)%string
            /\ sameButScript (currTask p) (currTask q).
Proof.
  revert n p current. induction body as [|b body IH]; intros n p current C F Fc L;
    (destruct n as [|n]; [simpl in L; lia|]); cbn [codeBlockLoop].
  - cbn [app] in C. destruct (cursorAt_scan _ _ _ _ C) as (M & C1 & T).
    destruct (scan p) as [more p1]. cbn [fst snd] in *. subst more. cbn [negb].
    destruct C1 as (Cur & R). rewrite Cur, Fc. exists p1.
    unfold scriptOf. cbn [filter lines]. rewrite append_empty_r, T.
    split; [reflexivity|]. split; [exact (conj Cur R)|].
    split; [reflexivity|apply sameButScript_refl].
  - cbn [app] in C. destruct (cursorAt_scan _ _ _ _ C) as (M & C1 & T).
    destruct (scan p) as [more p1]. cbn [fst snd] in *. subst more. cbn [negb].
    inversion F as [|? ? Fb F']; subst.
    pose proof C1 as (Cur & R). rewrite Cur, Fb.
    rewrite scriptOf_cons. unfold isBlank.
    assert (List.length body < n) as L' by (cbn [List.length] in L; lia).
    destruct (String.eqb (strings.TrimSpace b) EmptyString); cbn [negb].
    + destruct (IH n p1 b C1 F' Fc L') as (q & -> & Cq & Sc & K).
      exists q. rewrite Sc, T. rewrite T in K.
      split; [reflexivity|]. split; [exact Cq|]. split; [reflexivity|exact K].
    + destruct (IH n (set_currTask
                        (set_Script (Script (currTask p1) ++ b ++ newline)
                                    (currTask p1)) p1) b)
        as (q & -> & Cq & Sc & K); auto.
      exists q. rewrite Sc. cbn [currTask set_currTask Script set_Script].
      rewrite T, !append_assoc.
      split; [reflexivity|]. split; [exact Cq|]. split; [reflexivity|].
      unfold sameButScript in *.
      cbn [currTask set_currTask Name Description Env Dir DependsOn Inputs
           set_Script] in K.
      rewrite T in K. exact K.
Qed.

Lemma parseCodeBlock_closed
  (p : parser) (body : list string) (closing : string) (rest : list string) :
  isFence (currentLine p) = true ->
  Script (currTask p) = EmptyString ->
  reachedEnd p = false ->
  nextLine p :: pending (scanner p) = body ++ closing :: rest ->
  Forall (fun l => isFence l = false) body ->
  isFence closing = true ->
  let q := snd (parseCodeBlock p) in
  fst (parseCodeBlock p) = None
  /\ Script (currTask q) = lines (filter (fun l => negb (isBlank l)) body)
  /\ sameButScript (currTask p) (currTask q)
  /\ cursorAt q (hd closing rest) (tl rest).
Proof.
  intros Fe HS E D F Fc. unfold parseCodeBlock. rewrite Fe, HS. cbn [negb].
  change (0 <? len EmptyString)%Z with false. cbv iota.
  destruct (codeBlockLoop_closed body closing rest (S (budget p)) p (currentLine p))
    as (q1 & -> & C & Sc & K); auto.
  { now apply cursorAt_start. }
  { unfold budget. rewrite E.
    assert (List.length (nextLine p :: pending (scanner p))
            = List.length (body ++ closing :: rest)) as Len by now rewrite D.
    rewrite length_app in Len. simpl in Len. lia. }
  cbn [negb fst snd]. rewrite HS in Sc. simpl in Sc.
  destruct rest as [|l rest].
  - rewrite (cursorAt_end _ _ C). simpl. auto.
  - destruct (cursorAt_scan _ _ _ _ C) as (_ & C' & T). simpl.
    rewrite T. auto.
Qed.

(** X6. On the opening fence of a block that is closed, in a task without
    script, [parseCodeBlock] returns no error; the task's [Script] is the
    non-blank lines of the block, each followed by a line feed, and
    nothing else of the task changes; both fences are consumed: the
    cursor stands on the line after the closing fence (on the closing
    fence itself when it is the last line of the input). *)
Theorem parseCodeBlock_closed_block
  (p : parser) (body : list string) (closing : string) (rest : list string) :
  isFence (currentLine p) = true ->
  Script (currTask p) = EmptyString ->
  reachedEnd p = false ->
  nextLine p :: pending (scanner p) = body ++ closing :: rest ->
  Forall (fun l => isFence l = false) body ->
  isFence closing = true ->
  let q := snd (parseCodeBlock p) in
  fst (parseCodeBlock p) = None
  /\ Script (currTask q)
     = eachFollowedBy "010" (filter (fun l => negb (isBlank l)) body)
  /\ sameButScript (currTask p) (currTask q)
  /\ cursorAt q (hd closing rest) (tl rest).
Proof. rewrite <- lines_eachFollowedBy. apply parseCodeBlock_closed. Qed.

Lemma parseCodeBlock_closed_block_witness :
  fst (parseCodeBlock atFiveLineBlock) = None
  /\ Script (currTask (snd (parseCodeBlock atFiveLineBlock)))
     = eachFollowedBy "010"
         (filter (fun l => negb (isBlank l))
                 ["make"; "  "; "make test"; EmptyString; "  make install"])
  /\ sameButScript (currTask atFiveLineBlock)
                   (currTask (snd (parseCodeBlock atFiveLineBlock)))
  /\ cursorAt (snd (parseCodeBlock atFiveLineBlock)) "after" [].
Proof.
  apply (parseCodeBlock_closed_block atFiveLineBlock
           ["make"; "  "; "make test"; EmptyString; "  make install"]
           "```" ["after"]).
  - vm_compute. reflexivity.
  - reflexivity.
  - reflexivity.
  - reflexivity.
  - repeat constructor.
  - vm_compute. reflexivity.
Defined.

Lemma codeBlockLoop_not_ended (n : nat) (p q : parser) :
  codeBlockLoop n p = (false, q) -> budget p < n -> reachedEnd q = true.
Proof.
  revert p. induction n as [|n IH]; intros p H L; [lia|]. simpl in H.
  pose proof (scan_budget p) as B. rewrite scan_answer in B.
  destruct (reachedEnd p) eqn:E.
  { rewrite (scan_at_end _ E) in H. injection H as <-. exact E. }
  pose proof (scan_answer p) as M. rewrite E in M.
  destruct (scan p) as [more p1]. simpl in *. subst more. simpl in H.
  destruct (isFence (currentLine p1)); [discriminate|].
  destruct (negb _); apply (IH _ H); rewrite ?budget_set_currTask; lia.
Qed.

(** X7. On the opening fence of a block that is never closed (no later
    line starts with the fence, or the fence is the last line), in a task
    without script, [parseCodeBlock] returns the error that the block of
    the task was not ended, having read the input to its end. *)
Theorem parseCodeBlock_unclosed_block (p : parser) :
  isFence (currentLine p) = true ->
  Script (currTask p) = EmptyString ->
  reachedEnd p = true
  \/ Forall (fun l => isFence l = false) (nextLine p :: pending (scanner p)) ->
  fst (parseCodeBlock p) = Some (ErrBlockNotEnded (Name (currTask p)))
  /\ reachedEnd (snd (parseCodeBlock p)) = true.
Proof.
  intros Fe HS NoFence. unfold parseCodeBlock. rewrite Fe, HS. cbn [negb].
  change (0 <? len EmptyString)%Z with false. cbv iota.
  destruct (codeBlockLoop (S (budget p)) p) as [ended q] eqn:L.
  destruct ended.
  - exfalso. destruct (codeBlockLoop_ended _ _ _ L)
      as (E & body & closing & rest & D & _ & Fc & _).
    destruct NoFence as [E'|F]; [congruence|].
    rewrite D in F. apply Forall_app in F. destruct F as [_ F].
    inversion F; subst. congruence.
  - cbn [negb fst snd].
    destruct (codeBlockLoop_kept (S (budget p)) p) as (_ & _ & N & _).
    rewrite L in N. simpl in N. rewrite N. split; [reflexivity|].
    apply (codeBlockLoop_not_ended _ _ _ L). lia.
Qed.

Lemma parseCodeBlock_unclosed_block_witness :
  fst (parseCodeBlock
         (mkParser (mkScanner ["echo"; "more"] None) []
                   (set_Name "build" emptyTask) 1 "make" "```" false))
  = Some (ErrBlockNotEnded "build")
  /\ reachedEnd (snd (parseCodeBlock
         (mkParser (mkScanner ["echo"; "more"] None) []
                   (set_Name "build" emptyTask) 1 "make" "```" false))) = true.
Proof.
  apply (parseCodeBlock_unclosed_block
           (mkParser (mkScanner ["echo"; "more"] None) []
                     (set_Name "build" emptyTask) 1 "make" "```" false)).
  - vm_compute. reflexivity.
  - reflexivity.
  - right. repeat constructor.
Defined.

(** ** Description lines *)

(** What [parseHeading] recognises depends on the current line and the
    lookahead line alone. *)
Lemma parseHeading_headingAt (p : parser) :
  fst (parseHeading false p) = headingAt (currentLine p) (nextLine p).
Proof.
  unfold headingAt, parseHeading, parseAltHeading.
  cbn [currentLine nextLine].
  destruct (stringOnlyContains (strings.TrimSpace (nextLine p)) "-"),
           (stringOnlyContains (strings.TrimSpace (nextLine p)) "=");
    cbn [fst snd negb orb andb]; try reflexivity.
  cbn [currentLine].
  destruct (strings.Fields _) as [|s0 [|s1 s]]; try reflexivity.
  destruct (_ || _); reflexivity.
Qed.

(** X9. A line of a task body that is no attribute, no fence and no
    heading ending the task is description text: unless it is blank it
    is appended, trimmed of the decoration, to the task's [Description],
    and the cursor moves one line on. A heading deeper than a task
    heading is such a line: it becomes a description line, its [#] marks
    included, and opens no task. *)
Theorem plain_line_is_description
  (p : parser) (tok : bool) (level : Z) (text : string) :
  attributeOf (currentLine p) = None ->
  isFence (currentLine p) = false ->
  fst (parseHeading false p) = (tok, level, text) ->
  tok = false \/ (rootHeadingLevel p + 1 < level)%Z ->
  taskBodyRound p
  = let t := currTask p in
    let p' := if isBlank (currentLine p) then p
              else set_currTask
                     (set_Description
                        (Description t ++ [strings.Trim (currentLine p) trimValues])
                        t) p in
    if fst (scan p') then Continue (snd (scan p'))
    else Return (false, None) (snd (scan p')).
Proof.
  intros A Fe H Deep. unfold taskBodyRound. rewrite parseAttribute_cases, A.
  unfold parseCodeBlock. rewrite Fe. cbn [negb].
  rewrite (surjective_pairing (parseHeading false p)), parseHeading_peek, H.
  assert (tok && (level <=? rootHeadingLevel p)%Z = false
          /\ tok && (level =? rootHeadingLevel p + 1)%Z = false) as [-> ->].
  { destruct Deep as [->|Lt]; [auto|]. split; apply andb_false_iff; right.
    - apply Z.leb_gt. lia.
    - apply Z.eqb_neq. lia. }
  cbv zeta. unfold isBlank.
  destruct (String.eqb (strings.TrimSpace (currentLine p)) EmptyString);
    cbn [negb];
    match goal with |- context [scan ?x] => destruct (scan x) as [more q] end;
    destruct more; reflexivity.
Qed.

Lemma plain_line_is_description_witness :
  taskBodyRound
    (mkParser (mkScanner ["req: x"] None) [] (set_Name "build" emptyTask) 1
              "text" "### notes" false)
  = Continue
      (mkParser (mkScanner [] None) []
                (set_Description ["### notes"] (set_Name "build" emptyTask)) 1
                "req: x" "text" false).
Proof.
  rewrite (plain_line_is_description
             (mkParser (mkScanner ["req: x"] None) [] (set_Name "build" emptyTask) 1
                       "text" "### notes" false) true 3%Z "notes").
  - vm_compute. reflexivity.
  - vm_compute. reflexivity.
  - vm_compute. reflexivity.
  - vm_compute. reflexivity.
  - right. vm_compute. reflexivity.
Defined.

(** X8. The line that follows the closing fence of a block is never tried
    as an attribute or as a fence: the round of the body loop that parsed
    the block goes on with it, and unless it is a heading ending the
    task it is appended to the [Description] (if not blank) like any
    plain line. An attribute line in that place sets no attribute. *)
Theorem line_after_block_is_description
  (p : parser) (body : list string) (closing after follow : string)
  (rest : list string) (tok : bool) (level : Z) (text : string) :
  attributeOf (currentLine p) = None ->
  isFence (currentLine p) = true ->
  Script (currTask p) = EmptyString ->
  reachedEnd p = false ->
  nextLine p :: pending (scanner p)
  = body ++ closing :: after :: follow :: rest ->
  Forall (fun l => isFence l = false) body ->
  isFence closing = true ->
  isBlank after = false ->
  headingAt after follow = (tok, level, text) ->
  tok = false \/ (rootHeadingLevel p + 1 < level)%Z ->
  exists q,
    taskBodyRound p = Continue q
    /\ cursorAt q follow rest
    /\ Description (currTask q)
       = Description (currTask p) ++ [strings.Trim after trimValues]
    /\ Script (currTask q)
       = eachFollowedBy "010" (filter (fun l => negb (isBlank l)) body)
    /\ Name (currTask q) = Name (currTask p)
    /\ Env (currTask q) = Env (currTask p)
    /\ Dir (currTask q) = Dir (currTask p)
    /\ DependsOn (currTask q) = DependsOn (currTask p)
    /\ Inputs (currTask q) = Inputs (currTask p).
Proof.
  intros A Fe HS E D F Fc NB H Deep.
  destruct (parseCodeBlock_closed p body closing (after :: follow :: rest)
              Fe HS E D F Fc) as (Ok & Sc & K & C).
  pose proof (bodyKeeps_parseCodeBlock p) as (_ & R & _).
  unfold taskBodyRound. rewrite parseAttribute_cases, A.
  destruct (parseCodeBlock p) as [err q1]. cbn [fst snd hd tl] in *. subst err.
  pose proof C as (Cur & _ & Next & _).
  rewrite (surjective_pairing (parseHeading false q1)), parseHeading_peek,
    parseHeading_headingAt, Cur, Next, H, R.
  assert (tok && (level <=? rootHeadingLevel p)%Z = false
          /\ tok && (level =? rootHeadingLevel p + 1)%Z = false) as [-> ->].
  { destruct Deep as [->|Lt]; [auto|]. split; apply andb_false_iff; right.
    - apply Z.leb_gt. lia.
    - apply Z.eqb_neq. lia. }
  unfold isBlank in NB. rewrite NB. cbn [negb].
  match goal with |- context [scan ?x] =>
    destruct (cursorAt_scan x after follow rest C) as (M & C' & T);
    destruct (scan x) as [more q] end.
  cbn [fst snd] in *. subst more. cbn [negb]. exists q.
  unfold sameButScript in K. destruct K as (K1 & K2 & K3 & K4 & K5 & K6).
  rewrite T. cbn [currTask set_currTask Description Script Name Env Dir
                  DependsOn Inputs set_Description].
  rewrite K2. split; [reflexivity|]. split; [exact C'|].
  rewrite <- lines_eachFollowedBy. repeat split; assumption.
Qed.

Lemma line_after_block_is_description_witness :
  exists q,
    taskBodyRound atBlockBeforeAttribute = Continue q
    /\ cursorAt q "more" []
    /\ Description (currTask q) = [] ++ [strings.Trim "req: x" trimValues]
    /\ Script (currTask q)
       = eachFollowedBy "010" (filter (fun l => negb (isBlank l)) ["echo"])
    /\ Name (currTask q) = "build"
    /\ Env (currTask q) = []
    /\ Dir (currTask q) = EmptyString
    /\ DependsOn (currTask q) = []
    /\ Inputs (currTask q) = [].
Proof.
  apply (line_after_block_is_description atBlockBeforeAttribute
           ["echo"] "```" "req: x" "more" [] false 0%Z EmptyString).
  - vm_compute. reflexivity.
  - vm_compute. reflexivity.
  - reflexivity.
  - reflexivity.
  - reflexivity.
  - repeat constructor.
  - vm_compute. reflexivity.
  - vm_compute. reflexivity.
  - vm_compute. reflexivity.
  - left. reflexivity.
Defined.

(** ** An attribute on the last line of the input *)

Lemma afterTasks_mono (k fuel fuel' : nat) (ps p0 : parser) :
  afterTasks k fuel ps = Some p0 -> fuel <= fuel' ->
  afterTasks k fuel' ps = Some p0.
Proof.
  revert ps. induction k as [|k IH]; simpl; intros ps H L; [exact H|].
  destruct (parseTask fuel ps) as [[[[|] [e|]] p1]|] eqn:E; try discriminate.
  rewrite (parseTask_mono _ _ _ _ E L). now apply IH.
Qed.

Lemma parseTaskBody_stuck (m : nat) (p q : parser) :
  bodyRounds m p = Some q ->
  (forall fuel, parseTaskBody fuel q = None) ->
  forall fuel, parseTaskBody fuel p = None.
Proof.
  revert p. induction m as [|m IH]; simpl; intros p R Stuck fuel.
  - injection R as ->. apply Stuck.
  - destruct fuel as [|fuel]; [reflexivity|]. simpl.
    destruct (taskBodyRound p) as [p1|r p1]; [|discriminate].
    now apply IH.
Qed.

Lemma parseLoop_stuck (k fuel : nat) (ps p0 : parser) :
  afterTasks k fuel ps = Some p0 ->
  parseTask fuel p0 = None ->
  forall n, parseLoop n fuel ps = None.
Proof.
  revert ps. induction k as [|k IH]; simpl; intros ps A T n.
  - injection A as ->. destruct n; simpl; [reflexivity|now rewrite T].
  - destruct n as [|n]; [reflexivity|]. simpl.
    destruct (parseTask fuel ps) as [[[[|] [e|]] p1]|]; try discriminate.
    now apply IH.
Qed.

(** X10. When the body loop of a task starts a round on the last line of
    the input (the end is reached) and that line is a list-valued
    attribute line ([req], [requires], [env], [environment] or
    [inputs]), [Parse] does not return, whatever fuel it is given:
    [parseAttribute] answers [true] although the cursor could not
    advance, and the body loop reads the same line again and again.
    (No round starts on a line that directly follows a closing fence:
    the round of the block takes that line for description.) *)
Theorem last_line_attribute_never_returns
  (fuel k m : nat) (ps p0 p1 q : parser) (heading : string)
  (ty : AttributeType) :
  afterTasks k fuel ps = Some p0 ->
  findTaskHeading (set_currTask emptyTask p0) = ((heading, false, None), p1) ->
  bodyRounds m (bodyStart heading p1) = Some q ->
  reachedEnd q = true ->
  attributeOf (currentLine q) = Some ty ->
  ty <> AttributeTypeDir ->
  forall fuel', Parse fuel' ps = None.
Proof.
  intros A F R End At NotDir fuel'.
  destruct (Parse fuel' ps) as [r|] eqn:P; [exfalso|reflexivity].
  apply (Parse_mono _ (Nat.max fuel fuel')) in P; [|lia].
  apply (afterTasks_mono _ _ (Nat.max fuel fuel')) in A; [|lia].
  unfold Parse in P.
  rewrite (parseLoop_stuck _ _ _ _ A) in P; [discriminate|].
  unfold parseTask. rewrite F. fold (bodyStart heading p1).
  rewrite (parseTaskBody_stuck _ _ _ R); [reflexivity|].
  intro f. now apply (parseTaskBody_last_line_attribute f q ty).
Qed.

Lemma last_line_attribute_never_returns_witness :
  Parse 1000 (fst (NewParser (NewScanner docEndsWithRequirement) "Tasks"))
  = None.
Proof.
  generalize 1000.
  eapply (last_line_attribute_never_returns 1 0 0 _ _ _ _ "build"
            AttributeTypeReq).
  - reflexivity.
  - vm_compute. reflexivity.
  - reflexivity.
  - vm_compute. reflexivity.
  - vm_compute. reflexivity.
  - discriminate.
Defined.

(** X11. When the body loop of a task starts a round on the last line of
    the input (the end is reached) and that line is a
    [dir:]/[directory:] line with a value that is not empty, [Parse]
    returns the duplicate-directory error naming the task, even if the
    task has no other such line: the line sets the directory, the cursor
    cannot advance, and the body loop reads the line a second time.
    (No round starts on a line that directly follows a closing fence:
    the round of the block takes that line for description.) *)
Theorem last_line_directory_counts_twice
  (fuel k m : nat) (ps p0 p1 q : parser) (heading : string) :
  afterTasks k fuel ps = Some p0 ->
  findTaskHeading (set_currTask emptyTask p0) = ((heading, false, None), p1) ->
  bodyRounds m (bodyStart heading p1) = Some q ->
  reachedEnd q = true ->
  isDirLine (currentLine q) = true ->
  strings.Trim (attributeValue (currentLine q)) trimValues <> EmptyString ->
  k < fuel -> m + 1 < fuel ->
  Parse fuel ps = Some (tasks p0, Some (ErrDirectoryTwice heading)).
Proof.
  intros A F R End D V Lk Lm.
  pose proof (bodyKeeps_bodyRounds _ _ _ R) as (_ & _ & N & _).
  simpl in N. pose proof (taskBodyRound_dir_line q D) as Round.
  destruct (negb (String.eqb (Dir (currTask q)) EmptyString)) eqn:IsSet.
  - eapply Parse_aborts_in_body with (m := m) (q := q); eauto; [|lia].
    now rewrite Round, N.
  - rewrite scan_at_end in Round by exact End. cbn [snd] in Round.
    eapply Parse_aborts_in_body with (m := m + 1); eauto.
    + apply (bodyRounds_app _ _ _ _ _ R). simpl. rewrite Round. reflexivity.
    + rewrite taskBodyRound_dir_line by exact D.
      cbn [currTask set_currTask Dir set_Dir Name].
      apply String.eqb_neq in V. rewrite V. cbn [negb]. now rewrite N.
Qed.

Lemma last_line_directory_counts_twice_witness :
  Parse 4 (fst (NewParser (NewScanner docEndsWithDirectory) "Tasks"))
  = Some (tasks (fst (NewParser (NewScanner docEndsWithDirectory) "Tasks")),
          Some (ErrDirectoryTwice "build")).
Proof.
  eapply (last_line_directory_counts_twice 4 0 1).
  - reflexivity.
  - vm_compute. reflexivity.
  - vm_compute. reflexivity.
  - vm_compute. reflexivity.
  - vm_compute. reflexivity.
  - vm_compute. discriminate.
  - lia.
  - lia.
Defined.

(** ** [NewParser] *)

Lemma newParserLoop_result (n : nat) (heading : string) (p0 p : parser)
  (err : option error) :
  newParserLoop n heading p0 = (p, err) ->
  budget p0 < n ->
  tasks p = tasks p0 /\ currTask p = currTask p0
  /\ match err with
     | Some e => e = ErrNoTasksHeading /\ reachedEnd p = true
     | None => (1 <= rootHeadingLevel p)%Z
     end.
Proof.
  revert p0. induction n as [|n IH]; intros p0 H L; [lia|]. simpl in H.
  pose proof (scan_kept p0) as (T & C & _).
  pose proof (scan_budget p0) as B. rewrite scan_answer in B.
  pose proof (scan_answer p0) as M.
  destruct (reachedEnd p0) eqn:E.
  { rewrite (scan_at_end _ E) in H. simpl in H. injection H as <- <-. auto. }
  destruct (scan p0) as [more p1]. simpl in *. subst more. simpl in H.
  pose proof (parseHeading_kept true p1) as (T2 & C2 & _ & B2).
  pose proof (parseHeading_level true p1) as Lv.
  destruct (parseHeading true p1) as [[[ok level] text] p2]. simpl in *.
  destruct (negb ok || _) eqn:Cond.
  - assert (budget p2 < n) as L2 by lia.
    destruct (IH _ H L2) as (T3 & C3 & R3).
    split; [congruence|]. split; [congruence|exact R3].
  - injection H as <- <-. simpl.
    apply orb_false_iff in Cond. destruct Cond as [Ok _].
    apply negb_false_iff in Ok. subst ok.
    split; [congruence|]. split; [congruence|now apply (Lv level text)].
Qed.

(** X12. [NewParser] hands back a parser without tasks and with an empty
    task in progress. If it succeeds, the root level it found is at
    least 1; if it fails, the error is the one for a missing section and
    the input has been read to its end. *)
Theorem NewParser_result (r : Scanner) (heading : string) (p : parser)
  (err : option error) :
  NewParser r heading = (p, err) ->
  tasks p = [] /\ currTask p = emptyTask
  /\ match err with
     | Some e => e = ErrNoTasksHeading /\ reachedEnd p = true
     | None => (1 <= rootHeadingLevel p)%Z
     end.
Proof.
  unfold NewParser. intro H.
  apply newParserLoop_result in H; [exact H|lia].
Qed.

Lemma NewParser_result_witness :
  tasks (fst (NewParser (NewScanner docNoTasks) "Tasks")) = []
  /\ currTask (fst (NewParser (NewScanner docNoTasks) "Tasks")) = emptyTask
  /\ (1 <= rootHeadingLevel (fst (NewParser (NewScanner docNoTasks) "Tasks")))%Z.
Proof.
  apply (NewParser_result (NewScanner docNoTasks) "Tasks"
           (fst (NewParser (NewScanner docNoTasks) "Tasks")) None).
  vm_compute. reflexivity.
Defined.

Lemma headingAt_no_rule (current next : string) :
  isRule next = false -> headingAt current next = headingAt current EmptyString.
Proof.
  unfold headingAt, parseHeading. intro H.
  rewrite parseAltHeading_no_rule by exact H.
  rewrite parseAltHeading_no_rule by reflexivity.
  cbn [currentLine].
  destruct (strings.Fields _) as [|s0 [|s1 s]]; try reflexivity.
  destruct (_ || _); reflexivity.
Qed.

Lemma noRootHeading_scan (heading : string) (p : parser) :
  noRootHeading heading (nextLine p) = true ->
  Forall (fun l => noRootHeading heading l = true) (pending (scanner p)) ->
  noRootHeading heading (nextLine (snd (scan p))) = true
  /\ Forall (fun l => noRootHeading heading l = true)
            (pending (scanner (snd (scan p))))
  /\ (reachedEnd p = false ->
      noRootHeading heading (currentLine (snd (scan p))) = true).
Proof.
  destruct p as [[pend fail] ts t root next cur [|]]; unfold scan, Scan; simpl;
    intros N F; [repeat split; auto; discriminate|].
  destruct pend as [|l pend]; simpl; [auto|].
  inversion F; subst. auto.
Qed.

Lemma newParserLoop_no_heading (n : nat) (heading : string) (p : parser) :
  noRootHeading heading (nextLine p) = true ->
  Forall (fun l => noRootHeading heading l = true) (pending (scanner p)) ->
  snd (newParserLoop n heading p) = Some ErrNoTasksHeading.
Proof.
  revert p. induction n as [|n IH]; intros p N F; [reflexivity|]. simpl.
  destruct (noRootHeading_scan heading p N F) as (N1 & F1 & C1).
  pose proof (scan_answer p) as M.
  destruct (scan p) as [more p1]. simpl in *. subst more.
  destruct (reachedEnd p); [reflexivity|]. specialize (C1 eq_refl). simpl.
  rewrite parseHeading_advance, parseHeading_headingAt.
  pose proof N1 as NR. unfold noRootHeading in NR.
  apply andb_true_iff in NR. destruct NR as [NR _].
  apply negb_true_iff in NR. rewrite NR, (headingAt_no_rule _ _ NR).
  unfold noRootHeading in C1. apply andb_true_iff in C1. destruct C1 as [_ C1].
  destruct (headingAt (currentLine p1) EmptyString) as [[ok level] text].
  cbn [fst]. apply negb_true_iff in C1.
  replace (negb ok || negb (strings.EqualFold (strings.TrimSpace text)
                                               (strings.TrimSpace heading)))
    with true by (destruct ok; simpl in *; [now rewrite C1|reflexivity]).
  destruct ok; [|now apply IH].
  destruct (noRootHeading_scan heading p1 N1 F1) as (N2 & F2 & _).
  now apply IH.
Qed.

(** X13. For a target heading written in ASCII: if no line of the input
    is a run of [-] or [=] and none is a marker heading whose text is
    the target heading (up to case and surrounding spaces), [NewParser]
    fails with the error for a missing section; the empty input is the
    first case of it. *)
Theorem NewParser_without_heading (r : Scanner) (heading : string) :
  isASCII heading = true ->
  Forall (fun l => noRootHeading heading l = true) (pending r) ->
  snd (NewParser r heading) = Some ErrNoTasksHeading.
Proof.
  intros _ F. unfold NewParser. apply newParserLoop_no_heading; [reflexivity|exact F].
Qed.

Lemma NewParser_without_heading_witness :
  snd (NewParser (mkScanner ["# Other"; "some text"; "## build"; "req: x"] None)
                 "Tasks")
  = Some ErrNoTasksHeading.
Proof.
  apply NewParser_without_heading.
  - vm_compute. reflexivity.
  - repeat constructor.
Defined.

(** One round of the loop of [NewParser], by what [parseHeading] makes of
    the line the cursor comes to. *)
Lemma newParserLoop_round (n : nat) (heading : string) (p : parser) :
  reachedEnd p = false ->
  newParserLoop (S n) heading p
  = let p1 := snd (scan p) in
    let '(ok, level, text) := headingAt (currentLine p1) (nextLine p1) in
    let p2 := if ok then if isRule (nextLine p1) then scans 2 p1 else scans 1 p1
              else p1 in
    if negb ok
       || negb (strings.EqualFold (strings.TrimSpace text)
                                  (strings.TrimSpace heading))
    then newParserLoop n heading p2
    else (set_rootHeadingLevel level p2, None).
Proof.
  intro E. cbn [newParserLoop]. pose proof (scan_answer p) as M. rewrite E in M.
  destruct (scan p) as [more p1]. cbn [fst snd] in *. subst more. cbn [negb].
  rewrite parseHeading_advance, parseHeading_headingAt.
  destruct (headingAt (currentLine p1) (nextLine p1)) as [[ok level] text].
  reflexivity.
Qed.

(** Through lines that are neither headings nor rules and then over a
    marker heading with another text, the loop of [NewParser] comes to
    stand on the line after that heading, one round later than the
    heading. *)
Lemma newParserLoop_passes_heading
  (fail : option string) (heading l1 x l3 : string) (rest : list string)
  (level : Z) (text : string) (m : nat)
  (pre : list string) (current next : string) (pend : list string) :
  Forall (fun a => plainLine a = true) pre ->
  isRule l1 = false -> isRule x = false ->
  headingAt l1 EmptyString = (true, level, text) ->
  strings.EqualFold (strings.TrimSpace text) (strings.TrimSpace heading) = false ->
  next :: pend = pre ++ l1 :: x :: l3 :: rest ->
  newParserLoop (List.length pre + 1 + m) heading (onTheWay fail current next pend)
  = newParserLoop m heading (onTheWay fail x l3 rest).
Proof.
  intros F R1 Rx H NoMatch. revert current next pend.
  induction F as [|a pre Pa F IH]; intros current next pend D.
  - cbn [app] in D. injection D as -> ->. cbn [List.length Nat.add].
    rewrite newParserLoop_round by reflexivity.
    cbn [onTheWay scan reachedEnd nextLine scanner Scan pending failure
         set_currentLine set_nextLine set_scanner snd currentLine tasks currTask
         rootHeadingLevel].
    rewrite (headingAt_no_rule _ _ Rx), H, NoMatch, Rx. cbn [negb orb].
    reflexivity.
  - cbn [app] in D. injection D as -> ->. cbn [List.length Nat.add].
    assert (exists b pend', pre ++ l1 :: x :: l3 :: rest = b :: pend'
                            /\ isRule b = false) as (b & pend' & D & Rb).
    { destruct pre as [|b pre]; cbn [app]; [eauto|].
      exists b, (pre ++ l1 :: x :: l3 :: rest). split; [reflexivity|].
      inversion F as [|? ? Pb _]; subst. unfold plainLine in Pb.
      apply andb_true_iff in Pb. destruct Pb as [Pb _].
      now apply negb_true_iff in Pb. }
    rewrite D. rewrite newParserLoop_round by reflexivity.
    cbn [onTheWay scan reachedEnd nextLine scanner Scan pending failure
         set_currentLine set_nextLine set_scanner snd currentLine tasks currTask
         rootHeadingLevel].
    rewrite (headingAt_no_rule _ _ Rb).
    unfold plainLine in Pa. apply andb_true_iff in Pa. destruct Pa as [_ Pa].
    apply negb_true_iff in Pa.
    destruct (headingAt a EmptyString) as [[ok lv] tx]. cbn [fst] in Pa.
    subst ok. cbn [negb orb].
    apply (IH a b pend'). now rewrite D.
Qed.

(** X14. [NewParser] never examines the line that follows a marker
    heading with another text: the heading is consumed by [parseHeading]
    and the loop scans once more before looking again. For a target
    heading written in ASCII, after any number of lines that are neither
    headings nor rules and such a heading, the result is the same
    whatever the next line is (as long as it is no run of [-] or [=],
    and a further line follows); the target heading itself, placed
    there, is not found. *)
Theorem NewParser_skips_line_after_heading
  (pre : list string) (l1 l2 l2' l3 : string) (rest : list string)
  (fail : option string) (heading : string) (level : Z) (text : string) :
  isASCII heading = true ->
  Forall (fun a => plainLine a = true) pre ->
  isRule l1 = false -> isRule l2 = false -> isRule l2' = false ->
  headingAt l1 EmptyString = (true, level, text) ->
  strings.EqualFold (strings.TrimSpace text) (strings.TrimSpace heading) = false ->
  NewParser (mkScanner (pre ++ l1 :: l2 :: l3 :: rest) fail) heading
  = NewParser (mkScanner (pre ++ l1 :: l2' :: l3 :: rest) fail) heading.
Proof.
  intros _ F R1 R2 R2' H NoMatch.
  assert (forall x, isRule x = false ->
            NewParser (mkScanner (pre ++ l1 :: x :: l3 :: rest) fail) heading
            = newParserLoop (S (S (S (List.length rest)))) heading
                (onTheWay fail x l3 rest)) as Run.
  { intros x Rx. unfold NewParser.
    change (newParserState (mkScanner (pre ++ l1 :: x :: l3 :: rest) fail))
      with (onTheWay fail EmptyString EmptyString (pre ++ l1 :: x :: l3 :: rest)).
    replace (S (budget (onTheWay fail EmptyString EmptyString
                                 (pre ++ l1 :: x :: l3 :: rest))))
      with (List.length (EmptyString :: pre) + 1 + S (S (S (List.length rest)))).
    - apply (newParserLoop_passes_heading fail heading l1 x l3 rest level text);
        try assumption; [|reflexivity].
      constructor; [reflexivity|exact F].
    - cbn [budget onTheWay reachedEnd scanner pending List.length].
      rewrite length_app. cbn [List.length]. lia. }
  rewrite (Run l2 R2), (Run l2' R2').
  rewrite !newParserLoop_round by reflexivity. reflexivity.
Qed.

Lemma NewParser_skips_line_after_heading_witness :
  NewParser (mkScanner (["My project"; EmptyString]
                        ++ "# Intro" :: "# Tasks" :: "## build" :: ["req: x"])
                       None) "Tasks"
  = NewParser (mkScanner (["My project"; EmptyString]
                          ++ "# Intro" :: EmptyString :: "## build" :: ["req: x"])
                         None) "Tasks".
Proof.
  apply (NewParser_skips_line_after_heading
           ["My project"; EmptyString]
           "# Intro" "# Tasks" EmptyString "## build" ["req: x"] None "Tasks"
           1%Z "Intro").
  - vm_compute. reflexivity.
  - repeat constructor.
  - vm_compute. reflexivity.
  - vm_compute. reflexivity.
  - vm_compute. reflexivity.
  - vm_compute. reflexivity.
  - vm_compute. reflexivity.
Defined.

(** ** A heading under the cursor during the search for a task *)

Lemma findTaskHeading_at_heading (p : parser) (level : Z) (text : string) :
  fst (parseHeading false p) = (true, level, text) ->
  (level <= rootHeadingLevel p + 1)%Z ->
  findTaskHeading p
  = (if (level <=? rootHeadingLevel p)%Z then (EmptyString, true, None)
     else (strings.Trim text trimValues, false, None),
     if isRule (nextLine p) then scans 2 p else scans 1 p).
Proof.
  intros H Le. unfold findTaskHeading. cbn [findTaskHeadingLoop].
  rewrite parseHeading_advance, H. cbn [fst negb orb].
  assert (rootHeadingLevel
            (if isRule (nextLine p) then snd (scan (snd (scan p)))
             else snd (scan p)) = rootHeadingLevel p) as ->.
  { destruct (isRule (nextLine p)).
    - destruct (scan_kept p) as (_ & _ & R1).
      destruct (scan_kept (snd (scan p))) as (_ & _ & R2). congruence.
    - now destruct (scan_kept p) as (_ & _ & R1). }
  replace (rootHeadingLevel p + 1 <? level)%Z with false
    by (symmetry; apply Z.ltb_ge; lia).
  destruct (level <=? rootHeadingLevel p)%Z; reflexivity.
Qed.

(** X16. With the cursor on a heading during the search for a task: a
    heading one level below the root opens a task named by the heading
    text trimmed of the decoration, and the cursor moves past the heading
    (two lines for an underline heading, one for a marker heading); a
    heading at the level of the root or above ends the section, and
    [Parse], started there, returns the finished tasks as they are with
    no error, whatever follows in the input. *)
Theorem task_search_at_heading (p : parser) (level : Z) (text : string) :
  fst (parseHeading false p) = (true, level, text) ->
  ((level = rootHeadingLevel p + 1)%Z ->
   findTaskHeading p
   = ((strings.Trim text trimValues, false, None),
      if isRule (nextLine p) then scans 2 p else scans 1 p))
  /\ ((level <= rootHeadingLevel p)%Z ->
      fst (findTaskHeading p) = (EmptyString, true, None)
      /\ forall fuel, Parse (S fuel) p = Some (tasks p, None)).
Proof.
  intro H. split.
  - intro Eq. rewrite (findTaskHeading_at_heading p level text H) by lia.
    replace (level <=? rootHeadingLevel p)%Z with false
      by (symmetry; apply Z.leb_gt; lia).
    reflexivity.
  - intro Le. split.
    + rewrite (findTaskHeading_at_heading p level text H) by lia.
      apply Z.leb_le in Le. now rewrite Le.
    + intro fuel. unfold Parse. cbn [parseLoop]. unfold parseTask.
      assert (fst (parseHeading false (set_currTask emptyTask p))
              = (true, level, text)) as H'.
      { rewrite parseHeading_headingAt. rewrite parseHeading_headingAt in H.
        exact H. }
      pose proof (findTaskHeading_kept (set_currTask emptyTask p)) as (T & _).
      rewrite (findTaskHeading_at_heading _ level text H') in * by (simpl; lia).
      cbn [rootHeadingLevel set_currTask] in *.
      apply Z.leb_le in Le. rewrite Le in *. cbn [negb snd] in *.
      now rewrite T.
Qed.

Lemma task_search_at_heading_witness :
  fst (findTaskHeading
         (mkParser (mkScanner ["## later"; "req: x"] None) [taskBuild []]
                   emptyTask 1 "text" "# Next section" false))
  = (EmptyString, true, None)
  /\ forall fuel,
       Parse (S fuel)
         (mkParser (mkScanner ["## later"; "req: x"] None) [taskBuild []]
                   emptyTask 1 "text" "# Next section" false)
       = Some ([taskBuild []], None).
Proof.
  refine (proj2 (task_search_at_heading
            (mkParser (mkScanner ["## later"; "req: x"] None) [taskBuild []]
                      emptyTask 1 "text" "# Next section" false)
            1%Z "Next section" _) _).
  - vm_compute. reflexivity.
  - vm_compute. discriminate.
Defined.

(** ** Stored names and values are trimmed *)

Lemma TrimRightFunc_cons (f : ascii -> bool) (c : ascii) (s : string) :
  strings.TrimRightFunc f (String c s)
  = match strings.TrimRightFunc f s with
    | EmptyString => if f c then EmptyString else String c EmptyString
    | r => String c r
    end.
Proof. reflexivity. Qed.

Lemma TrimRightFunc_idempotent (f : ascii -> bool) (s : string) :
  strings.TrimRightFunc f (strings.TrimRightFunc f s) = strings.TrimRightFunc f s.
Proof.
  induction s as [|c s IH]; [reflexivity|]. rewrite TrimRightFunc_cons.
  destruct (strings.TrimRightFunc f s) as [|d r] eqn:E.
  - destruct (f c) eqn:Fc; [reflexivity|]. simpl. now rewrite Fc.
  - rewrite TrimRightFunc_cons, IH. reflexivity.
Qed.

Lemma TrimLeftFunc_head (f : ascii -> bool) (s : string) :
  match strings.TrimLeftFunc f s with
  | EmptyString => True
  | String c _ => f c = false
  end.
Proof.
  induction s as [|c s IH]; simpl; [exact I|].
  destruct (f c) eqn:Fc; [exact IH|exact Fc].
Qed.

Lemma TrimRightFunc_head (f : ascii -> bool) (s : string) :
  match s with EmptyString => True | String c _ => f c = false end ->
  strings.TrimLeftFunc f (strings.TrimRightFunc f s) = strings.TrimRightFunc f s.
Proof.
  destruct s as [|c s]; [reflexivity|]. intro Fc. rewrite TrimRightFunc_cons.
  destruct (strings.TrimRightFunc f s); rewrite ?Fc; simpl; now rewrite Fc.
Qed.

Lemma TrimFunc_idempotent (f : ascii -> bool) (s : string) :
  strings.TrimFunc f (strings.TrimFunc f s) = strings.TrimFunc f s.
Proof.
  unfold strings.TrimFunc.
  rewrite (TrimRightFunc_head f _ (TrimLeftFunc_head f s)).
  apply TrimRightFunc_idempotent.
Qed.

Lemma Trim_isTrimmed (s : string) : isTrimmed (strings.Trim s trimValues).
Proof. apply TrimFunc_idempotent. Qed.

Lemma appendTrimmed_isTrimmed (field vs : list string) :
  Forall isTrimmed field -> Forall isTrimmed (appendTrimmed field vs).
Proof.
  intro F. unfold appendTrimmed. apply Forall_app. split; [exact F|].
  induction vs; constructor; auto using Trim_isTrimmed.
Qed.

Lemma tidy_appendValues (ty : AttributeType) (rest : string) (t : Task) :
  tidy t -> tidy (appendValues ty rest t).
Proof.
  unfold tidy. intros (N & D & De & E & Dp & I).
  destruct ty; simpl; repeat split;
    auto using appendTrimmed_isTrimmed, Trim_isTrimmed.
Qed.

Lemma tidy_parseAttribute (p : parser) :
  tidy (currTask p) -> tidy (currTask (snd (parseAttribute p))).
Proof.
  intro T. rewrite parseAttribute_cases.
  destruct (attributeOf (currentLine p)) as [ty|]; [|exact T].
  assert (tidy (currTask
                  (snd (scan (set_currTask
                                (appendValues ty (attributeValue (currentLine p))
                                              (currTask p)) p))))) as T'.
  { destruct (scan_kept (set_currTask
                (appendValues ty (attributeValue (currentLine p)) (currTask p)) p))
      as (_ & -> & _).
    now apply tidy_appendValues. }
  destruct ty; cbv zeta; try exact T'.
  destruct (negb _); [exact T|exact T'].
Qed.

Lemma codeBlockLoop_sameButScript (n : nat) (p : parser) :
  sameButScript (currTask p) (currTask (snd (codeBlockLoop n p))).
Proof.
  revert p. induction n as [|n IH]; intro p; [apply sameButScript_refl|].
  cbn [codeBlockLoop]. destruct (scan_kept p) as (_ & C & _).
  destruct (scan p) as [more p1]. cbn [snd] in C. rewrite <- C.
  destruct more; cbn [negb snd]; [|apply sameButScript_refl].
  destruct (isFence (currentLine p1)); [apply sameButScript_refl|].
  destruct (negb _); [|apply IH].
  specialize (IH (set_currTask
                    (set_Script (Script (currTask p1) ++ currentLine p1 ++ newline)
                                (currTask p1)) p1)).
  exact IH.
Qed.

Lemma tidy_sameButScript (t t' : Task) : sameButScript t t' -> tidy t -> tidy t'.
Proof.
  unfold sameButScript, tidy. intros (-> & -> & -> & -> & -> & ->). auto.
Qed.

Lemma tidy_parseCodeBlock (p : parser) :
  tidy (currTask p) -> tidy (currTask (snd (parseCodeBlock p))).
Proof.
  intro T. unfold parseCodeBlock.
  destruct (negb (isFence (currentLine p))); [exact T|].
  destruct (0 <? len (Script (currTask p)))%Z; [exact T|].
  pose proof (codeBlockLoop_sameButScript (S (budget p)) p) as K.
  destruct (codeBlockLoop (S (budget p)) p) as [ended q]. cbn [snd] in K.
  pose proof (tidy_sameButScript _ _ K T) as T'.
  destruct (negb ended); cbn [snd]; [exact T'|].
  now destruct (scan_kept q) as (_ & -> & _).
Qed.

Lemma tidy_taskBodyRound (p : parser) :
  tidy (currTask p) ->
  match taskBodyRound p with
  | Continue q => tidy (currTask q)
  | Return _ q => tidy (currTask q)
  end.
Proof.
  intro T. unfold taskBodyRound.
  pose proof (tidy_parseAttribute p T) as TA.
  destruct (parseAttribute p) as [[ok err] p1]; cbn [snd] in TA.
  destruct ok; [exact TA|]. destruct err; [exact TA|].
  pose proof (tidy_parseCodeBlock p1 TA) as TC.
  destruct (parseCodeBlock p1) as [err p2]; cbn [snd] in TC.
  destruct err; [exact TC|].
  rewrite (surjective_pairing (parseHeading false p2)), parseHeading_peek.
  destruct (fst (parseHeading false p2)) as [[tok level] text].
  destruct (tok && _); [exact TC|]. destruct (tok && _); [exact TC|].
  match goal with |- context [scan ?x] =>
    assert (tidy (currTask x)) as TD;
      [|destruct (scan_kept x) as (_ & C & _); destruct (scan x) as [more p4]] end.
  { destruct (negb _); [|exact TC]. unfold tidy in *.
    cbn [currTask set_currTask Name Description Env Dir DependsOn Inputs
         set_Description].
    destruct TC as (N & D & De & E & Dp & I). repeat split; auto.
    apply Forall_app. split; [exact De|].
    constructor; [apply Trim_isTrimmed|constructor]. }
  cbn [snd] in C. rewrite <- C in TD. destruct (negb more); exact TD.
Qed.

Lemma tidy_parseTaskBody (fuel : nat) (p q : parser) r :
  tidy (currTask p) -> parseTaskBody fuel p = Some (r, q) -> tidy (currTask q).
Proof.
  revert p. induction fuel as [|fuel IH]; simpl; intros p T H; [discriminate|].
  pose proof (tidy_taskBodyRound p T) as K.
  destruct (taskBodyRound p) as [p1|r1 p1].
  - exact (IH _ K H).
  - injection H as <- <-. exact K.
Qed.

Lemma findTaskHeadingLoop_name (n : nat) (p : parser) :
  isTrimmed (fst (fst (fst (findTaskHeadingLoop n p)))).
Proof.
  revert p. induction n as [|n IH]; intro p; cbn [findTaskHeadingLoop];
    [reflexivity|].
  destruct (parseHeading true p) as [[[tok level] text] q].
  destruct (negb tok || _).
  - destruct (scan q) as [more q']. destruct (negb more); [reflexivity|apply IH].
  - destruct (level <=? _)%Z; [reflexivity|apply Trim_isTrimmed].
Qed.

(** A call of [parseTask] leaves the finished tasks as they are or
    appends one task, which is tidy. *)
Lemma parseTask_tidy (fuel : nat) (p q : parser) r :
  parseTask fuel p = Some (r, q) ->
  tasks q = tasks p \/ (tasks q = tasks p ++ [currTask q] /\ tidy (currTask q)).
Proof.
  unfold parseTask.
  pose proof (findTaskHeading_kept (set_currTask emptyTask p)) as (T & C & _).
  pose proof (findTaskHeadingLoop_name
                (S (budget (set_currTask emptyTask p)))
                (set_currTask emptyTask p)) as N.
  fold (findTaskHeading (set_currTask emptyTask p)) in N.
  destruct (findTaskHeading _) as [[[heading done] e] p1]. cbn [fst snd] in *.
  cbn [tasks currTask set_currTask] in T, C.
  destruct e as [e|]; [intro H; injection H as <- <-; now left|].
  destruct done; [intro H; injection H as <- <-; now left|].
  destruct (parseTaskBody fuel _) as [[[okb eb] p2]|] eqn:E; [|discriminate].
  pose proof (bodyKeeps_parseTaskBody _ _ _ _ E) as (T2 & _).
  cbn [tasks set_currTask] in T2.
  apply tidy_parseTaskBody in E.
  2:{ cbn [currTask set_currTask]. rewrite C. unfold tidy.
      cbn [Name Dir Description Env DependsOn Inputs set_Name emptyTask].
      repeat split; try constructor. exact N. }
  destruct eb as [e|]; [intro H; injection H as <- <-; left; congruence|].
  destruct (_ && _); intro H; injection H as <- <-; [left; congruence|].
  right. cbn [tasks currTask set_tasks]. split; [congruence|exact E].
Qed.

Lemma parseLoop_tidy (n fuel : nat) (p q : parser) (err : option error) :
  parseLoop n fuel p = Some (err, q) ->
  exists new, tasks q = tasks p ++ new /\ Forall tidy new.
Proof.
  revert p. induction n as [|n IH]; simpl; intros p H; [discriminate|].
  destruct (parseTask fuel p) as [[[ok e] p1]|] eqn:E; [|discriminate].
  apply parseTask_tidy in E.
  assert (exists d, tasks p1 = tasks p ++ d /\ Forall tidy d) as (d & T & F).
  { destruct E as [T|(T & W)].
    - exists []. now rewrite app_nil_r.
    - exists [currTask p1]. auto. }
  destruct e as [e|]; [|destruct ok; simpl in H].
  - injection H as <- <-. eauto.
  - destruct (IH _ H) as (d' & T' & F'). exists (d ++ d').
    rewrite T', T, app_assoc. split; [reflexivity|]. apply Forall_app; auto.
  - injection H as <- <-. eauto.
Qed.

(** X15. [Parse] only appends: the list it returns is the list of the
    finished tasks it started with, followed by the tasks it read, in
    the order it read them. And every task it read is tidy: its [Name],
    its [Dir] and every entry of its [Description], [Env], [DependsOn]
    and [Inputs] neither starts nor ends with a character of the
    decoration ([_], [*], backtick, space). Read from a document, all
    returned tasks are tidy. *)
Theorem Parse_appends_tidy_tasks :
  (forall fuel p ts err,
      Parse fuel p = Some (ts, err) ->
      exists new, ts = tasks p ++ new /\ Forall tidy new)
  /\ (forall fuel r heading ts err,
        parseDocument fuel r heading = Some (ts, err) -> Forall tidy ts).
Proof.
  assert (forall fuel p ts err,
             Parse fuel p = Some (ts, err) ->
             exists new, ts = tasks p ++ new /\ Forall tidy new) as A.
  { intros fuel p ts err. unfold Parse.
    destruct (parseLoop fuel fuel p) as [[e q]|] eqn:E; [|discriminate].
    intro H; injection H as <- <-. exact (parseLoop_tidy _ _ _ _ _ E). }
  split; [exact A|].
  intros fuel r heading ts err. unfold parseDocument.
  pose proof (NewParser_tasks r heading) as T0.
  destruct (NewParser r heading) as [p [e0|]]; cbn [fst] in T0.
  - intro H; injection H as <- <-. constructor.
  - intro H. destruct (A _ _ _ _ H) as (new & -> & F). now rewrite T0.
Qed.

Lemma Parse_appends_tidy_tasks_witness :
  Forall tidy [taskBuild [EmptyString]].
Proof.
  apply (proj2 Parse_appends_tidy_tasks 3 (NewScanner docBuild) "Tasks"
           [taskBuild [EmptyString]] None).
  vm_compute. reflexivity.
Defined.

(** ** When [Parse] returns *)

Lemma last_cons (l d : string) (rest : list string) :
  last (l :: rest) d = last rest l.
Proof.
  revert l d. induction rest as [|x rest IH]; intros l d; [reflexivity|].
  change (last (l :: x :: rest) d) with (last (x :: rest) d).
  now rewrite !IH.
Qed.

Lemma moves_refl (p : parser) : moves p p.
Proof. unfold moves. auto. Qed.

Lemma moves_trans (p q r : parser) : moves p q -> moves q r -> moves p r.
Proof.
  unfold moves. intros (B1 & I1 & P1) (B2 & I2 & P2).
  split; [lia|]. split; [auto|]. intro E.
  destruct (P1 E) as [L1|(S1 & D1)]; [left; lia|].
  destruct (P2 (I1 E)) as [L2|(S2 & D2)]; [left; lia|].
  right. split; congruence.
Qed.

Lemma moves_scan (p : parser) : moves p (snd (scan p)).
Proof.
  unfold moves. pose proof (scan_budget p) as B.
  destruct (scan_kept p) as (_ & C & _).
  split; [destruct (fst (scan p)); lia|]. split; [|right; now rewrite C].
  clear B C. unfold endsPlainly, lastLine.
  destruct p as [[pend fail] ts t root next cur [|]]; unfold scan, Scan; simpl;
    [auto|].
  intros (A & _). destruct pend as [|l rest]; simpl.
  - split; [exact A|auto].
  - split; [|discriminate]. rewrite <- last_cons with (d := next). exact A.
Qed.

(** A change of the task in progress that leaves script and
    requirements alone. *)
Lemma moves_set_currTask (t : Task) (p : parser) :
  Script t = Script (currTask p) -> DependsOn t = DependsOn (currTask p) ->
  moves p (set_currTask t p).
Proof. unfold moves. intros S D. split; [reflexivity|]. split; auto. Qed.

Lemma moves_parseHeading (advance : bool) (p : parser) :
  moves p (snd (parseHeading advance p)).
Proof.
  destruct advance; [|rewrite parseHeading_peek; apply moves_refl].
  rewrite parseHeading_advance. cbn [snd].
  destruct (fst (fst (fst (parseHeading false p)))); [|apply moves_refl].
  destruct (isRule (nextLine p)); [|apply moves_scan].
  eapply moves_trans; apply moves_scan.
Qed.

(** At the end of a plainly ending input the current line is no
    attribute. *)
Lemma endsPlainly_at_end (p : parser) :
  endsPlainly p -> reachedEnd p = true -> attributeOf (currentLine p) = None.
Proof.
  unfold endsPlainly, lastLine. intros (A & E) End.
  destruct (E End) as (-> & P). now rewrite P in A.
Qed.

Lemma budget_scan_advances (p : parser) :
  reachedEnd p = false -> budget (snd (scan p)) < budget p.
Proof.
  intro E. pose proof (scan_budget p) as B. rewrite scan_answer, E in B.
  simpl in B. lia.
Qed.

Lemma moves_parseAttribute (p : parser) :
  moves p (snd (parseAttribute p))
  /\ (endsPlainly p -> fst (fst (parseAttribute p)) = true ->
      budget (snd (parseAttribute p)) < budget p).
Proof.
  rewrite parseAttribute_cases.
  destruct (attributeOf (currentLine p)) as [ty|] eqn:A;
    [|split; [apply moves_refl|discriminate]].
  assert (forall t, moves p (snd (scan (set_currTask t p)))
                    /\ (endsPlainly p ->
                        budget (snd (scan (set_currTask t p))) < budget p)) as M.
  { intro t.
    assert (endsPlainly p -> budget (snd (scan (set_currTask t p))) < budget p) as L.
    { intro E. apply (budget_scan_advances (set_currTask t p)).
      destruct (reachedEnd p) eqn:End; [|exact End].
      rewrite (endsPlainly_at_end p E End) in A. discriminate. }
    split; [|exact L]. unfold moves.
    pose proof (moves_scan (set_currTask t p)) as (B & I & _).
    split; [exact B|]. split; [exact I|]. intro E. left. exact (L E). }
  destruct ty; cbv zeta; try (split; [apply M|intros E _; now apply M]).
  destruct (negb _); [split; [apply moves_refl|discriminate]|].
  split; [apply M|intros E _; now apply M].
Qed.

Lemma moves_codeBlockLoop (n : nat) (p : parser) :
  budget (snd (codeBlockLoop n p)) <= budget p
  /\ (endsPlainly p -> endsPlainly (snd (codeBlockLoop n p)))
  /\ (budget (snd (codeBlockLoop n p)) < budget p
      \/ currTask (snd (codeBlockLoop n p)) = currTask p).
Proof.
  revert p. induction n as [|n IH]; intro p; [simpl; auto|].
  cbn [codeBlockLoop].
  pose proof (moves_scan p) as (B & I & _).
  destruct (scan_kept p) as (_ & C & _).
  pose proof (scan_answer p) as M. pose proof (budget_scan_advances p) as Adv.
  destruct (scan p) as [more p1]. cbn [fst snd] in *. subst more.
  destruct (reachedEnd p); cbn [negb snd]; [auto|]. specialize (Adv eq_refl).
  destruct (isFence (currentLine p1)); cbn [snd]; [split; [lia|auto]|].
  destruct (negb _).
  - destruct (IH (set_currTask
                    (set_Script (Script (currTask p1) ++ currentLine p1 ++ newline)
                                (currTask p1)) p1)) as (B2 & I2 & _).
    rewrite budget_set_currTask in B2. split; [lia|]. split; [|left; lia].
    intro E. apply I2. exact (I E).
  - destruct (IH p1) as (B2 & I2 & _). split; [lia|]. split; [auto|left; lia].
Qed.

Lemma moves_parseCodeBlock (p : parser) : moves p (snd (parseCodeBlock p)).
Proof.
  unfold parseCodeBlock.
  destruct (negb (isFence (currentLine p))); [apply moves_refl|].
  destruct (0 <? len (Script (currTask p)))%Z; [apply moves_refl|].
  pose proof (moves_codeBlockLoop (S (budget p)) p) as (B & I & P).
  destruct (codeBlockLoop (S (budget p)) p) as [ended q]. cbn [snd] in *.
  assert (moves p q) as M.
  { unfold moves. split; [exact B|]. split; [exact I|]. intros _.
    destruct P as [L|C]; [now left|right; now rewrite C]. }
  destruct (negb ended); cbn [snd]; [exact M|].
  eapply moves_trans; [exact M|apply moves_scan].
Qed.

(** A round of the body loop: the cursor does not go back; if the loop
    goes on, it has advanced. *)
Lemma moves_taskBodyRound (p : parser) :
  match taskBodyRound p with
  | Continue q => moves p q /\ (endsPlainly p -> budget q < budget p)
  | Return _ q => moves p q
  end.
Proof.
  unfold taskBodyRound.
  pose proof (moves_parseAttribute p) as (MA & LA).
  destruct (parseAttribute p) as [[ok err] p1]; cbn [fst snd] in *.
  destruct ok; [split; [exact MA|auto]|]. destruct err; [exact MA|].
  pose proof (moves_parseCodeBlock p1) as MC.
  destruct (parseCodeBlock p1) as [err p2]; cbn [snd] in MC.
  pose proof (moves_trans _ _ _ MA MC) as M2.
  destruct err; [exact M2|].
  rewrite (surjective_pairing (parseHeading false p2)), parseHeading_peek.
  destruct (fst (parseHeading false p2)) as [[tok level] text].
  destruct (tok && _); [exact M2|]. destruct (tok && _); [exact M2|].
  match goal with |- context [scan ?x] =>
    assert (moves p2 x) as MD;
      [|pose proof (moves_scan x) as MS; pose proof (scan_answer x) as An;
        pose proof (budget_scan_advances x) as Adv;
        destruct (scan x) as [more p4]] end.
  { destruct (negb _); [|apply moves_refl]. now apply moves_set_currTask. }
  cbn [fst snd] in *.
  pose proof (moves_trans _ _ _ M2 (moves_trans _ _ _ MD MS)) as M.
  destruct more; cbn [negb]; [|exact M]. split; [exact M|]. intros _.
  assert (budget p4 < budget (if negb (String.eqb (strings.TrimSpace (currentLine p2))
                                                  EmptyString)
                              then set_currTask
                                     (set_Description
                                        (Description (currTask p2)
                                         ++ [strings.Trim (currentLine p2) trimValues])
                                        (currTask p2)) p2
                              else p2)) as L.
  { apply Adv. symmetry in An. apply negb_true_iff in An. exact An. }
  destruct M2 as (B2 & _). destruct MD as (BD & _). lia.
Qed.

Lemma parseTaskBody_returns (fuel : nat) (p : parser) :
  endsPlainly p -> budget p < fuel ->
  exists r q, parseTaskBody fuel p = Some (r, q) /\ moves p q.
Proof.
  revert p. induction fuel as [|fuel IH]; intros p E L; [lia|].
  cbn [parseTaskBody]. pose proof (moves_taskBodyRound p) as M.
  destruct (taskBodyRound p) as [p1|r p1].
  - destruct M as (M & Lt). specialize (Lt E).
    destruct M as (B & I & P).
    destruct (IH p1 (I E)) as (r & q & -> & Mq); [lia|].
    exists r, q. split; [reflexivity|].
    eapply moves_trans; [|exact Mq]. unfold moves. auto.
  - exists r, p1. auto.
Qed.

Lemma moves_findTaskHeadingLoop (n : nat) (p : parser) :
  moves p (snd (findTaskHeadingLoop n p)).
Proof.
  revert p. induction n as [|n IH]; intro p; [apply moves_refl|].
  cbn [findTaskHeadingLoop].
  pose proof (moves_parseHeading true p) as MH.
  destruct (parseHeading true p) as [[[tok level] text] q]. cbn [snd] in MH.
  destruct (negb tok || _);
    [|destruct (level <=? _)%Z; exact MH].
  pose proof (moves_scan q) as MS. destruct (scan q) as [more q']. cbn [snd] in MS.
  pose proof (moves_trans _ _ _ MH MS) as M.
  destruct (negb more); [exact M|].
  eapply moves_trans; [exact M|apply IH].
Qed.

(** A call of [parseTask] on a plainly ending input returns, and if it
    read a task the cursor has advanced. *)
Lemma parseTask_returns (fuel : nat) (p : parser) :
  endsPlainly p -> budget p < fuel ->
  exists r q, parseTask fuel p = Some (r, q)
              /\ endsPlainly q /\ budget q <= budget p
              /\ (r = (true, None) -> budget q < budget p).
Proof.
  intros E L. unfold parseTask.
  pose proof (moves_findTaskHeadingLoop
                (S (budget (set_currTask emptyTask p)))
                (set_currTask emptyTask p)) as (B1 & I1 & _).
  fold (findTaskHeading (set_currTask emptyTask p)) in B1, I1.
  pose proof (findTaskHeading_kept (set_currTask emptyTask p)) as (_ & C & _).
  destruct (findTaskHeading _) as [[[heading done] e] p1]. cbn [fst snd] in *.
  change (budget (set_currTask emptyTask p)) with (budget p) in B1.
  specialize (I1 E).
  destruct e as [e|].
  { exists (false, Some e), p1. split; [reflexivity|]. split; [exact I1|].
    split; [exact B1|discriminate]. }
  destruct done.
  { exists (false, None), p1. split; [reflexivity|]. split; [exact I1|].
    split; [exact B1|discriminate]. }
  destruct (parseTaskBody_returns fuel
              (set_currTask (set_Name heading (currTask p1)) p1))
    as ([okb eb] & q & -> & (B2 & I2 & P2));
    [exact I1|rewrite budget_set_currTask; lia|].
  change (budget (set_currTask (set_Name heading (currTask p1)) p1))
    with (budget p1) in B2, P2.
  specialize (I2 I1). specialize (P2 I1).
  destruct eb as [e|].
  { exists (okb, Some e), q. split; [reflexivity|]. split; [exact I2|].
    split; [lia|discriminate]. }
  destruct (_ && _) eqn:V.
  - eexists (okb, Some _), q. split; [reflexivity|]. split; [exact I2|].
    split; [lia|discriminate].
  - exists (okb, None), (set_tasks (tasks q ++ [currTask q]) q).
    change (budget (set_tasks (tasks q ++ [currTask q]) q)) with (budget q).
    split; [reflexivity|]. split; [exact I2|]. split; [lia|].
    intros _.
    destruct P2 as [Lt|(Sc & Dp)]; [lia|]. exfalso.
    cbn [currTask set_currTask Script DependsOn set_Name] in Sc, Dp.
    rewrite C in Sc, Dp. cbn [currTask set_currTask] in Sc, Dp.
    rewrite Sc, Dp in V. discriminate V.
Qed.

Lemma parseLoop_returns (n fuel : nat) (p : parser) :
  endsPlainly p -> budget p < n -> budget p < fuel ->
  exists res, parseLoop n fuel p = Some res.
Proof.
  revert p. induction n as [|n IH]; intros p E Ln Lf; [lia|]. cbn [parseLoop].
  destruct (parseTask_returns fuel p E Lf) as ([ok err] & q & -> & Eq & B & Lt).
  destruct err as [e|]; [eauto|]. destruct ok; cbn [negb]; [|eauto].
  specialize (Lt eq_refl). apply IH; [exact Eq|lia|lia].
Qed.

Lemma moves_newParserLoop (n : nat) (heading : string) (p : parser) :
  moves p (fst (newParserLoop n heading p)).
Proof.
  revert p. induction n as [|n IH]; intro p; [apply moves_refl|].
  cbn [newParserLoop]. pose proof (moves_scan p) as MS.
  destruct (scan p) as [more p1]. cbn [snd] in MS.
  destruct (negb more); [exact MS|].
  pose proof (moves_parseHeading true p1) as MH.
  destruct (parseHeading true p1) as [[[ok level] text] p2]. cbn [snd] in MH.
  pose proof (moves_trans _ _ _ MS MH) as M.
  destruct (negb ok || _).
  - eapply moves_trans; [exact M|apply IH].
  - exact M.
Qed.

(** X18. Unless the last line of the input is taken for an attribute,
    the parse returns: for every input whose last line is no attribute
    line (the empty input included) and every target heading, [NewParser]
    followed by [Parse] gives a result once the fuel exceeds the number
    of lines by more than one. *)
Theorem parse_returns_unless_attribute_ends_input
  (r : Scanner) (heading : string) (fuel : nat) :
  attributeOf (last (pending r) EmptyString) = None ->
  S (List.length (pending r)) < fuel ->
  exists res, parseDocument fuel r heading = Some res.
Proof.
  intros A L. unfold parseDocument, NewParser.
  pose proof (moves_newParserLoop (S (budget (newParserState r))) heading
                (newParserState r)) as (B & I & _).
  destruct (newParserLoop _ heading (newParserState r)) as [p [e|]];
    [eauto|]. cbn [fst] in *. unfold Parse.
  assert (endsPlainly (newParserState r)) as E0.
  { unfold endsPlainly, lastLine. simpl. split; [exact A|discriminate]. }
  change (budget (newParserState r)) with (S (List.length (pending r))) in B.
  destruct (parseLoop_returns fuel fuel p (I E0)) as ([err q] & ->); [lia|lia|].
  eauto.
Qed.

Lemma parse_returns_unless_attribute_ends_input_witness :
  exists res, parseDocument 9 (NewScanner docBuild) "Tasks" = Some res.
Proof.
  apply (parse_returns_unless_attribute_ends_input (NewScanner docBuild) "Tasks" 9).
  - vm_compute. reflexivity.
  - vm_compute. lia.
Defined.

(** ** [NewParser] finds the section *)

Lemma cursorAt_reachedEnd (p : parser) (current l : string) (rest : list string) :
  cursorAt p current (l :: rest) -> reachedEnd p = false.
Proof. now intros (_ & E & _). Qed.

Lemma newParserLoop_finds
  (pre : list string) (l l2 : string) (rest : list string) (heading : string)
  (level : Z) (text : string) (n : nat) (p : parser) (current : string) :
  cursorAt p current (pre ++ l :: l2 :: rest) ->
  Forall (fun x => plainLine x = true) pre ->
  isRule l = false -> isRule l2 = false ->
  headingAt l EmptyString = (true, level, text) ->
  strings.EqualFold (strings.TrimSpace text) (strings.TrimSpace heading) = true ->
  List.length pre < n ->
  exists q, newParserLoop n heading p = (q, None)
            /\ rootHeadingLevel q = level /\ cursorAt q l2 rest.
Proof.
  intros C F Rl Rl2 H Match. revert n p current C.
  induction F as [|x pre Px F IH]; intros n p current C L;
    (destruct n as [|n]; [simpl in L; lia|]); cbn [app] in C;
    rewrite (newParserLoop_round _ _ _ (cursorAt_reachedEnd _ _ _ _ C));
    destruct (cursorAt_scan _ _ _ _ C) as (_ & C1 & _); cbv zeta.
  - pose proof C1 as (-> & _ & -> & _).
    rewrite (headingAt_no_rule _ _ Rl2), H, Match, Rl2. cbn [negb orb].
    destruct (cursorAt_scan _ _ _ _ C1) as (_ & C2 & _).
    eexists. split; [reflexivity|]. split; [reflexivity|exact C2].
  - assert (isRule (nextLine (snd (scan p))) = false) as Rn.
    { destruct C1 as (_ & R). destruct pre as [|y pre]; cbn [app] in R.
      - now destruct R as (_ & -> & _).
      - destruct R as (_ & -> & _). inversion F as [|? ? Py _]; subst.
        unfold plainLine in Py. apply andb_true_iff in Py.
        destruct Py as [Py _]. now apply negb_true_iff in Py. }
    pose proof C1 as (-> & _).
    rewrite (headingAt_no_rule _ _ Rn).
    unfold plainLine in Px. apply andb_true_iff in Px. destruct Px as [_ Px].
    apply negb_true_iff in Px.
    destruct (headingAt x EmptyString) as [[ok lv] tx]. cbn [fst] in Px.
    subst ok. cbn [negb orb].
    apply (IH n (snd (scan p)) x C1). simpl in L. lia.
Qed.

(** X17. [NewParser] finds the section: after any number of lines that
    are neither headings nor rules, a marker heading whose text is the
    target up to case and surrounding spaces, followed by a line that is
    no rule, makes [NewParser] succeed with the level of that heading as
    root level and with the cursor on the line after the heading. *)
Theorem NewParser_finds_heading
  (pre : list string) (l l2 : string) (rest : list string)
  (fail : option string) (heading : string) (level : Z) (text : string) :
  Forall (fun x => plainLine x = true) pre ->
  isRule l = false -> isRule l2 = false ->
  headingAt l EmptyString = (true, level, text) ->
  strings.EqualFold (strings.TrimSpace text) (strings.TrimSpace heading) = true ->
  exists p, NewParser (mkScanner (pre ++ l :: l2 :: rest) fail) heading = (p, None)
            /\ rootHeadingLevel p = level /\ cursorAt p l2 rest.
Proof.
  intros F Rl Rl2 H Match. unfold NewParser.
  apply (newParserLoop_finds (EmptyString :: pre) l l2 rest heading level text
           _ _ EmptyString); try assumption.
  - unfold cursorAt. cbn. auto.
  - constructor; [reflexivity|exact F].
  - cbn [budget newParserState reachedEnd scanner pending].
    rewrite length_app. simpl. lia.
Qed.

Lemma NewParser_finds_heading_witness :
  exists p,
    NewParser (mkScanner (["My project"; EmptyString; "Some words."]
                          ++ "##  tasks " :: "## build" :: ["req: x"]) None)
              "Tasks"
    = (p, None)
    /\ rootHeadingLevel p = 2%Z /\ cursorAt p "## build" ["req: x"].
Proof.
  apply (NewParser_finds_heading ["My project"; EmptyString; "Some words."]
           "##  tasks " "## build" ["req: x"] None "Tasks" 2%Z "tasks").
  - repeat constructor.
  - vm_compute. reflexivity.
  - vm_compute. reflexivity.
  - vm_compute. reflexivity.
  - vm_compute. reflexivity.
Defined.
